(** * The plot manager of chia/plotting/manager.py

    A shallow embedding of [PlotManager]: its tables, the admission pre-filter
    [processing_required], the per-file worker [process_file], the batch
    processor [process_batch] and the refresh loop [_refresh_task], followed
    by the properties of the manager that are stated about them.

    Conventions of the embedding.
    - [time.time()] reads the field [clock] of the world; the clock only moves
      during calls that leave the manager (the observer callback, the worker
      pool, [time.sleep]).  Times are rationals; the sizes of the size check
      of [process_file] are binary64 floats, rounded as Python rounds them.
    - Other threads (callers of the facade) act during those same calls: the
      callback, the worker pool and the sleep are arbitrary transformers of
      the world.  The locks are therefore not modelled.
    - The worker pool runs the files of a batch one after the other, in list
      order, and stops at the first exception.  (The pool of the source runs
      them in any order and may still run files that come after a raising
      one; nothing is stated here that depends on either.)
    - Paths are POSIX paths.
    - A Python exception (a subclass of [Exception]) is the outcome [Raise];
      the state reached when it is raised is kept, as in Python.
    - Dictionaries and sets are finite maps and sets; their iteration order is
      the one of [map_to_list] and [elements], not the insertion order. *)

From Stdlib Require Import QArith Lqa SpecFloat.
From stdpp Require Import gmap strings list fin_maps.

#[local] Set Warnings "-clear-no-such-hyp".
Local Open Scope Z_scope.

(** ** Paths, keys and the records of the collaborators *)

(** A [pathlib.Path] naming a file is kept as [str(path.parent)] and
    [path.name]; [Path(d) / Path(n)] is then [mkPath d n]. *)
Record Path := mkPath { parent : string; name : string }.

#[global] Instance Path_eq_dec : EqDecision Path.
Proof. solve_decision. Defined.

#[global] Instance Path_countable : Countable Path :=
  inj_countable' (λ p, (parent p, name p)) (λ q, mkPath q.1 q.2)
                 (λ p, match p with mkPath _ _ => eq_refl end).

(** whether [s] ends with a slash: of the strings [str(path.parent)] of
    POSIX paths only the roots [/] and [//] do *)
Fixpoint ends_with_slash (s : string) : bool :=
  match s with
  | EmptyString => false
  | String _ EmptyString => String.eqb s "/"
  | String _ s' => ends_with_slash s'
  end.

(** [str(path)] of a POSIX path, from [str(path.parent)] and [path.name]: a
    path without directory part has the parent [.], which [str] does not
    show, and a root already ends with the separator. *)
Definition path_str (p : Path) : string :=
  if String.eqb (parent p) "." then
    (if String.eqb (name p) "" then "." else name p)
  else if ends_with_slash (parent p) then parent p +:+ name p
  else parent p +:+ "/" +:+ name p.

(** [needle in s] on Python strings *)
Fixpoint str_contains (needle s : string) : bool :=
  if String.prefix needle s then true
  else match s with
       | EmptyString => false
       | String _ s' => str_contains needle s'
       end.

Definition G1Element := string.
Definition bytes32 := string.

(** [x < y] on rationals, as a boolean *)
Definition Qltb (x y : Q) : bool := negb (Qle_bool y x).

(** [int(x)] of a float: truncation towards zero *)
Definition int_of (x : Q) : Z := Z.quot (Qnum x) (Z.pos (Qden x)).

(** [os.stat_result], the two fields that are read *)
Record stat_result := { st_size : Z; st_mtime : Q }.

(** The prover handle.  [get_filename] stands for
    [Path(prover.get_filename())]; the memo fields are what the header of the
    plot binds the plot to. *)
Record DiskProver := {
  get_filename : Path;
  get_size : Z;
  memo_farmer_public_key : G1Element;
  memo_pool_public_key : option G1Element;
  memo_pool_contract_puzzle_hash : option bytes32;
  memo_plot_public_key : G1Element;
}.

Module CacheEntry.
(** Modelled from the spec: the cache entry (chia/plotting/cache.py is not
    part of the sources at hand): prover handle, farmer public key, optional
    pool public key, optional pool contract puzzle hash, plot public key and
    last-use timestamp. *)
Record t := {
  prover : DiskProver;
  farmer_public_key : G1Element;
  pool_public_key : option G1Element;
  pool_contract_puzzle_hash : option bytes32;
  plot_public_key : G1Element;
  last_use : Q;
}.

(** Modelled from the spec: [CacheEntry.bump_last_use]
    (chia/plotting/cache.py): the last use becomes the current time. *)
Definition bump_last_use (now : Q) (e : t) : t :=
  {| prover := prover e;
     farmer_public_key := farmer_public_key e;
     pool_public_key := pool_public_key e;
     pool_contract_puzzle_hash := pool_contract_puzzle_hash e;
     plot_public_key := plot_public_key e;
     last_use := now |}.

(** Modelled from the spec: [CacheEntry.expired] (chia/plotting/cache.py is
    not part of the sources at hand): an entry is expired iff
    [now - last_use > expiry_seconds]. *)
Definition expired (now : Q) (expiry_seconds : Z) (e : t) : bool :=
  Qltb (inject_Z expiry_seconds) (now - last_use e).

(** Modelled from the spec: [CacheEntry.from_disk_prover]
    (chia/plotting/cache.py): on a miss, a new entry is built from the
    prover by reading its keys. *)
Definition from_disk_prover (now : Q) (p : DiskProver) : t :=
  {| prover := p;
     farmer_public_key := memo_farmer_public_key p;
     pool_public_key := memo_pool_public_key p;
     pool_contract_puzzle_hash := memo_pool_contract_puzzle_hash p;
     plot_public_key := memo_plot_public_key p;
     last_use := now |}.
End CacheEntry.

Module Cache.
(** Modelled from the spec: the cache store (chia/plotting/cache.py): a map
    from path to entry with a dirty bit; [expiry_seconds] is the class
    constant [Cache.expiry_seconds]. *)
Record t := {
  data : gmap Path CacheEntry.t;
  dirty : bool;
  expiry_seconds : Z;
}.

(** Modelled from the spec: [Cache.get], a pure lookup. *)
Definition get (path : Path) (c : t) : option CacheEntry.t := data c !! path.

(** Modelled from the spec: [Cache.update] inserts or overwrites and sets
    the dirty bit. *)
Definition update (path : Path) (e : CacheEntry.t) (c : t) : t :=
  {| data := <[path := e]> (data c); dirty := true;
     expiry_seconds := expiry_seconds c |}.

(** Modelled from the spec: [Cache.remove] is a bulk delete; the dirty bit
    is set if any deletion happened. *)
Definition remove (paths : list Path) (c : t) : t :=
  {| data := foldr delete (data c) paths;
     dirty := dirty c || existsb (λ p, bool_decide (is_Some (data c !! p))) paths;
     expiry_seconds := expiry_seconds c |}.

(** Modelled from the spec: [Cache.items] (a snapshot), [Cache.changed] (the
    dirty bit) and [len(cache)] (the count). *)
Definition items (c : t) : list (Path * CacheEntry.t) := map_to_list (data c).
Definition changed (c : t) : bool := dirty c.
Definition len (c : t) : nat := size (data c).

(** [cache_entry.bump_last_use()] on the entry stored under [path]: the
    entry object is shared with the cache, the dirty bit is not touched. *)
Definition bump (now : Q) (path : Path) (c : t) : t :=
  {| data := alter (CacheEntry.bump_last_use now) path (data c);
     dirty := dirty c; expiry_seconds := expiry_seconds c |}.

Definition with_data (d : gmap Path CacheEntry.t) (c : t) : t :=
  {| data := d; dirty := dirty c; expiry_seconds := expiry_seconds c |}.

Definition mark_clean (c : t) : t :=
  {| data := data c; dirty := false; expiry_seconds := expiry_seconds c |}.
End Cache.

Module PlotInfo.
(** Modelled from the spec: the plot descriptor (chia/plotting/util.py is not
    part of the sources at hand), built at lines 316-323. *)
Record t := {
  prover : DiskProver;
  pool_public_key : option G1Element;
  pool_contract_puzzle_hash : option bytes32;
  plot_public_key : G1Element;
  file_size : Z;
  time_modified : Q;
}.
End PlotInfo.

Module PlotRefreshResult.
(** Modelled from the spec: what the observer is given
    (chia/plotting/util.py): loaded, removed, processed, remaining and
    duration, empty or 0 unless given. *)
Record t := {
  loaded : list PlotInfo.t;
  removed : list Path;
  processed : Z;
  remaining : Z;
  duration : Q;
}.

(** [PlotRefreshResult()] *)
Definition default : t :=
  {| loaded := []; removed := []; processed := 0; remaining := 0; duration := 0%Q |}.
End PlotRefreshResult.

Module PlotsRefreshParameter.
(** Modelled from the spec: the refresh parameters (chia/plotting/util.py),
    the three that the manager reads. *)
Record t := {
  interval_seconds : Z;
  retry_invalid_seconds : Z;
  batch_size : nat;
}.
End PlotsRefreshParameter.

(** Modelled from the spec: the kinds of events (chia/plotting/util.py). *)
Inductive PlotRefreshEvents := started | batch_processed | done.

#[global] Instance PlotRefreshEvents_eq_dec : EqDecision PlotRefreshEvents.
Proof. solve_decision. Defined.

(** ** The manager *)

Record PlotManager := {
  root_path : string;
  plots : gmap Path PlotInfo.t;
  plot_filename_paths : gmap string (string * gset string);
  failed_to_open_filenames : gmap Path Z;
  no_key_filenames : gset Path;
  farmer_public_keys : list G1Element;
  pool_public_keys : list G1Element;
  cache : Cache.t;
  match_str : option string;
  open_no_key_filenames : bool;
  last_refresh_time : Q;
  refresh_parameter : PlotsRefreshParameter.t;
  _refreshing_enabled : bool;
  _initial : bool;
}.

(** What the refresh thread runs in: the manager, the wall clock and the
    cache file [cache/plot_manager.dat] ([None]: no file). *)
Record World := {
  self : PlotManager;
  clock : Q;
  cache_file : option (gmap Path CacheEntry.t);
}.

(** What the refresh thread leaves behind for an outside observer: the calls
    of [self._refresh_callback] and the log lines of [_refresh_task].  (The
    log lines of the other methods carry no control information and are left
    out.) *)
Inductive Entry :=
| Observed (ev : PlotRefreshEvents) (r : PlotRefreshResult.t)
| LogAborted                                   (* "refresh_plots: Aborted" *)
| LogCachedBefore (n : nat)                    (* cached entries before cleanup *)
| LogCachedRemoved (n : nat)                   (* cached entries removed *)
| LogTotals (nloaded nremoved : nat) (d : Q)   (* total_result... *)
| LogError (e : string).                       (* "_refresh_callback raised: ..." *)

Inductive result (A : Type) :=
| Return (a : A)
| Raise (e : string).
Arguments Return {A} a.
Arguments Raise {A} e.

(** ** A state, exception and journal monad *)

Definition M (A : Type) : Type := World → result A * World * list Entry.

Definition ret {A} (a : A) : M A := λ w, (Return a, w, []).

Definition bind {A B} (m : M A) (f : A → M B) : M B := λ w,
  match m w with
  | (Return a, w1, j1) =>
      match f a w1 with (r, w2, j2) => (r, w2, j1 ++ j2) end
  | (Raise e, w1, j1) => (Raise e, w1, j1)
  end.

Declare Scope manager_scope.
Delimit Scope manager_scope with mgr.
Notation "'let*' x ':=' m 'in' k" := (bind m (λ x, k))
  (at level 10, x name, m at level 100, k at level 200) : manager_scope.
Local Open Scope manager_scope.

Definition get_world : M World := λ w, (Return w, w, []).
Definition gets {A} (f : PlotManager → A) : M A := λ w, (Return (f (self w)), w, []).
Definition now : M Q := λ w, (Return (clock w), w, []).
Definition put_world (w' : World) : M unit := λ _, (Return tt, w', []).
Definition emit (e : Entry) : M unit := λ w, (Return tt, w, [e]).
Definition raise {A} (e : string) : M A := λ w, (Raise e, w, []).

Definition set_self (s : PlotManager) (w : World) : World :=
  {| self := s; clock := clock w; cache_file := cache_file w |}.

Definition modify (f : PlotManager → PlotManager) : M unit :=
  λ w, (Return tt, set_self (f (self w)) w, []).

(** a call that leaves the manager: it may raise and may change the world *)
Definition extern {A} (f : World → result A * World) : M A :=
  λ w, let (r, w') := f w in (r, w', []).

(** a value computed outside the manager, or an exception *)
Definition lift {A} (r : result A) : M A := λ w, (r, w, []).

Definition when (b : bool) (m : M unit) : M unit := if b then m else ret tt.

(** [try: m except Exception as e: h e] *)
Definition try_except {A} (m : M A) (h : string → M A) : M A := λ w,
  match m w with
  | (Return a, w1, j1) => (Return a, w1, j1)
  | (Raise e, w1, j1) =>
      match h e w1 with (r, w2, j2) => (r, w2, j1 ++ j2) end
  end.

(** the three components of a run *)
Definition outcome {A} (m : M A) (w : World) : result A := (m w).1.1.
Definition final {A} (m : M A) (w : World) : World := (m w).1.2.
Definition journal {A} (m : M A) (w : World) : list Entry := (m w).2.

(** [wp m w Q]: the run of [m] from [w] satisfies [Q] *)
Definition wp {A} (m : M A) (w : World)
    (Q : result A → World → list Entry → Prop) : Prop :=
  Q (outcome m w) (final m w) (journal m w).

(** ** Field updates of the manager *)

Definition set_plots (v : gmap Path PlotInfo.t) (s : PlotManager) : PlotManager :=
  {| root_path := root_path s; plots := v;
     plot_filename_paths := plot_filename_paths s;
     failed_to_open_filenames := failed_to_open_filenames s;
     no_key_filenames := no_key_filenames s;
     farmer_public_keys := farmer_public_keys s;
     pool_public_keys := pool_public_keys s; cache := cache s;
     match_str := match_str s; open_no_key_filenames := open_no_key_filenames s;
     last_refresh_time := last_refresh_time s;
     refresh_parameter := refresh_parameter s;
     _refreshing_enabled := _refreshing_enabled s; _initial := _initial s |}.

Definition set_plot_filename_paths (v : gmap string (string * gset string))
    (s : PlotManager) : PlotManager :=
  {| root_path := root_path s; plots := plots s;
     plot_filename_paths := v;
     failed_to_open_filenames := failed_to_open_filenames s;
     no_key_filenames := no_key_filenames s;
     farmer_public_keys := farmer_public_keys s;
     pool_public_keys := pool_public_keys s; cache := cache s;
     match_str := match_str s; open_no_key_filenames := open_no_key_filenames s;
     last_refresh_time := last_refresh_time s;
     refresh_parameter := refresh_parameter s;
     _refreshing_enabled := _refreshing_enabled s; _initial := _initial s |}.

Definition set_failed_to_open_filenames (v : gmap Path Z) (s : PlotManager) : PlotManager :=
  {| root_path := root_path s; plots := plots s;
     plot_filename_paths := plot_filename_paths s;
     failed_to_open_filenames := v;
     no_key_filenames := no_key_filenames s;
     farmer_public_keys := farmer_public_keys s;
     pool_public_keys := pool_public_keys s; cache := cache s;
     match_str := match_str s; open_no_key_filenames := open_no_key_filenames s;
     last_refresh_time := last_refresh_time s;
     refresh_parameter := refresh_parameter s;
     _refreshing_enabled := _refreshing_enabled s; _initial := _initial s |}.

Definition set_no_key_filenames (v : gset Path) (s : PlotManager) : PlotManager :=
  {| root_path := root_path s; plots := plots s;
     plot_filename_paths := plot_filename_paths s;
     failed_to_open_filenames := failed_to_open_filenames s;
     no_key_filenames := v;
     farmer_public_keys := farmer_public_keys s;
     pool_public_keys := pool_public_keys s; cache := cache s;
     match_str := match_str s; open_no_key_filenames := open_no_key_filenames s;
     last_refresh_time := last_refresh_time s;
     refresh_parameter := refresh_parameter s;
     _refreshing_enabled := _refreshing_enabled s; _initial := _initial s |}.

Definition set_cache (v : Cache.t) (s : PlotManager) : PlotManager :=
  {| root_path := root_path s; plots := plots s;
     plot_filename_paths := plot_filename_paths s;
     failed_to_open_filenames := failed_to_open_filenames s;
     no_key_filenames := no_key_filenames s;
     farmer_public_keys := farmer_public_keys s;
     pool_public_keys := pool_public_keys s; cache := v;
     match_str := match_str s; open_no_key_filenames := open_no_key_filenames s;
     last_refresh_time := last_refresh_time s;
     refresh_parameter := refresh_parameter s;
     _refreshing_enabled := _refreshing_enabled s; _initial := _initial s |}.

Definition set_last_refresh_time (v : Q) (s : PlotManager) : PlotManager :=
  {| root_path := root_path s; plots := plots s;
     plot_filename_paths := plot_filename_paths s;
     failed_to_open_filenames := failed_to_open_filenames s;
     no_key_filenames := no_key_filenames s;
     farmer_public_keys := farmer_public_keys s;
     pool_public_keys := pool_public_keys s; cache := cache s;
     match_str := match_str s; open_no_key_filenames := open_no_key_filenames s;
     last_refresh_time := v;
     refresh_parameter := refresh_parameter s;
     _refreshing_enabled := _refreshing_enabled s; _initial := _initial s |}.

Definition set_refreshing_enabled (v : bool) (s : PlotManager) : PlotManager :=
  {| root_path := root_path s; plots := plots s;
     plot_filename_paths := plot_filename_paths s;
     failed_to_open_filenames := failed_to_open_filenames s;
     no_key_filenames := no_key_filenames s;
     farmer_public_keys := farmer_public_keys s;
     pool_public_keys := pool_public_keys s; cache := cache s;
     match_str := match_str s; open_no_key_filenames := open_no_key_filenames s;
     last_refresh_time := last_refresh_time s;
     refresh_parameter := refresh_parameter s;
     _refreshing_enabled := v; _initial := _initial s |}.

Definition set_initial (v : bool) (s : PlotManager) : PlotManager :=
  {| root_path := root_path s; plots := plots s;
     plot_filename_paths := plot_filename_paths s;
     failed_to_open_filenames := failed_to_open_filenames s;
     no_key_filenames := no_key_filenames s;
     farmer_public_keys := farmer_public_keys s;
     pool_public_keys := pool_public_keys s; cache := cache s;
     match_str := match_str s; open_no_key_filenames := open_no_key_filenames s;
     last_refresh_time := last_refresh_time s;
     refresh_parameter := refresh_parameter s;
     _refreshing_enabled := _refreshing_enabled s; _initial := v |}.

(** ** Python floats

    A float is a binary64 number, with the operations of the IEEE standard
    as [SpecFloat] defines them (round to nearest, ties to even). *)
Definition float := spec_float.

(** [float(z)], the conversion that [z * x] applies to an int [z]: the
    nearest float, or [OverflowError] when there is none *)
Definition float_of_int (z : Z) : result float :=
  match binary_normalize 53 1024 z 0 false with
  | S754_infinity _ => Raise "OverflowError"
  | f => Return f
  end.

(** [x * y] on floats *)
Definition float_mul : float → float → float := SFmul 53 1024.

(** the float that a decimal literal with the value [n / d] denotes, for
    [n] and [d] below 2^53: the nearest float *)
Definition float_lit (n : Z) (d : positive) : float :=
  SFdiv 53 1024 (binary_normalize 53 1024 n 0 false)
                (binary_normalize 53 1024 (Z.pos d) 0 false).

(** [z / (1024 ** 3)] for an int [z], a true division of ints: the float
    nearest to the quotient, or [OverflowError] when there is none *)
Definition int_div_GiB (z : Z) : result float :=
  match binary_normalize 53 1024 z (-30) false with
  | S754_infinity _ => Raise "OverflowError"
  | f => Return f
  end.

(** [z < x] for an int [z] and a float [x]: Python compares the two numbers
    exactly, without converting the int *)
Definition int_lt_float (z : Z) (x : float) : bool :=
  match x with
  | S754_nan => false
  | S754_infinity s => negb s
  | S754_zero _ => z <? 0
  | S754_finite s m e =>
      let v := if s then Z.neg m else Z.pos m in
      if 0 <=? e then z <? v * 2 ^ e else z * 2 ^ (- e) <? v
  end.

(** ** What surrounds the manager

    The imports that are not part of the sources at hand are taken as they
    come: the function [_expected_plot_size], which gives an int or raises,
    and the float [UI_ACTUAL_SPACE_CONSTANT_FACTOR] of
    chia/consensus/pos_quality.py, the directory walk [get_plot_filenames]
    and the prover adapter [load_file] of
    chia/plotting/util.py.  [_refresh_callback] is the observer (it cannot be
    a field of the manager here, since it may act on the manager itself, so
    [set_refresh_callback] is not modelled).  [worker_pool] is what other
    threads do to the world while a batch is with the worker pool, [sleep]
    what happens during [time.sleep(1)], and [disk_writable] tells whether
    writing the cache file succeeds. *)
Record Env := {
  _expected_plot_size : Z → result Z;
  UI_ACTUAL_SPACE_CONSTANT_FACTOR : float;
  get_plot_filenames : string → result (list (string * list Path));
  load_file : Path → result (option (stat_result * DiskProver));
  _refresh_callback :
    PlotRefreshEvents → PlotRefreshResult.t → World → result unit * World;
  worker_pool : World → World;
  sleep : World → World;
  disk_writable : bool;
}.

(** Modelled from the spec: [Cache.save] and [Cache.load]
    (chia/plotting/cache.py): [save] persists the map and clears the dirty
    bit, a failed save keeps the dirty bit; [load] reads the file, starts
    empty when there is none, and sets the dirty bit false. *)
Definition cache_save (env : Env) (w : World) : World :=
  if disk_writable env then
    {| self := set_cache (Cache.mark_clean (cache (self w))) (self w);
       clock := clock w;
       cache_file := Some (Cache.data (cache (self w))) |}
  else w.

Definition cache_load (w : World) : World :=
  set_self (set_cache (Cache.mark_clean
              (Cache.with_data (default ∅ (cache_file w)) (cache (self w))))
              (self w)) w.

(** Modelled from the spec: [list_to_batches]
    (chia/util/generator_tools.py): the candidates are partitioned into
    batches of [batch_size], each with the number of candidates that remain
    after it.  No partition exists for a batch size of 0, which raises (as
    Python's [range] does for a step of 0). *)
Fixpoint batches_from {A} (fuel batch_size : nat) (l : list A) : list (Z * list A) :=
  match fuel with
  | O => []
  | S fuel' =>
      match l with
      | [] => []
      | _ => let rest := drop batch_size l in
             (Z.of_nat (length rest), take batch_size l)
               :: batches_from fuel' batch_size rest
      end
  end.

Definition list_to_batches {A} (l : list A) (batch_size : nat)
    : result (list (Z * list A)) :=
  match batch_size with
  | O => Raise "ValueError"
  | _ => Return (batches_from (length l) batch_size l)
  end.

(** ** The facade *)

(** [PlotManager.__init__]; [expiry] is the class constant of the cache. *)
Definition new (root : string) (match_s : option string) (open_no_key : bool)
    (param : PlotsRefreshParameter.t) (expiry : Z) : PlotManager :=
  {| root_path := root; plots := ∅; plot_filename_paths := ∅;
     failed_to_open_filenames := ∅; no_key_filenames := ∅;
     farmer_public_keys := []; pool_public_keys := [];
     cache := {| Cache.data := ∅; Cache.dirty := false;
                 Cache.expiry_seconds := expiry |};
     match_str := match_s; open_no_key_filenames := open_no_key;
     last_refresh_time := 0%Q; refresh_parameter := param;
     _refreshing_enabled := false; _initial := true |}.

Definition reset (w : World) : World :=
  set_self
    (set_initial true
       (set_no_key_filenames ∅
          (set_failed_to_open_filenames ∅
             (set_plot_filename_paths ∅
                (set_plots ∅
                   (set_last_refresh_time (clock w) (self w)))))))
    w.

Definition set_public_keys (farmer pool : list G1Element) (s : PlotManager)
    : PlotManager :=
  {| root_path := root_path s; plots := plots s;
     plot_filename_paths := plot_filename_paths s;
     failed_to_open_filenames := failed_to_open_filenames s;
     no_key_filenames := no_key_filenames s;
     farmer_public_keys := farmer;
     pool_public_keys := pool; cache := cache s;
     match_str := match_str s; open_no_key_filenames := open_no_key_filenames s;
     last_refresh_time := last_refresh_time s;
     refresh_parameter := refresh_parameter s;
     _refreshing_enabled := _refreshing_enabled s; _initial := _initial s |}.

Definition initial_refresh (s : PlotManager) : bool := _initial s.

Definition plot_count (s : PlotManager) : nat := size (plots s).

Definition get_duplicates (s : PlotManager) : list Path :=
  flat_map (λ kv, (λ path, mkPath path kv.1) <$> elements kv.2.2)
           (map_to_list (plot_filename_paths s)).

Definition needs_refresh (w : World) : bool :=
  Qltb (inject_Z (PlotsRefreshParameter.interval_seconds (refresh_parameter (self w))))
       (clock w - last_refresh_time (self w)).

(** [start_refreshing], seen from a caller while no refresh thread is alive:
    the flag is set and the cache is loaded; the thread it spawns is
    [_refresh_task] below. *)
Definition start_refreshing (w : World) : World :=
  cache_load (set_self (set_refreshing_enabled true (self w)) w).

(** [stop_refreshing], seen from the refresh thread: the flag is cleared. *)
Definition stop_refreshing (w : World) : World :=
  set_self (set_refreshing_enabled false (self w)) w.

Definition trigger_refresh (w : World) : World :=
  set_self (set_last_refresh_time 0%Q (self w)) w.

(** ** The admission pre-filter *)

Definition processing_required (s : PlotManager) (time_now : Q) (file_path : Path)
    : bool :=
  if negb (_refreshing_enabled s) then false
  else if match match_str s with
          | Some m => negb (str_contains m (path_str file_path))
          | None => false
          end then false
  else if match failed_to_open_filenames s !! file_path with
          | Some t =>
              Qltb (time_now - inject_Z t)
                   (inject_Z (PlotsRefreshParameter.retry_invalid_seconds
                                (refresh_parameter s)))
          | None => false
          end then false
  else if bool_decide (is_Some (plots s !! file_path)) then false
  else match plot_filename_paths s !! name file_path with
       | Some (loaded_parent, duplicates) =>
           if bool_decide (parent file_path ∈ duplicates) then false else true
       | None => true
       end.

(** ** The worker *)

(** line 266: [_expected_plot_size(prover.get_size()) *
    UI_ACTUAL_SPACE_CONSTANT_FACTOR], an int times a float *)
Definition expected_size (env : Env) (prover : DiskProver) : result float :=
  match _expected_plot_size env (get_size prover) with
  | Raise e => Raise e
  | Return n =>
      match float_of_int n with
      | Raise e => Raise e
      | Return x => Return (float_mul x (UI_ACTUAL_SPACE_CONSTANT_FACTOR env))
      end
  end.

(** lines 266-271: the expected size is computed first, whatever the size
    of the prover; the test is
    [prover.get_size() >= 30 and stat_info.st_size < 0.98 * expected_size] *)
Definition size_check_fails (env : Env) (stat_info : stat_result)
    (prover : DiskProver) : result bool :=
  match expected_size env prover with
  | Raise e => Raise e
  | Return x =>
      Return ((30 <=? get_size prover)
              && int_lt_float (st_size stat_info) (float_mul (float_lit 98 100) x))
  end.

Definition add_no_key (file_path : Path) (s : PlotManager) : PlotManager :=
  set_no_key_filenames ({[file_path]} ∪ no_key_filenames s) s.

(** lines 303-304 *)
Definition discard_no_key (file_path : Path) (s : PlotManager) : PlotManager :=
  if bool_decide (file_path ∈ no_key_filenames s)
  then set_no_key_filenames (no_key_filenames s ∖ {[file_path]}) s
  else s.

(** lines 327-328 *)
Definition discard_failed (file_path : Path) (s : PlotManager) : PlotManager :=
  if bool_decide (is_Some (failed_to_open_filenames s !! file_path))
  then set_failed_to_open_filenames (delete file_path (failed_to_open_filenames s)) s
  else s.

Definition process_file (env : Env) (file_path : Path) : M (option PlotInfo.t) :=
  let* load_result := lift (load_file env file_path) in
  match load_result with
  | None =>
      let* t := now in
      let* _ := modify (λ s, set_failed_to_open_filenames
                  (<[file_path := int_of t]> (failed_to_open_filenames s)) s) in
      ret None
  | Some (stat_info, prover) =>
      let* too_small := lift (size_check_fails env stat_info prover) in
      if too_small then
        (* the text of the warning holds [stat_info.st_size / (1024 ** 3)] *)
        let* _ := lift (int_div_GiB (st_size stat_info)) in
        ret None
      else
        let* cached := gets (λ s, Cache.get file_path (cache s)) in
        let cache_hit := bool_decide (is_Some cached) in
        let* cache_entry :=
          match cached with
          | Some e => ret e
          | None =>
              let* t := now in
              let e := CacheEntry.from_disk_prover t prover in
              let* _ := modify (λ s, set_cache (Cache.update file_path e (cache s)) s) in
              ret e
          end in
        (* Only use plots that correct keys associated with them *)
        let* farmer_missing := gets (λ s, negb (bool_decide
              (CacheEntry.farmer_public_key cache_entry ∈ farmer_public_keys s))) in
        let* rejected := (if farmer_missing then
              let* _ := modify (add_no_key file_path) in
              gets (λ s, negb (open_no_key_filenames s))
            else ret false) in
        if rejected then ret None
        else
          let* pool_missing := gets (λ s,
              match CacheEntry.pool_public_key cache_entry with
              | Some k => negb (bool_decide (k ∈ pool_public_keys s))
              | None => false
              end) in
          let* rejected := (if pool_missing then
                let* _ := modify (add_no_key file_path) in
                gets (λ s, negb (open_no_key_filenames s))
              else ret false) in
          if rejected then ret None
          else
            let* _ := modify (discard_no_key file_path) in
            let prover_parent := parent (get_filename (CacheEntry.prover cache_entry)) in
            let* paths := gets (λ s, plot_filename_paths s !! name file_path) in
            match paths with
            | None =>
                let* _ := modify (λ s, set_plot_filename_paths
                    (<[name file_path := (prover_parent, ∅)]> (plot_filename_paths s)) s) in
                let new_plot_info :=
                  {| PlotInfo.prover := CacheEntry.prover cache_entry;
                     PlotInfo.pool_public_key := CacheEntry.pool_public_key cache_entry;
                     PlotInfo.pool_contract_puzzle_hash :=
                       CacheEntry.pool_contract_puzzle_hash cache_entry;
                     PlotInfo.plot_public_key := CacheEntry.plot_public_key cache_entry;
                     PlotInfo.file_size := st_size stat_info;
                     PlotInfo.time_modified := st_mtime stat_info |} in
                let* t := now in
                let* _ := modify (λ s, set_cache (Cache.bump t file_path (cache s)) s) in
                let* _ := modify (discard_failed file_path) in
                ret (Some new_plot_info)
            | Some (primary, duplicates) =>
                let* _ := modify (λ s, set_plot_filename_paths
                    (<[name file_path := (primary, {[prover_parent]} ∪ duplicates)]>
                       (plot_filename_paths s)) s) in
                ret None
            end
  end.

(** ** The batch processor *)

(** [executor.map(self.process_file, paths_to_process)], one file after the
    other; the descriptors that are not [None] are collected in order. *)
Fixpoint run_workers (env : Env) (paths : list Path) : M (list PlotInfo.t) :=
  match paths with
  | [] => ret []
  | p :: ps =>
      let* r := process_file env p in
      let* rs := run_workers env ps in
      ret (match r with Some i => i :: rs | None => rs end)
  end.

(** the dictionary [plots_loaded]: a later descriptor replaces an earlier one
    with the same file name *)
Definition plots_loaded (l : list PlotInfo.t) : gmap Path PlotInfo.t :=
  foldl (λ m i, <[get_filename (PlotInfo.prover i) := i]> m) ∅ l.

Definition process_batch (env : Env) (plot_paths : list Path)
    : M PlotRefreshResult.t :=
  let* start_time := now in
  let* w := get_world in
  let paths_to_process :=
    List.filter (processing_required (self w) (clock w)) plot_paths in
  let* l := run_workers env paths_to_process in
  let* _ := extern (λ w, (Return tt, worker_pool env w)) in
  let* _ := modify (λ s, set_plots (plots_loaded l ∪ plots s) s) in
  let* t := now in
  ret {| PlotRefreshResult.loaded := l;
         PlotRefreshResult.removed := [];
         PlotRefreshResult.processed := Z.of_nat (length plot_paths);
         PlotRefreshResult.remaining := 0;
         PlotRefreshResult.duration := (t - start_time)%Q |}.

(** ** The refresh loop *)

(** [self._refresh_callback(ev, r)]: the call is recorded, then the observer
    runs. *)
Definition callback (env : Env) (ev : PlotRefreshEvents) (r : PlotRefreshResult.t)
    : M unit :=
  let* _ := emit (Observed ev r) in
  extern (_refresh_callback env ev r).

(** lines 154-156: failed files that are no longer candidates are forgotten *)
Definition prune_failed (plot_paths : list Path) (s : PlotManager) : PlotManager :=
  set_failed_to_open_filenames
    (foldr (λ path m, if bool_decide (path ∈ plot_paths) then m else delete path m)
           (failed_to_open_filenames s)
           (map_to_list (failed_to_open_filenames s)).*1) s.

(** lines 158-160 *)
Definition prune_no_key (plot_paths : list Path) (s : PlotManager) : PlotManager :=
  set_no_key_filenames
    (foldr (λ path ks, if bool_decide (path ∈ plot_paths) then ks else ks ∖ {[path]})
           (no_key_filenames s)
           (elements (no_key_filenames s))) s.

(** The state of the loop of lines 163-183. *)
Record Reconcile := {
  rc_plots : gmap Path PlotInfo.t;
  rc_paths : gmap string (string * gset string);
  filenames_to_remove : list string;
  rc_removed : list Path;
}.

(** one round of the loop over [self.plot_filename_paths.items()] *)
Definition reconcile_entry (plot_paths : list Path) (acc : Reconcile)
    (item : string * (string * gset string)) : Reconcile :=
  let plot_filename := item.1 in
  let loaded_path := item.2.1 in
  let duplicated_paths := item.2.2 in
  let loaded_plot := mkPath loaded_path plot_filename in
  if negb (bool_decide (loaded_plot ∈ plot_paths)) then
    {| rc_plots := if bool_decide (is_Some (rc_plots acc !! loaded_plot))
                   then delete loaded_plot (rc_plots acc) else rc_plots acc;
       rc_paths := rc_paths acc;
       filenames_to_remove := filenames_to_remove acc ++ [plot_filename];
       rc_removed := rc_removed acc ++ [loaded_plot] |}
  else
    let paths_to_remove :=
      List.filter (λ path, negb (bool_decide (mkPath path plot_filename ∈ plot_paths)))
                  (elements duplicated_paths) in
    {| rc_plots := rc_plots acc;
       rc_paths := <[plot_filename :=
                      (loaded_path,
                       foldl (λ d path, d ∖ {[path]}) duplicated_paths paths_to_remove)]>
                   (rc_paths acc);
       filenames_to_remove := filenames_to_remove acc;
       rc_removed := rc_removed acc
                     ++ ((λ path, mkPath path plot_filename) <$> paths_to_remove) |}.

(** lines 162-185; the paths that were dropped are returned *)
Definition reconcile (plot_paths : list Path) : M (list Path) :=
  let* s := gets id in
  let r := foldl (reconcile_entry plot_paths)
             {| rc_plots := plots s; rc_paths := plot_filename_paths s;
                filenames_to_remove := []; rc_removed := [] |}
             (map_to_list (plot_filename_paths s)) in
  let* _ := modify (λ s, set_plot_filename_paths
                (foldl (λ m filename, delete filename m) (rc_paths r)
                       (filenames_to_remove r))
                (set_plots (rc_plots r) s)) in
  ret (rc_removed r).

(** lines 187-200: the loop over the batches, [total_result] being threaded
    through *)
Fixpoint batch_loop (env : Env) (batches : list (Z * list Path))
    (total_result : PlotRefreshResult.t) : M PlotRefreshResult.t :=
  match batches with
  | [] => ret total_result
  | (remaining, batch) :: rest =>
      let* batch_result := process_batch env batch in
      let* enabled := gets _refreshing_enabled in
      if negb enabled then
        let* _ := emit LogAborted in
        ret total_result
      else
        let batch_result :=
          {| PlotRefreshResult.loaded := PlotRefreshResult.loaded batch_result;
             PlotRefreshResult.removed := PlotRefreshResult.removed batch_result;
             PlotRefreshResult.processed := PlotRefreshResult.processed batch_result;
             PlotRefreshResult.remaining := remaining;
             PlotRefreshResult.duration := PlotRefreshResult.duration batch_result |} in
        let total_result :=
          {| PlotRefreshResult.loaded :=
               PlotRefreshResult.loaded total_result
               ++ PlotRefreshResult.loaded batch_result;
             PlotRefreshResult.removed := PlotRefreshResult.removed total_result;
             PlotRefreshResult.processed :=
               PlotRefreshResult.processed total_result
               + PlotRefreshResult.processed batch_result;
             PlotRefreshResult.remaining := PlotRefreshResult.remaining total_result;
             PlotRefreshResult.duration :=
               (PlotRefreshResult.duration total_result
                + PlotRefreshResult.duration batch_result)%Q |} in
        let* _ := callback env batch_processed batch_result in
        if remaining =? 0 then ret total_result
        else batch_loop env rest total_result
  end.

(** the test of line 212:
    [cache_entry.expired(Cache.expiry_seconds) and path not in self.plots] *)
Definition expired_and_unused (time_now : Q) (live : gmap Path PlotInfo.t)
    (expiry : Z) (item : Path * CacheEntry.t) : bool :=
  CacheEntry.expired time_now expiry item.2
  && negb (bool_decide (is_Some (live !! item.1))).

(** one round of the loop over [self.cache.items()], lines 211-215 *)
Definition sweep_entry (time_now : Q) (live : gmap Path PlotInfo.t)
    (acc : list Path * Cache.t) (item : Path * CacheEntry.t) : list Path * Cache.t :=
  if expired_and_unused time_now live (Cache.expiry_seconds acc.2) item
  then (acc.1 ++ [item.1], acc.2)
  else if bool_decide (is_Some (live !! item.1))
  then (acc.1, Cache.bump time_now item.1 acc.2)
  else acc.

(** lines 210-216 on the cache: the paths to remove and the cache left *)
Definition cache_cleanup (time_now : Q) (live : gmap Path PlotInfo.t) (c : Cache.t)
    : list Path * Cache.t :=
  let r := foldl (sweep_entry time_now live) ([], c) (Cache.items c) in
  (r.1, Cache.remove r.1 r.2).

(** lines 205-228: what follows the batches and the report *)
Definition finish_cycle (env : Env) (total_result : PlotRefreshResult.t) : M unit :=
  (* Reset the initial refresh indication *)
  let* _ := modify (set_initial false) in
  (* Cleanup unused cache *)
  let* n := gets (λ s, Cache.len (cache s)) in
  let* _ := emit (LogCachedBefore n) in
  let* t := now in
  let* s := gets id in
  let swept := cache_cleanup t (plots s) (cache s) in
  let* _ := modify (set_cache swept.2) in
  let* _ := emit (LogCachedRemoved (length swept.1)) in
  let* is_changed := gets (λ s, Cache.changed (cache s)) in
  let* _ := when is_changed (extern (λ w, (Return tt, cache_save env w))) in
  let* t := now in
  let* _ := modify (set_last_refresh_time t) in
  emit (LogTotals (length (PlotRefreshResult.loaded total_result))
                  (length (PlotRefreshResult.removed total_result))
                  (PlotRefreshResult.duration total_result)).

(** lines 143-228: one refresh cycle *)
Definition refresh_cycle (env : Env) : M unit :=
  let* root := gets root_path in
  let* plot_filenames := lift (get_plot_filenames env root) in
  let plot_paths := concat (plot_filenames.*2) in
  let total_size := Z.of_nat (length plot_paths) in
  let* _ := callback env started
      {| PlotRefreshResult.loaded := []; PlotRefreshResult.removed := [];
         PlotRefreshResult.processed := 0;
         PlotRefreshResult.remaining := total_size;
         PlotRefreshResult.duration := 0%Q |} in
  (* First drop all plots we have in plot_filename_paths but not longer in
     the filesystem or set in config *)
  let* _ := modify (prune_failed plot_paths) in
  let* _ := modify (prune_no_key plot_paths) in
  let* removed := reconcile plot_paths in
  let total_result :=
    {| PlotRefreshResult.loaded := []; PlotRefreshResult.removed := removed;
       PlotRefreshResult.processed := 0; PlotRefreshResult.remaining := 0;
       PlotRefreshResult.duration := 0%Q |} in
  let* size := gets (λ s, PlotsRefreshParameter.batch_size (refresh_parameter s)) in
  let* batches := lift (list_to_batches plot_paths size) in
  let* total_result := batch_loop env batches total_result in
  let* enabled := gets _refreshing_enabled in
  let* _ := when enabled (callback env done total_result) in
  finish_cycle env total_result.

(** lines 143-203: the cycle up to and with the report [done]; what it
    returns is [total_result].  [refresh_cycle] is this followed by
    [finish_cycle]. *)
Definition cycle_reports (env : Env) : M PlotRefreshResult.t :=
  let* root := gets root_path in
  let* plot_filenames := lift (get_plot_filenames env root) in
  let plot_paths := concat (plot_filenames.*2) in
  let total_size := Z.of_nat (length plot_paths) in
  let* _ := callback env started
      {| PlotRefreshResult.loaded := []; PlotRefreshResult.removed := [];
         PlotRefreshResult.processed := 0;
         PlotRefreshResult.remaining := total_size;
         PlotRefreshResult.duration := 0%Q |} in
  let* _ := modify (prune_failed plot_paths) in
  let* _ := modify (prune_no_key plot_paths) in
  let* removed := reconcile plot_paths in
  let total_result :=
    {| PlotRefreshResult.loaded := []; PlotRefreshResult.removed := removed;
       PlotRefreshResult.processed := 0; PlotRefreshResult.remaining := 0;
       PlotRefreshResult.duration := 0%Q |} in
  let* size := gets (λ s, PlotsRefreshParameter.batch_size (refresh_parameter s)) in
  let* batches := lift (list_to_batches plot_paths size) in
  let* total_result := batch_loop env batches total_result in
  let* enabled := gets _refreshing_enabled in
  let* _ := when enabled (callback env done total_result) in
  ret total_result.

(** How the body of the outer loop ends. *)
Inductive Ending :=
| Continue      (* the end of the body is reached: back to the loop test *)
| Exit          (* [return] *)
| Starved.      (* the fuel given to the polling loop is used up *)

(** line 137: [while not self.needs_refresh() and self._refreshing_enabled:
    time.sleep(1)]; the result tells whether the loop was left *)
Fixpoint wait_for_refresh (env : Env) (fuel : nat) : M bool :=
  let* w := get_world in
  if negb (needs_refresh w) && _refreshing_enabled (self w) then
    match fuel with
    | O => ret false
    | S fuel' =>
        let* _ := extern (λ w, (Return tt, sleep env w)) in
        wait_for_refresh env fuel'
    end
  else ret true.

(** lines 137-228: the body of [try] *)
Definition try_body (env : Env) (fuel : nat) : M Ending :=
  let* left := wait_for_refresh env fuel in
  if negb left then ret Starved
  else
    let* enabled := gets _refreshing_enabled in
    if negb enabled then ret Exit
    else
      let* _ := refresh_cycle env in
      ret Continue.

(** lines 136-231: one round of the outer loop *)
Definition iteration (env : Env) (fuel : nat) : M Ending :=
  try_except (try_body env fuel)
    (λ e,
       let* _ := emit (LogError e) in
       let* _ := extern (λ w, (Return tt, reset w)) in
       ret Continue).

(** [_refresh_task]: the round [i] of the outer loop runs in the
    surroundings [envs !! i]; the result is [true] when the thread function
    returns and [false] when the surroundings or the fuel are used up. *)
Fixpoint _refresh_task (envs : list Env) (fuel : nat) : M bool :=
  let* enabled := gets _refreshing_enabled in
  if negb enabled then ret true
  else
    match envs with
    | [] => ret false
    | env :: envs' =>
        let* e := iteration env fuel in
        match e with
        | Continue => _refresh_task envs' fuel
        | Exit => ret true
        | Starved => ret false
        end
    end.

(** ** A small installation, used to run the definitions

    One plot [/d1/a.plot] of size 108 GiB with k = 32, farmer key F1 and pool
    key P1, a second copy of it in [/d2], an observer that does nothing and
    no other thread. *)

Definition a_plot : Path := mkPath "/d1" "a.plot".
Definition a_copy : Path := mkPath "/d2" "a.plot".

Definition prover_of (p : Path) : DiskProver :=
  {| get_filename := p; get_size := 32;
     memo_farmer_public_key := "F1"; memo_pool_public_key := Some "P1";
     memo_pool_contract_puzzle_hash := None; memo_plot_public_key := "PK" |}.

Definition stat_a : stat_result := {| st_size := 115964116992; st_mtime := 5%Q |}.

Definition tick (w : World) : World :=
  {| self := self w; clock := (clock w + 1)%Q; cache_file := cache_file w |}.

Definition quiet_env (candidates : list Path) : Env :=
  {| _expected_plot_size := λ k, Return ((2 * k + 1) * 2 ^ (k - 1));
     UI_ACTUAL_SPACE_CONSTANT_FACTOR := float_lit 762 1000;
     get_plot_filenames := λ _, Return [("/plots", candidates)];
     load_file := λ p, Return (Some (stat_a, prover_of p));
     _refresh_callback := λ _ _ w, (Return tt, w);
     worker_pool := λ w, w;
     sleep := tick;
     disk_writable := true |}.

Definition param : PlotsRefreshParameter.t :=
  {| PlotsRefreshParameter.interval_seconds := 2;
     PlotsRefreshParameter.retry_invalid_seconds := 1200;
     PlotsRefreshParameter.batch_size := 300 |}.

Definition world_of (s : PlotManager) (t : Q) : World :=
  {| self := s; clock := t; cache_file := None |}.

(** a manager with keys F1 and P1 that has been started *)
Definition manager0 (open_no_key : bool) : PlotManager :=
  set_refreshing_enabled true
    (set_public_keys ["F1"] ["P1"] (new "/root" None open_no_key param 604800)).

(** the same with [a.plot] already registered under [/d1] *)
Definition manager_d1 (open_no_key : bool) : PlotManager :=
  set_plot_filename_paths {[ "a.plot" := ("/d1", ∅) ]} (manager0 open_no_key).

(** a manager that failed to open [a.plot] at time 100 *)
Definition manager_failed : PlotManager :=
  set_failed_to_open_filenames {[ a_plot := 100 ]} (manager0 false).

(** the expected size of a plot with k = 32, as line 266 computes it *)
Definition expected_k32 : float :=
  float_mul (binary_normalize 53 1024 (65 * 2 ^ 31) 0 false) (float_lit 762 1000).

(** the plot while it is being copied: half of its bytes are there *)
Definition half_copied : stat_result := {| st_size := 53000000000; st_mtime := 5%Q |}.

(** its size in GiB, as the warning of line 273 shows it *)
Definition half_copied_GiB : float := binary_normalize 53 1024 53000000000 (-30) false.

(** a plot with k = 43 and a size just below 0.98 times 0.762 times the
    size that [_expected_plot_size] gives, the three taken as numbers *)
Definition prover_k43 : DiskProver :=
  {| get_filename := a_plot; get_size := 43;
     memo_farmer_public_key := "F1"; memo_pool_public_key := Some "P1";
     memo_pool_contract_puzzle_hash := None; memo_plot_public_key := "PK" |}.

Definition stat_k43 : stat_result :=
  {| st_size := 285732813498986; st_mtime := 5%Q |}.

Definition copying_env : Env :=
  {| _expected_plot_size := _expected_plot_size (quiet_env []);
     UI_ACTUAL_SPACE_CONSTANT_FACTOR := UI_ACTUAL_SPACE_CONSTANT_FACTOR (quiet_env []);
     get_plot_filenames := λ _, Return [("/plots", [a_plot])];
     load_file := λ p, Return (Some (half_copied, prover_of p));
     _refresh_callback := λ _ _ w, (Return tt, w);
     worker_pool := λ w, w;
     sleep := tick;
     disk_writable := true |}.

(** [a.plot] is registered under [/d1], the farmer key has been replaced by
    F2, and plots without keys are opened or not *)
Definition manager_rotated (open_no_key : bool) : PlotManager :=
  set_public_keys ["F2"] ["P1"] (manager_d1 open_no_key).

(** the keys have been replaced before anything was registered *)
Definition manager_no_key (open_no_key : bool) : PlotManager :=
  set_public_keys ["F2"] ["P1"] (manager0 open_no_key).

(** an observer that raises when it is told that the cycle is done *)
Definition raising_env : Env :=
  {| _expected_plot_size := _expected_plot_size (quiet_env []);
     UI_ACTUAL_SPACE_CONSTANT_FACTOR := UI_ACTUAL_SPACE_CONSTANT_FACTOR (quiet_env []);
     get_plot_filenames := λ _, Return [("/plots", [a_plot])];
     load_file := λ p, Return (Some (stat_a, prover_of p));
     _refresh_callback := λ ev _ w,
       match ev with
       | done => (Raise "observer failed", w)
       | _ => (Return tt, w)
       end;
     worker_pool := λ w, w;
     sleep := tick;
     disk_writable := true |}.

(** ** Names for what [process_file] works with *)

(** the entry that [process_file] works with: the cached one, or on a miss
    the one built from the prover *)
Definition entry_used (file_path : Path) (w : World) (prover : DiskProver)
    : CacheEntry.t :=
  default (CacheEntry.from_disk_prover (clock w) prover)
          (Cache.get file_path (cache (self w))).

(** the descriptor that [process_file] builds *)
Definition plot_info_of (e : CacheEntry.t) (stat_info : stat_result) : PlotInfo.t :=
  {| PlotInfo.prover := CacheEntry.prover e;
     PlotInfo.pool_public_key := CacheEntry.pool_public_key e;
     PlotInfo.pool_contract_puzzle_hash := CacheEntry.pool_contract_puzzle_hash e;
     PlotInfo.plot_public_key := CacheEntry.plot_public_key e;
     PlotInfo.file_size := st_size stat_info;
     PlotInfo.time_modified := st_mtime stat_info |}.

(** ** What an observer sees of a journal *)

(** the observer calls of a journal, in order *)
Definition events (j : list Entry) : list PlotRefreshEvents :=
  omap (λ e, match e with Observed ev _ => Some ev | _ => None end) j.

(** any number of [batch_processed], then at most one [done] *)
Fixpoint batches_then_done (l : list PlotRefreshEvents) : bool :=
  match l with
  | [] => true
  | batch_processed :: l' => batches_then_done l'
  | [done] => true
  | _ => false
  end.

(** nothing, or [started] followed by the above *)
Definition cycle_order (l : list PlotRefreshEvents) : bool :=
  match l with
  | [] => true
  | started :: l' => batches_then_done l'
  | _ => false
  end.

(** The journal of the loop over the batches: one observer call per batch
    that was reported and, if the loop was left because refreshing was
    disabled, the line that says so at the very end. *)
Definition batch_journal (r : result PlotRefreshResult.t) (w' : World)
    (j : list Entry) : Prop :=
  ∃ rs, j = Observed batch_processed <$> rs
        ∨ (j = (Observed batch_processed <$> rs) ++ [LogAborted]
           ∧ (∃ total, r = Return total)
           ∧ _refreshing_enabled (self w') = false).

(** ** What the cleanup of lines 208-216 leaves of a cache

    [swept time_now live c c']: an entry of a live path has its last use set
    to [time_now]; an entry of a path that is not live is dropped when it
    is expired and kept as it is otherwise; nothing is added. *)
Definition swept (time_now : Q) (live : gmap Path PlotInfo.t) (c c' : Cache.t)
    : Prop :=
  Cache.expiry_seconds c' = Cache.expiry_seconds c
  ∧ ∀ path,
      Cache.data c' !! path =
      match Cache.data c !! path with
      | None => None
      | Some e =>
          if bool_decide (is_Some (live !! path))
          then Some (CacheEntry.bump_last_use time_now e)
          else if CacheEntry.expired time_now (Cache.expiry_seconds c) e then None
          else Some e
      end.

(** the sweep drops something: the cache holds an entry that is expired
    and whose path is not live *)
Definition sweep_drops (time_now : Q) (live : gmap Path PlotInfo.t) (c : Cache.t)
    : Prop :=
  ∃ path e, Cache.data c !! path = Some e
            ∧ live !! path = None
            ∧ CacheEntry.expired time_now (Cache.expiry_seconds c) e = true.

(** ** What the end of a cycle (lines 205-222) leaves

    [finished env wa w']: starting from the world [wa], the flag [_initial]
    is cleared, the cache is swept and, if it is dirty then, saved, and
    [last_refresh_time] is the current time; nothing else changes.  The
    cache is dirty after the sweep exactly when it was dirty before or the
    sweep dropped an entry. *)
Definition finished (env : Env) (wa w' : World) : Prop :=
  let c := (cache_cleanup (clock wa) (plots (self wa)) (cache (self wa))).2 in
  _initial (self w') = false
  ∧ last_refresh_time (self w') = clock w'
  ∧ clock w' = clock wa
  ∧ swept (clock wa) (plots (self wa)) (cache (self wa)) (cache (self w'))
  ∧ (if Cache.changed c
     then if disk_writable env
          then Cache.changed (cache (self w')) = false
               ∧ cache_file w' = Some (Cache.data (cache (self w')))
          else Cache.changed (cache (self w')) = true
               ∧ cache_file w' = cache_file wa
     else Cache.changed (cache (self w')) = false
          ∧ cache_file w' = cache_file wa)
  ∧ plots (self w') = plots (self wa)
  ∧ plot_filename_paths (self w') = plot_filename_paths (self wa)
  ∧ failed_to_open_filenames (self w') = failed_to_open_filenames (self wa)
  ∧ no_key_filenames (self w') = no_key_filenames (self wa)
  ∧ farmer_public_keys (self w') = farmer_public_keys (self wa)
  ∧ pool_public_keys (self w') = pool_public_keys (self wa)
  ∧ _refreshing_enabled (self w') = _refreshing_enabled (self wa)
  ∧ (Cache.changed c = true
     ↔ Cache.changed (cache (self wa)) = true
       ∨ sweep_drops (clock wa) (plots (self wa)) (cache (self wa)))
  ∧ root_path (self w') = root_path (self wa)
  ∧ match_str (self w') = match_str (self wa)
  ∧ open_no_key_filenames (self w') = open_no_key_filenames (self wa)
  ∧ refresh_parameter (self w') = refresh_parameter (self wa).

(** another thread calls [stop_refreshing] while the first batch is with the
    worker pool *)
Definition stopping_env : Env :=
  {| _expected_plot_size := _expected_plot_size (quiet_env []);
     UI_ACTUAL_SPACE_CONSTANT_FACTOR := UI_ACTUAL_SPACE_CONSTANT_FACTOR (quiet_env []);
     get_plot_filenames := λ _, Return [("/plots", [a_plot; a_copy])];
     load_file := λ p, Return (Some (stat_a, prover_of p));
     _refresh_callback := λ _ _ w, (Return tt, w);
     worker_pool := stop_refreshing;
     sleep := tick;
     disk_writable := true |}.

(** the first scenario: [/d1/a.plot] is found and admitted in one round *)
Definition world_s1 : World :=
  final (iteration (quiet_env [a_plot]) 5) (world_of (manager0 false) 1000).

(** then the farmer key is rotated away with [set_public_keys] *)
Definition world_rotated : World :=
  set_self (set_public_keys ["F2"] ["P1"] (self world_s1)) world_s1.

(** and the next round runs *)
Definition world_s4 : World :=
  final (iteration (quiet_env [a_plot]) 5) world_rotated.

(** the second scenario: a copy of the plot lies in [/d2] as well *)
Definition world_s2 : World :=
  final (iteration (quiet_env [a_plot; a_copy]) 5) (world_of (manager0 false) 1000).

(** [path] is a live plot and is not held back for want of a key *)
Definition admitted (path : Path) (w : World) : Prop :=
  is_Some (plots (self w) !! path) ∧ path ∉ no_key_filenames (self w).

(** ** Further names for the facade, the reconciliation and the reports *)

(** [public_keys_available]: [len(a) and len(b)] is [len(a)] when that is 0
    and [len(b)] otherwise *)
Definition public_keys_available (s : PlotManager) : nat :=
  match length (farmer_public_keys s) with
  | O => O
  | _ => length (pool_public_keys s)
  end.

(** surroundings in which no file parses *)
Definition failing_env : Env :=
  {| _expected_plot_size := _expected_plot_size (quiet_env []);
     UI_ACTUAL_SPACE_CONSTANT_FACTOR := UI_ACTUAL_SPACE_CONSTANT_FACTOR (quiet_env []);
     get_plot_filenames := λ _, Return [("/plots", [a_plot])];
     load_file := λ _, Return None;
     _refresh_callback := λ _ _ w, (Return tt, w);
     worker_pool := λ w, w;
     sleep := tick;
     disk_writable := true |}.

(** a started manager that only takes plots with "d1" in their path *)
Definition manager_matching : PlotManager :=
  set_refreshing_enabled true (new "/root" (Some "d1") false param 604800).

(** lines 175-180: the duplicate parents of [n] whose file is no longer a
    candidate, as the loop collects them in [paths_to_remove] *)
Definition gone_duplicates (plot_paths : list Path) (n : string) (d : gset string)
    : list string :=
  List.filter (λ path, negb (bool_decide (mkPath path n ∈ plot_paths))) (elements d).

(** the state in which the reconciliation of a cycle starts: the one that
    the report [started] and the two loops of lines 154-160 leave *)
Definition before_reconcile (env : Env) (w : World) (plot_paths : list Path)
    : World :=
  let w1 := (_refresh_callback env started
               {| PlotRefreshResult.loaded := []; PlotRefreshResult.removed := [];
                  PlotRefreshResult.processed := 0;
                  PlotRefreshResult.remaining := Z.of_nat (length plot_paths);
                  PlotRefreshResult.duration := 0%Q |} w).2 in
  set_self (prune_no_key plot_paths (prune_failed plot_paths (self w1))) w1.

(** a started manager that only takes plots with a slash in their path *)
Definition manager_matching_slash : PlotManager :=
  set_refreshing_enabled true (new "/root" (Some "/") false param 604800).

(** the results handed to the observer with [batch_processed], in order *)
Definition batch_results (j : list Entry) : list PlotRefreshResult.t :=
  omap (λ e, match e with Observed batch_processed r => Some r | _ => None end) j.

(** lines 194-196: [total_result] after the results [rs] have been added *)
Definition accumulate (total : PlotRefreshResult.t) (rs : list PlotRefreshResult.t)
    : PlotRefreshResult.t :=
  foldl (λ t r,
    {| PlotRefreshResult.loaded :=
         PlotRefreshResult.loaded t ++ PlotRefreshResult.loaded r;
       PlotRefreshResult.removed := PlotRefreshResult.removed t;
       PlotRefreshResult.processed :=
         PlotRefreshResult.processed t + PlotRefreshResult.processed r;
       PlotRefreshResult.remaining := PlotRefreshResult.remaining t;
       PlotRefreshResult.duration :=
         (PlotRefreshResult.duration t + PlotRefreshResult.duration r)%Q |})
    total rs.

(** the report [r] is the one of the batch [b]: lines 193 and 336 *)
Definition reported (r : PlotRefreshResult.t) (b : Z * list Path) : Prop :=
  PlotRefreshResult.remaining r = b.1
  ∧ PlotRefreshResult.processed r = Z.of_nat (length b.2)
  ∧ PlotRefreshResult.removed r = [].

(** what the first scenario reports with [done] *)
Definition total_s1 : PlotRefreshResult.t :=
  {| PlotRefreshResult.loaded :=
       [plot_info_of (CacheEntry.from_disk_prover 1000 (prover_of a_plot)) stat_a];
     PlotRefreshResult.removed := [];
     PlotRefreshResult.processed := 1;
     PlotRefreshResult.remaining := 0;
     PlotRefreshResult.duration := 0%Q |}.

(** surroundings in which the copy in [/d2] cannot be read at all *)
Definition unreadable_env : Env :=
  {| _expected_plot_size := _expected_plot_size (quiet_env []);
     UI_ACTUAL_SPACE_CONSTANT_FACTOR := UI_ACTUAL_SPACE_CONSTANT_FACTOR (quiet_env []);
     get_plot_filenames := λ _, Return [("/plots", [a_plot; a_copy])];
     load_file := λ p, if bool_decide (p = a_copy) then Raise "PermissionError"
                       else Return (Some (stat_a, prover_of p));
     _refresh_callback := λ _ _ w, (Return tt, w);
     worker_pool := λ w, w;
     sleep := tick;
     disk_writable := true |}.

(** [loadable p prover e w]: in the world [w] the worker would take the file
    [p] with the entry [e]: that is the entry it works with, its keys are
    allowed, and the basename of [p] is not registered *)
Definition loadable (p : Path) (prover : DiskProver) (e : CacheEntry.t) (w : World)
    : Prop :=
  entry_used p w prover = e
  ∧ CacheEntry.farmer_public_key e ∈ farmer_public_keys (self w)
  ∧ (∀ k, CacheEntry.pool_public_key e = Some k → k ∈ pool_public_keys (self w))
  ∧ plot_filename_paths (self w) !! name p = None.

(** * Properties *)

(** ** The scenarios of the specification, run on the embedding *)

(** S1: one plot, one round: the three events, one live plot. *)
Example scenario_single_admission :
  events (journal (iteration (quiet_env [a_plot]) 5) (world_of (manager0 false) 1000))
  = [started; batch_processed; done]
  ∧ plot_count (self world_s1) = 1%nat.
Proof. split; vm_compute; reflexivity. Qed.

(** S2: a second copy in [/d2] is not admitted and is listed as a duplicate. *)
Example scenario_duplicate :
  plot_count (self (final (iteration (quiet_env [a_plot; a_copy]) 5)
                          (world_of (manager0 false) 1000))) = 1%nat
  ∧ get_duplicates (self (final (iteration (quiet_env [a_plot; a_copy]) 5)
                                (world_of (manager0 false) 1000))) = [a_copy].
Proof. split; vm_compute; reflexivity. Qed.

(** S3: the file is deleted; after [trigger_refresh] the next round drops it. *)
Example scenario_file_removed :
  plot_count (self (final (iteration (quiet_env []) 5) (trigger_refresh world_s1)))
  = 0%nat.
Proof. vm_compute. reflexivity. Qed.

(** S5: a plot that is still being copied is neither admitted nor recorded as
    failed; once it is complete, the next round admits it. *)
Example scenario_copy_in_progress :
  plot_count (self (final (iteration copying_env 5) (world_of (manager0 false) 1000)))
  = 0%nat
  ∧ failed_to_open_filenames
      (self (final (iteration copying_env 5) (world_of (manager0 false) 1000))) = ∅
  ∧ plot_count
      (self (final (iteration (quiet_env [a_plot]) 5)
                   (final (iteration copying_env 5) (world_of (manager0 false) 1000))))
    = 1%nat.
Proof. repeat split; vm_compute; reflexivity. Qed.

(** Refreshing is stopped while the first batch is with the workers: the
    round ends without any event after [started]. *)
Example scenario_stopped_while_batching :
  events (journal (iteration stopping_env 5) (world_of (manager0 false) 1000))
  = [started]
  ∧ In LogAborted (journal (iteration stopping_env 5) (world_of (manager0 false) 1000)).
Proof. split; [vm_compute; reflexivity|]. vm_compute. right. left. reflexivity. Qed.

(** ** Rationals *)

Lemma Qltb_lt (x y : Q) : Qltb x y = true ↔ (x < y)%Q.
Proof.
  unfold Qltb. rewrite negb_true_iff. split.
  - intros H. apply Qnot_le_lt. intros Hle.
    apply Qle_bool_iff in Hle. congruence.
  - intros H. destruct (Qle_bool y x) eqn:E; [|reflexivity].
    apply Qle_bool_iff in E. exfalso. exact (Qlt_not_le _ _ H E).
Qed.

(** ** Rules for runs *)

Section Rules.
Context {A B : Type}.
Implicit Types (w : World) (Q : result A → World → list Entry → Prop).

Lemma wp_bind (m : M A) (f : A → M B) w (Q : result B → World → list Entry → Prop) :
  wp m w (λ r w1 j1,
    match r with
    | Return a => wp (f a) w1 (λ r2 w2 j2, Q r2 w2 (j1 ++ j2))
    | Raise e => Q (Raise e) w1 j1
    end) ↔
  wp (bind m f) w Q.
Proof.
  unfold wp, outcome, final, journal, bind.
  destruct (m w) as [[[a|e] w1] j1]; simpl; [|done].
  by destruct (f a w1) as [[r2 w2] j2].
Qed.

Lemma wp_ret (a : A) w Q : Q (Return a) w [] ↔ wp (ret a) w Q.
Proof. done. Qed.

Lemma wp_gets (f : PlotManager → A) w Q : Q (Return (f (self w))) w [] ↔ wp (gets f) w Q.
Proof. done. Qed.

Lemma wp_lift (r : result A) w Q : Q r w [] ↔ wp (lift r) w Q.
Proof. done. Qed.

Lemma wp_raise (e : string) w Q : Q (Raise e) w [] ↔ wp (raise e) w Q.
Proof. done. Qed.

Lemma wp_extern (f : World → result A * World) w Q :
  Q (f w).1 (f w).2 [] ↔ wp (extern f) w Q.
Proof. unfold wp, outcome, final, journal, extern. by destruct (f w). Qed.

Lemma wp_try_except (m : M A) (h : string → M A) w Q :
  wp m w (λ r w1 j1,
    match r with
    | Return a => Q (Return a) w1 j1
    | Raise e => wp (h e) w1 (λ r2 w2 j2, Q r2 w2 (j1 ++ j2))
    end) ↔
  wp (try_except m h) w Q.
Proof.
  unfold wp, outcome, final, journal, try_except.
  destruct (m w) as [[[a|e] w1] j1]; simpl; [done|].
  by destruct (h e w1) as [[r2 w2] j2].
Qed.

Lemma wp_mono (m : M A) w Q Q' :
  (∀ r w' j, Q r w' j → Q' r w' j) → wp m w Q → wp m w Q'.
Proof. unfold wp. auto. Qed.

Lemma wp_run (m : M A) w Q :
  wp m w Q ↔ ∀ r w' j, m w = (r, w', j) → Q r w' j.
Proof.
  unfold wp, outcome, final, journal. split.
  - intros H r w' j E. by rewrite E in H.
  - intros H. destruct (m w) as [[r w'] j]. by apply H.
Qed.
End Rules.

Lemma wp_now w (Q : result Q → World → list Entry → Prop) :
  Q (Return (clock w)) w [] ↔ wp now w Q.
Proof. done. Qed.

Lemma wp_get_world w (Q : result World → World → list Entry → Prop) :
  Q (Return w) w [] ↔ wp get_world w Q.
Proof. done. Qed.

Lemma wp_modify (f : PlotManager → PlotManager) w
    (Q : result unit → World → list Entry → Prop) :
  Q (Return tt) (set_self (f (self w)) w) [] ↔ wp (modify f) w Q.
Proof. done. Qed.

Lemma wp_emit (e : Entry) w (Q : result unit → World → list Entry → Prop) :
  Q (Return tt) w [e] ↔ wp (emit e) w Q.
Proof. done. Qed.

(** one step of a run *)
(** projections of updated records, and [[] ++ _] *)
Ltac norm :=
  cbn [app id fst snd self clock cache_file set_self
       root_path plots plot_filename_paths failed_to_open_filenames
       no_key_filenames farmer_public_keys pool_public_keys cache match_str
       open_no_key_filenames last_refresh_time refresh_parameter
       _refreshing_enabled _initial
       set_plots set_plot_filename_paths set_failed_to_open_filenames
       set_no_key_filenames set_cache set_last_refresh_time
       set_refreshing_enabled set_initial set_public_keys add_no_key].

Tactic Notation "norm" "in" "*" :=
  cbn [app id fst snd self clock cache_file set_self
       root_path plots plot_filename_paths failed_to_open_filenames
       no_key_filenames farmer_public_keys pool_public_keys cache match_str
       open_no_key_filenames last_refresh_time refresh_parameter
       _refreshing_enabled _initial
       set_plots set_plot_filename_paths set_failed_to_open_filenames
       set_no_key_filenames set_cache set_last_refresh_time
       set_refreshing_enabled set_initial set_public_keys add_no_key] in *.

Ltac wp_step :=
  lazymatch goal with
  | |- wp (bind ?m ?f) ?w ?Q => refine (proj1 (wp_bind m f w Q) _)
  | |- wp (ret ?a) ?w ?Q => refine (proj1 (wp_ret a w Q) _)
  | |- wp (gets ?f) ?w ?Q => refine (proj1 (wp_gets f w Q) _)
  | |- wp (lift ?r) ?w ?Q => refine (proj1 (wp_lift r w Q) _)
  | |- wp (raise ?e) ?w ?Q => refine (proj1 (wp_raise e w Q) _)
  | |- wp (extern ?f) ?w ?Q => refine (proj1 (wp_extern f w Q) _)
  | |- wp now ?w ?Q => refine (proj1 (wp_now w Q) _)
  | |- wp get_world ?w ?Q => refine (proj1 (wp_get_world w Q) _)
  | |- wp (modify ?f) ?w ?Q => refine (proj1 (wp_modify f w Q) _)
  | |- wp (emit ?e) ?w ?Q => refine (proj1 (wp_emit e w Q) _)
  | |- wp (try_except ?m ?h) ?w ?Q => refine (proj1 (wp_try_except m h w Q) _)
  | |- wp (when _ _) _ _ => unfold when
  end; cbn beta iota; norm.

Ltac wp_steps := repeat wp_step.

Ltac wp_case :=
  lazymatch goal with
  | |- wp (if ?b then _ else _) _ _ => destruct b eqn:?
  | |- wp (match ?x with _ => _ end) _ _ => destruct x eqn:?
  | |- match ?x with _ => _ end => destruct x eqn:?
  end; cbn beta iota.

(** a step whose run is described by the lemma [lem] *)
Ltac wp_use lem :=
  eapply wp_mono; [|apply lem; try eassumption]; cbn beta;
  let r := fresh "r" in
  let w := fresh "w" in
  let j := fresh "j" in
  intros r w j; destruct r; cbn beta iota.

Ltac wp_auto := repeat (wp_step || wp_case).

(** a statement about [outcome m w] and [final m w] as a statement [wp m w _] *)
Ltac to_wp :=
  cbv zeta;
  lazymatch goal with
  | |- context [final ?m ?w] =>
      pattern (outcome m w), (final m w), (journal m w);
      lazymatch goal with |- ?Q _ _ _ => change (wp m w Q) end
  end.

(** ** The admission pre-filter *)

Section Prefilter.
Variables (s : PlotManager) (time_now : Q) (file_path : Path).

(** The five conditions of [processing_required], read off the code. *)
Lemma processing_required_spec :
  processing_required s time_now file_path = true ↔
    _refreshing_enabled s = true
    ∧ (∀ m, match_str s = Some m → str_contains m (path_str file_path) = true)
    ∧ (∀ t, failed_to_open_filenames s !! file_path = Some t →
            ¬ (time_now - inject_Z t
               < inject_Z (PlotsRefreshParameter.retry_invalid_seconds
                             (refresh_parameter s)))%Q)
    ∧ plots s !! file_path = None
    ∧ (∀ loaded_parent duplicates,
         plot_filename_paths s !! name file_path = Some (loaded_parent, duplicates) →
         parent file_path ∉ duplicates).
Proof.
  unfold processing_required.
  destruct (_refreshing_enabled s); simpl; [|naive_solver].
  assert (Hm : (match match_str s with
                | Some m => negb (str_contains m (path_str file_path))
                | None => false end) = false
               ↔ ∀ m, match_str s = Some m →
                      str_contains m (path_str file_path) = true).
  { destruct (match_str s) as [m|]; [|naive_solver].
    rewrite negb_false_iff. naive_solver. }
  assert (Hf : (match failed_to_open_filenames s !! file_path with
                | Some t => Qltb (time_now - inject_Z t)
                    (inject_Z (PlotsRefreshParameter.retry_invalid_seconds
                                 (refresh_parameter s)))
                | None => false end) = false
               ↔ ∀ t, failed_to_open_filenames s !! file_path = Some t →
                   ¬ (time_now - inject_Z t
                      < inject_Z (PlotsRefreshParameter.retry_invalid_seconds
                                    (refresh_parameter s)))%Q).
  { destruct (failed_to_open_filenames s !! file_path) as [t|]; [|naive_solver].
    rewrite <- not_true_iff_false, Qltb_lt. naive_solver. }
  assert (Hd : (match plot_filename_paths s !! name file_path with
                | Some (_, duplicates) =>
                    if bool_decide (parent file_path ∈ duplicates)
                    then false else true
                | None => true end) = true
               ↔ ∀ loaded_parent duplicates,
                   plot_filename_paths s !! name file_path
                     = Some (loaded_parent, duplicates) →
                   parent file_path ∉ duplicates).
  { destruct (plot_filename_paths s !! name file_path) as [[lp d]|];
      [|naive_solver].
    case_bool_decide; naive_solver. }
  rewrite <- Hm, <- Hf, <- Hd. clear Hm Hf Hd.
  destruct (match match_str s with Some _ => _ | None => _ end);
    [naive_solver|].
  destruct (match failed_to_open_filenames s !! file_path with
            Some _ => _ | None => _ end); [naive_solver|].
  case_bool_decide as Hp.
  - apply not_eq_None_Some in Hp. naive_solver.
  - apply eq_None_not_Some in Hp. naive_solver.
Qed.

Lemma processing_required_live :
  is_Some (plots s !! file_path) → processing_required s time_now file_path = false.
Proof.
  intros [i Hi]. apply not_true_is_false. intros H.
  apply processing_required_spec in H as (_ & _ & _ & H & _). congruence.
Qed.
End Prefilter.

(** C7. A path in the failed-open table with timestamp [T] is refused by
    [processing_required] at every moment strictly before
    [T + retry_invalid_seconds]; [process_batch] therefore never hands it to
    [process_file] during that time. *)
Theorem failed_path_not_retried (s : PlotManager) (time_now : Q)
    (file_path : Path) (T : Z) (batch : list Path) :
  failed_to_open_filenames s !! file_path = Some T →
  (time_now < inject_Z T
              + inject_Z (PlotsRefreshParameter.retry_invalid_seconds
                            (refresh_parameter s)))%Q →
  processing_required s time_now file_path = false
  ∧ ¬ In file_path (List.filter (processing_required s time_now) batch).
Proof.
  intros Hfailed Hbefore.
  assert (Hrefused : processing_required s time_now file_path = false).
  { apply not_true_is_false. intros H.
    apply processing_required_spec in H as (_ & _ & H & _).
    apply (H T Hfailed). lra. }
  split; [exact Hrefused|].
  intros Hin. apply filter_In in Hin as [_ Hin]. congruence.
Qed.

Lemma failed_path_not_retried_witness :
  processing_required manager_failed 500 a_plot = false
  ∧ ¬ In a_plot (List.filter (processing_required manager_failed 500) [a_plot; a_copy]).
Proof.
  apply (failed_path_not_retried manager_failed 500 a_plot 100 [a_plot; a_copy]).
  - reflexivity.
  - reflexivity.
Defined.

(** C4, as stated, fails: after the first scenario [a.plot] is known under
    [/d1]; the candidate [/d2/a.plot] has another parent, and the pre-filter
    lets it through. *)
Lemma known_basename_passes_prefilter :
  plot_filename_paths (self world_s1) !! name a_copy = Some ("/d1", ∅)
  ∧ "/d1" ≠ parent a_copy
  ∧ processing_required (self world_s1) (clock world_s1) a_copy = true.
Proof.
  split; [vm_compute; reflexivity|]. split; [discriminate|vm_compute; reflexivity].
Qed.

(** C4, amended. A candidate whose parent directory is in the duplicates set
    recorded for its basename is refused by [processing_required]. *)
Theorem recorded_duplicate_rejected (s : PlotManager) (time_now : Q)
    (file_path : Path) (loaded_parent : string) (duplicates : gset string) :
  plot_filename_paths s !! name file_path = Some (loaded_parent, duplicates) →
  parent file_path ∈ duplicates →
  processing_required s time_now file_path = false.
Proof.
  intros Hentry Hdup. apply not_true_is_false. intros H.
  apply processing_required_spec in H as (_ & _ & _ & _ & H).
  exact (H _ _ Hentry Hdup).
Qed.

Lemma recorded_duplicate_rejected_witness :
  processing_required (self world_s2) (clock world_s2) a_copy = false.
Proof.
  apply (recorded_duplicate_rejected (self world_s2) (clock world_s2) a_copy
           "/d1" {[ "/d2" ]}).
  - vm_compute. reflexivity.
  - vm_compute. reflexivity.
Defined.

(** ** The worker *)

Section Frame.
Variables (file_path : Path) (s : PlotManager).

Lemma discard_no_key_eq :
  discard_no_key file_path s
  = set_no_key_filenames (no_key_filenames s ∖ {[file_path]}) s.
Proof.
  unfold discard_no_key. case_bool_decide as H; [done|].
  replace (no_key_filenames s ∖ {[file_path]}) with (no_key_filenames s)
    by set_solver.
  by destruct s.
Qed.

Lemma discard_failed_eq :
  discard_failed file_path s
  = set_failed_to_open_filenames
      (delete file_path (failed_to_open_filenames s)) s.
Proof.
  unfold discard_failed. case_bool_decide as H; [done|].
  apply eq_None_not_Some in H. rewrite delete_id by done. by destruct s.
Qed.
End Frame.

(** into [process_file], past a successful [load_file] and the size check *)
Ltac enter_process_file Hload Hsize :=
  unfold process_file; wp_step; rewrite Hload; wp_step; rewrite Hsize; wp_steps.

(** ** The size check *)

Lemma digits2_pos_lower (p : positive) : 2 ^ (Z.pos (digits2_pos p) - 1) ≤ Z.pos p.
Proof.
  induction p as [p IH|p IH|]; cbn [digits2_pos]; [| |done].
  all: rewrite Pos2Z.inj_succ.
  all: replace (Z.succ (Z.pos (digits2_pos p)) - 1)
         with (Z.succ (Z.pos (digits2_pos p) - 1)) by lia.
  all: rewrite Z.pow_succ_r by lia; lia.
Qed.

Lemma digits2_pos_upper (p : positive) : Z.pos p < 2 ^ Z.pos (digits2_pos p).
Proof.
  induction p as [p IH|p IH|]; cbn [digits2_pos]; [| |done].
  all: rewrite Pos2Z.inj_succ, Z.pow_succ_r by lia; lia.
Qed.

Lemma Zdigits2_le (m k : Z) : 0 ≤ k → 0 ≤ m < 2 ^ k → Zdigits2 m ≤ k.
Proof.
  intros Hk [Hm Hlt]. destruct m as [|p|p]; cbn [Zdigits2]; [lia| |lia].
  pose proof (digits2_pos_lower p) as Hp.
  destruct (Z_le_gt_dec (Z.pos (digits2_pos p)) k) as [|Hgt]; [done|].
  exfalso.
  assert (2 ^ k ≤ 2 ^ (Z.pos (digits2_pos p) - 1)) by (apply Z.pow_le_mono_r; lia).
  lia.
Qed.

Lemma shr_1_m (r : shr_record) : 0 ≤ shr_m r → 0 ≤ shr_m (shr_1 r) ≤ shr_m r.
Proof. destruct r as [[|[p|p|]|p] ? ?]; cbn; lia. Qed.

Lemma iter_pos_shr_1 (n : positive) (r : shr_record) :
  0 ≤ shr_m r → 0 ≤ shr_m (SpecFloat.iter_pos shr_1 n r) ≤ shr_m r.
Proof.
  revert r. induction n as [n IH|n IH|]; intros r Hr; cbn [SpecFloat.iter_pos].
  - pose proof (shr_1_m r Hr) as H1.
    pose proof (IH _ (proj1 H1)) as H2. pose proof (IH _ (proj1 H2)). lia.
  - pose proof (IH _ Hr) as H2. pose proof (IH _ (proj1 H2)). lia.
  - by apply shr_1_m.
Qed.

Lemma shr_fexp_bound (m e : Z) (l : location) (k : Z) :
  0 ≤ k → 0 ≤ m < 2 ^ k →
  let r := shr_fexp 53 1024 m e l in
  0 ≤ shr_m r.1 ≤ m ∧ r.2 ≤ Z.max e (k + e - 53) `max` (-1074).
Proof.
  intros Hk Hm. pose proof (Zdigits2_le m k Hk Hm) as Hd.
  unfold shr_fexp, shr, fexp, emin.
  assert (Hrec : shr_m (shr_record_of_loc m l) = m) by by destruct l as [|[]].
  destruct (_ - e) as [|n|n] eqn:Hn; cbn [fst snd]; rewrite ?Hrec; try lia.
  pose proof (iter_pos_shr_1 n (shr_record_of_loc m l)) as Hi.
  rewrite Hrec in Hi. split; [apply Hi; lia|]. lia.
Qed.

Lemma round_nearest_even_bound (m : Z) (l : location) :
  m ≤ round_nearest_even m l ≤ m + 1.
Proof. destruct l as [|[]]; cbn; try destruct (Z.even m); lia. Qed.

Lemma binary_round_aux_finite (sx : bool) (mx ex : Z) :
  0 ≤ mx < 2 ^ 63 → ex ≤ -20 →
  ∀ s, binary_round_aux 53 1024 sx mx ex loc_Exact ≠ S754_infinity s.
Proof.
  intros Hm He s. unfold binary_round_aux.
  pose proof (shr_fexp_bound mx ex loc_Exact 63) as H1. cbn zeta in H1.
  destruct (shr_fexp 53 1024 mx ex loc_Exact) as [mrs' e']. cbn [fst snd] in H1.
  destruct H1 as [Hm' He']; [lia|done|].
  pose proof (round_nearest_even_bound (shr_m mrs') (loc_of_shr_record mrs')) as Hr.
  pose proof (shr_fexp_bound (round_nearest_even (shr_m mrs') (loc_of_shr_record mrs'))
                e' loc_Exact 64) as H2. cbn zeta in H2.
  destruct (shr_fexp 53 1024 _ e' loc_Exact) as [mrs'' e'']. cbn [fst snd] in H2.
  destruct H2 as [_ He'']; [lia| |].
  { change (2 ^ 64) with (2 ^ 63 + 2 ^ 63). lia. }
  destruct (shr_m mrs''); [done| |done].
  rewrite (proj2 (Z.leb_le e'' (1024 - 53))); [done|lia].
Qed.

Lemma iter_xO (d m : positive) : Z.pos (Pos.iter xO m d) = Z.pos m * 2 ^ Z.pos d.
Proof.
  change (Pos.iter xO m d) with (shift_pos d m).
  rewrite shift_pos_correct, Zpower_pos_nat, Zpower_nat_Z, positive_nat_Z. lia.
Qed.

(** the size of a file, a number below 2^63, can be shown in GiB *)
Lemma file_size_in_GiB (z : Z) : 0 ≤ z < 2 ^ 63 → ∃ g, int_div_GiB z = Return g.
Proof.
  intros Hz. unfold int_div_GiB.
  assert (H : ∀ s, binary_normalize 53 1024 z (-30) false ≠ S754_infinity s).
  { destruct z as [|m|m]; [done| |lia]. cbn [binary_normalize]. unfold binary_round.
    pose proof (digits2_pos_upper m) as Hu. pose proof (digits2_pos_lower m) as Hl.
    assert (Hd : Z.pos (digits2_pos m) ≤ 63) by (apply (Zdigits2_le (Z.pos m)); lia).
    unfold shl_align, fexp, emin.
    destruct (_ - -30) as [|d|d] eqn:Hshift.
    1,2: apply binary_round_aux_finite; lia.
    apply binary_round_aux_finite; [|lia].
    rewrite iter_xO. split; [lia|].
    assert (Z.pos d = 53 - Z.pos (digits2_pos m)) as -> by lia.
    assert (2 ^ 53 = 2 ^ Z.pos (digits2_pos m) * 2 ^ (53 - Z.pos (digits2_pos m))) as Hp.
    { rewrite <- Z.pow_add_r by lia. f_equal. lia. }
    assert (0 < 2 ^ (53 - Z.pos (digits2_pos m))) by (apply Z.pow_pos_nonneg; lia).
    assert (Z.pos m * 2 ^ (53 - Z.pos (digits2_pos m)) < 2 ^ 53) by (rewrite Hp; nia).
    lia. }
  destruct (binary_normalize 53 1024 z (-30) false); eauto. by destruct (H s).
Qed.

(** C6. A file that parses, has [prover.get_size() >= 30] and a size below
    0.98 times the expected plot size, both products being taken as line 266
    and line 271 take them, in floats, makes [process_file] return [None]
    and change nothing: the failed-open table in particular stays as it
    was, with no record for the path added.  The size is one that the
    warning of line 273 can show in GiB, as is every size below 2^63
    ([file_size_in_GiB]). *)
Theorem process_file_soft_skip (env : Env) (file_path : Path) (w : World)
    (stat_info : stat_result) (prover : DiskProver) (x g : float) :
  load_file env file_path = Return (Some (stat_info, prover)) →
  30 ≤ get_size prover →
  expected_size env prover = Return x →
  int_lt_float (st_size stat_info) (float_mul (float_lit 98 100) x) = true →
  int_div_GiB (st_size stat_info) = Return g →
  ∃ w', process_file env file_path w = (Return None, w', [])
        ∧ failed_to_open_filenames (self w') = failed_to_open_filenames (self w)
        ∧ w' = w.
Proof.
  intros Hload Hk Hexpected Hsmall Hshown. exists w.
  assert (Hskip : size_check_fails env stat_info prover = Return true).
  { unfold size_check_fails. rewrite Hexpected, Hsmall.
    by rewrite (proj2 (Z.leb_le _ _) Hk). }
  unfold process_file, bind, lift. rewrite Hload, Hskip, Hshown. done.
Qed.

Lemma process_file_soft_skip_witness :
  ∃ w', process_file copying_env a_plot (world_of (manager0 false) 0)
        = (Return None, w', [])
        ∧ failed_to_open_filenames (self w')
          = failed_to_open_filenames (self (world_of (manager0 false) 0))
        ∧ w' = world_of (manager0 false) 0.
Proof.
  apply (process_file_soft_skip copying_env a_plot (world_of (manager0 false) 0)
           half_copied (prover_of a_plot) expected_k32 half_copied_GiB).
  - reflexivity.
  - simpl. lia.
  - vm_compute. reflexivity.
  - vm_compute. reflexivity.
  - vm_compute. reflexivity.
Defined.

(** The two roundings of lines 266 and 271 count: for k = 43 the expected
    size times 0.762 times 0.98 is, as a number, above 285732813498986, but
    the float that line 271 compares with is not, and a file of that size
    passes the check. *)
Example size_check_rounds_at_k43 :
  _expected_plot_size (quiet_env []) 43 = Return (87 * 2 ^ 42)
  ∧ 285732813498986 * (1000 * 100) < 98 * 762 * (87 * 2 ^ 42)
  ∧ size_check_fails (quiet_env []) stat_k43 prover_k43 = Return false.
Proof. vm_compute. done. Qed.

(** C10. When a file parses, passes the size check and is not in the cache,
    [process_file] stores a new cache entry for it before the key policy and
    the duplicate check: whatever the outcome, the cache on return is the
    cache on entry with that entry inserted.  When [process_file] returns
    [None], nothing but the cache, the no-key set and the deduplication
    index has changed. *)
Theorem cache_entry_survives_rejection (env : Env) (file_path : Path) (w : World)
    (stat_info : stat_result) (prover : DiskProver) :
  load_file env file_path = Return (Some (stat_info, prover)) →
  size_check_fails env stat_info prover = Return false →
  Cache.get file_path (cache (self w)) = None →
  let w' := final (process_file env file_path) w in
  let e := CacheEntry.from_disk_prover (clock w) prover in
  cache (self w') = Cache.update file_path e (cache (self w))
  ∧ Cache.get file_path (cache (self w')) = Some e
  ∧ (outcome (process_file env file_path) w = Return None →
     plots (self w') = plots (self w)
     ∧ failed_to_open_filenames (self w') = failed_to_open_filenames (self w)
     ∧ farmer_public_keys (self w') = farmer_public_keys (self w)
     ∧ pool_public_keys (self w') = pool_public_keys (self w)
     ∧ root_path (self w') = root_path (self w)
     ∧ match_str (self w') = match_str (self w)
     ∧ open_no_key_filenames (self w') = open_no_key_filenames (self w)
     ∧ last_refresh_time (self w') = last_refresh_time (self w)
     ∧ refresh_parameter (self w') = refresh_parameter (self w)
     ∧ _refreshing_enabled (self w') = _refreshing_enabled (self w)
     ∧ _initial (self w') = _initial (self w)
     ∧ clock w' = clock w
     ∧ cache_file w' = cache_file w).
Proof.
  intros Hload Hsize Hmiss. to_wp.
  enter_process_file Hload Hsize. rewrite Hmiss. wp_auto.
  all: rewrite ?discard_no_key_eq, ?discard_failed_eq; simpl.
  all: unfold Cache.get, Cache.bump, Cache.update; simpl.
  all: rewrite ?alter_insert_eq, lookup_insert_eq; simpl.
  all: done.
Qed.

Lemma cache_entry_survives_rejection_witness :
  Cache.get a_plot
    (cache (self (final (process_file (quiet_env []) a_plot)
                        (world_of (manager_no_key false) 7))))
  = Some (CacheEntry.from_disk_prover 7 (prover_of a_plot))
  ∧ outcome (process_file (quiet_env []) a_plot) (world_of (manager_no_key false) 7)
    = Return None.
Proof.
  split.
  - apply (cache_entry_survives_rejection (quiet_env []) a_plot
             (world_of (manager_no_key false) 7) stat_a (prover_of a_plot)).
    + reflexivity.
    + vm_compute. reflexivity.
    + reflexivity.
  - vm_compute. reflexivity.
Defined.

(** C2, as stated, fails, with [open_no_key_filenames] set and a farmer key
    that is not allowed: for a basename that is already registered
    [process_file] still returns [None]; for a basename that is not, it
    returns the descriptor, but the path is not in the no-key set on
    return. *)
Lemma open_no_key_still_returns_none :
  open_no_key_filenames (manager_rotated true) = true
  ∧ (memo_farmer_public_key (prover_of a_copy)
     ∉ farmer_public_keys (manager_rotated true))
  ∧ (outcome (process_file (quiet_env []) a_copy) (world_of (manager_rotated true) 0)
     = Return None)
  ∧ (a_copy ∉ no_key_filenames
                (self (final (process_file (quiet_env []) a_copy)
                             (world_of (manager_rotated true) 0))))
  ∧ (outcome (process_file (quiet_env []) a_plot) (world_of (manager_no_key true) 0)
     = Return (Some (plot_info_of (CacheEntry.from_disk_prover 0 (prover_of a_plot))
                                  stat_a)))
  ∧ a_plot ∉ no_key_filenames
               (self (final (process_file (quiet_env []) a_plot)
                            (world_of (manager_no_key true) 0))).
Proof.
  split; [reflexivity|]. split.
  { intros H. apply list_elem_of_singleton in H. discriminate. }
  split; [vm_compute; reflexivity|]. split; [vm_compute; discriminate|].
  split; [vm_compute; reflexivity|]. vm_compute. discriminate.
Qed.

(** C2, amended. For a path that reaches the key policy with a cached farmer
    key, or a present pool key, that is not in its allow-list: when
    [open_no_key_filenames] is false, [process_file] returns [None] and the
    path is in the no-key set on return; when it is true, [process_file]
    returns [None] if the basename is already registered in the
    deduplication index and returns the descriptor of the plot otherwise. *)
Theorem key_policy (env : Env) (file_path : Path) (w : World)
    (stat_info : stat_result) (prover : DiskProver) :
  load_file env file_path = Return (Some (stat_info, prover)) →
  size_check_fails env stat_info prover = Return false →
  let e := entry_used file_path w prover in
  (CacheEntry.farmer_public_key e ∉ farmer_public_keys (self w)
   ∨ (∃ k, CacheEntry.pool_public_key e = Some k ∧ k ∉ pool_public_keys (self w))) →
  let r := outcome (process_file env file_path) w in
  let w' := final (process_file env file_path) w in
  (open_no_key_filenames (self w) = false →
     r = Return None ∧ file_path ∈ no_key_filenames (self w'))
  ∧ (open_no_key_filenames (self w) = true →
     (is_Some (plot_filename_paths (self w) !! name file_path) → r = Return None)
     ∧ (plot_filename_paths (self w) !! name file_path = None →
        r = Return (Some (plot_info_of e stat_info)))).
Proof.
  intros Hload Hsize e Hkey. revert Hkey. subst e. unfold entry_used.
  to_wp. enter_process_file Hload Hsize.
  destruct (Cache.get file_path (cache (self w))) as [e|] eqn:Hget;
    wp_auto; intros Hkey.
  all: rewrite ?discard_no_key_eq, ?discard_failed_eq in *; simpl in *.
  all: repeat match goal with
         | H : negb _ = true |- _ => apply negb_true_iff in H
         | H : negb _ = false |- _ => apply negb_false_iff in H
         | H : bool_decide _ = true |- _ => apply bool_decide_eq_true in H
         | H : bool_decide _ = false |- _ => apply bool_decide_eq_false in H
         end.
  all: (split; [intros Ho|intros Ho; split; [intros [? Hs]|intros Hn]]).
  all: try congruence.
  all: try (split; [done|set_solver]).
  all: try reflexivity.
  all: exfalso; destruct Hkey as [?|(k & Hk & Hnk)]; [done|].
  all: rewrite Hk in *.
  all: match goal with
       | H : negb _ = false |- _ =>
           apply negb_false_iff, bool_decide_eq_true in H; done
       end.
Qed.

Lemma key_policy_witness :
  (open_no_key_filenames (manager_no_key false) = false →
     outcome (process_file (quiet_env []) a_plot) (world_of (manager_no_key false) 0)
     = Return None
     ∧ a_plot ∈ no_key_filenames
                  (self (final (process_file (quiet_env []) a_plot)
                               (world_of (manager_no_key false) 0))))
  ∧ (open_no_key_filenames (manager_no_key false) = true →
     (is_Some (plot_filename_paths (manager_no_key false) !! name a_plot) →
      outcome (process_file (quiet_env []) a_plot) (world_of (manager_no_key false) 0)
      = Return None)
     ∧ (plot_filename_paths (manager_no_key false) !! name a_plot = None →
        outcome (process_file (quiet_env []) a_plot) (world_of (manager_no_key false) 0)
        = Return (Some (plot_info_of
                          (entry_used a_plot (world_of (manager_no_key false) 0)
                                      (prover_of a_plot)) stat_a)))).
Proof.
  apply (key_policy (quiet_env []) a_plot (world_of (manager_no_key false) 0)
           stat_a (prover_of a_plot)).
  - reflexivity.
  - vm_compute. reflexivity.
  - left. vm_compute. intros H. apply list_elem_of_singleton in H. discriminate.
Defined.

(** C5, as stated, fails: [a.plot] is registered with primary parent [/d1]
    and no duplicates; registering [/d1/a.plot] again returns [None] and puts
    the primary parent itself into the duplicates set. *)
Lemma primary_parent_becomes_duplicate :
  plot_filename_paths (manager_d1 false) !! name a_plot = Some ("/d1", ∅)
  ∧ parent a_plot = "/d1"
  ∧ (outcome (process_file (quiet_env []) a_plot) (world_of (manager_d1 false) 0)
     = Return None)
  ∧ plot_filename_paths
      (self (final (process_file (quiet_env []) a_plot)
                   (world_of (manager_d1 false) 0))) !! name a_plot
    = Some ("/d1", {[ "/d1" ]})
  ∧ ({[ "/d1" ]} : gset string) ≠ ∅.
Proof.
  split; [reflexivity|]. split; [reflexivity|].
  split; [vm_compute; reflexivity|]. split; [vm_compute; reflexivity|].
  vm_compute. discriminate.
Qed.

(** C5, amended. When a path whose basename is already present reaches the
    deduplication index, [process_file] returns [None] and the parent
    directory of the prover's file is added to the duplicates set of the
    entry, the primary parent being kept; the set, and the whole index, is
    left unchanged when that directory is already in the set. *)
Theorem register_known_basename (env : Env) (file_path : Path) (w : World)
    (stat_info : stat_result) (prover : DiskProver)
    (primary : string) (duplicates : gset string) :
  load_file env file_path = Return (Some (stat_info, prover)) →
  size_check_fails env stat_info prover = Return false →
  let e := entry_used file_path w prover in
  (open_no_key_filenames (self w) = true
   ∨ (CacheEntry.farmer_public_key e ∈ farmer_public_keys (self w)
      ∧ ∀ k, CacheEntry.pool_public_key e = Some k → k ∈ pool_public_keys (self w))) →
  plot_filename_paths (self w) !! name file_path = Some (primary, duplicates) →
  let d := parent (get_filename (CacheEntry.prover e)) in
  let w' := final (process_file env file_path) w in
  outcome (process_file env file_path) w = Return None
  ∧ plot_filename_paths (self w')
    = <[name file_path := (primary, {[d]} ∪ duplicates)]> (plot_filename_paths (self w))
  ∧ (d ∈ duplicates → plot_filename_paths (self w') = plot_filename_paths (self w)).
Proof.
  intros Hload Hsize e Hpass Hentry d.
  assert (Hsame : d ∈ duplicates →
            <[name file_path := (primary, {[d]} ∪ duplicates)]>
              (plot_filename_paths (self w)) = plot_filename_paths (self w)).
  { intros Hd. apply insert_id. rewrite Hentry. do 2 f_equal. set_solver. }
  revert Hpass Hsame. subst e d. unfold entry_used.
  to_wp. enter_process_file Hload Hsize.
  destruct (Cache.get file_path (cache (self w))) as [e|] eqn:Hget;
    wp_auto; intros Hpass Hsame.
  all: rewrite ?discard_no_key_eq, ?discard_failed_eq in *; simpl in *.
  all: repeat match goal with
         | H : negb _ = true |- _ => apply negb_true_iff in H
         | H : negb _ = false |- _ => apply negb_false_iff in H
         | H : bool_decide _ = true |- _ => apply bool_decide_eq_true in H
         | H : bool_decide _ = false |- _ => apply bool_decide_eq_false in H
         end.
  all: try congruence.
  all: try (simplify_eq; split; [done|split; [done|]]; intros Hd;
            rewrite <- (Hsame Hd) at 2; done).
  all: exfalso; destruct Hpass as [?|[Hf Hp]]; [congruence|]; try done.
  all: match goal with
       | H : match ?o with Some _ => _ | None => _ end = true |- _ =>
           destruct o as [k|] eqn:Hk; [|discriminate];
           apply negb_true_iff, bool_decide_eq_false in H;
           apply H, Hp; reflexivity
       end.
Qed.

Lemma register_known_basename_witness :
  outcome (process_file (quiet_env []) a_copy) (world_of (manager_d1 false) 0)
  = Return None
  ∧ plot_filename_paths
      (self (final (process_file (quiet_env []) a_copy) (world_of (manager_d1 false) 0)))
    = <[name a_copy :=
          ("/d1", {[parent (get_filename (CacheEntry.prover
                      (entry_used a_copy (world_of (manager_d1 false) 0)
                                  (prover_of a_copy))))]} ∪ ∅)]>
        (plot_filename_paths (manager_d1 false))
  ∧ (parent (get_filename (CacheEntry.prover
               (entry_used a_copy (world_of (manager_d1 false) 0) (prover_of a_copy))))
     ∈ (∅ : gset string) →
     plot_filename_paths
       (self (final (process_file (quiet_env []) a_copy) (world_of (manager_d1 false) 0)))
     = plot_filename_paths (manager_d1 false)).
Proof.
  apply (register_known_basename (quiet_env []) a_copy (world_of (manager_d1 false) 0)
           stat_a (prover_of a_copy) "/d1" ∅).
  - reflexivity.
  - vm_compute. reflexivity.
  - right. split.
    + vm_compute. apply list_elem_of_singleton. reflexivity.
    + intros k Hk. vm_compute in Hk. injection Hk as <-.
      apply list_elem_of_singleton. reflexivity.
  - reflexivity.
Defined.

(** ** Exceptions in the loop *)

Lemma iteration_returns (env : Env) (fuel : nat) (w : World) :
  ∃ c, outcome (iteration env fuel) w = Return c.
Proof.
  change (wp (iteration env fuel) w (λ r _ _, ∃ c, r = Return c)).
  unfold iteration. wp_step.
  unfold wp. destruct (outcome (try_body env fuel) w) as [c|e]; [by exists c|].
  wp_steps. by exists Continue.
Qed.

Lemma _refresh_task_never_raises (envs : list Env) (fuel : nat) (w : World) :
  ∃ b, outcome (_refresh_task envs fuel) w = Return b.
Proof.
  revert w. induction envs as [|env envs IH]; intros w.
  - change (wp (_refresh_task [] fuel) w (λ r _ _, ∃ b, r = Return b)).
    simpl. wp_steps. destruct (negb _); wp_steps; eauto.
  - change (wp (_refresh_task (env :: envs) fuel) w (λ r _ _, ∃ b, r = Return b)).
    simpl. wp_steps. destruct (negb _); wp_steps; [eauto|].
    destruct (iteration_returns env fuel w) as [c Hc].
    unfold wp at 1. rewrite Hc. destruct c; wp_steps; eauto.
    apply (IH (final (iteration env fuel) w)).
Qed.

Lemma _refresh_task_continue (env : Env) (envs : list Env) (fuel : nat)
    (w w1 : World) (j1 : list Entry) :
  _refreshing_enabled (self w) = true →
  iteration env fuel w = (Return Continue, w1, j1) →
  _refresh_task (env :: envs) fuel w
  = (outcome (_refresh_task envs fuel) w1, final (_refresh_task envs fuel) w1,
     j1 ++ journal (_refresh_task envs fuel) w1).
Proof.
  intros Hen Hit. unfold outcome, final, journal.
  cbn [_refresh_task]. unfold bind at 1, gets at 1. rewrite Hen.
  cbn [negb]. unfold bind at 1. rewrite Hit.
  by destruct (_refresh_task envs fuel w1) as [[r2 w2] j2].
Qed.

(** C3. An exception raised anywhere in the body of the loop (the polling,
    the directory walk, an observer call, a worker, the batching) is caught
    in [_refresh_task]: the round ends normally after [reset()], which has
    emptied the live plots, the deduplication index, the failed-open table
    and the no-key set, set [_initial] and set [last_refresh_time] to the
    current time; the loop then goes on from its test with that state, and
    no exception ever leaves [_refresh_task].  ([reset()] leaves the cache
    and the allow-lists as they are.) *)
Theorem exception_resets_and_continues (env : Env) (envs : list Env)
    (fuel : nat) (w : World) (e : string) :
  outcome (try_body env fuel) w = Raise e →
  let raised := final (try_body env fuel) w in
  let w' := final (iteration env fuel) w in
  outcome (iteration env fuel) w = Return Continue
  ∧ journal (iteration env fuel) w = journal (try_body env fuel) w ++ [LogError e]
  ∧ w' = reset raised
  ∧ plots (self w') = ∅
  ∧ plot_filename_paths (self w') = ∅
  ∧ failed_to_open_filenames (self w') = ∅
  ∧ no_key_filenames (self w') = ∅
  ∧ _initial (self w') = true
  ∧ last_refresh_time (self w') = clock w'
  ∧ clock w' = clock raised
  ∧ cache (self w') = cache (self raised)
  ∧ (_refreshing_enabled (self w) = true →
     outcome (_refresh_task (env :: envs) fuel) w = outcome (_refresh_task envs fuel) w'
     ∧ final (_refresh_task (env :: envs) fuel) w = final (_refresh_task envs fuel) w'
     ∧ journal (_refresh_task (env :: envs) fuel) w
       = journal (iteration env fuel) w ++ journal (_refresh_task envs fuel) w')
  ∧ (∀ envs' fuel' w0 e', outcome (_refresh_task envs' fuel') w0 ≠ Raise e').
Proof.
  intros Hraise raised w'.
  assert (Hit : iteration env fuel w
                = (Return Continue, reset raised,
                   journal (try_body env fuel) w ++ [LogError e])).
  { subst raised. revert Hraise.
    unfold iteration, try_except, outcome, final, journal.
    destruct (try_body env fuel w) as [[r w1] j1]; simpl.
    intros ->. reflexivity. }
  subst w'. unfold outcome, final, journal in *. rewrite Hit. cbn [fst snd].
  repeat (split; [reflexivity|]). split.
  - intros Hen. rewrite (_refresh_task_continue _ _ _ _ _ _ Hen Hit).
    done.
  - intros envs' fuel' w0 e' H.
    destruct (_refresh_task_never_raises envs' fuel' w0) as [b Hb].
    unfold outcome in *. congruence.
Qed.

Lemma exception_resets_and_continues_witness :
  outcome (iteration raising_env 5) (world_of (manager0 false) 1000) = Return Continue
  ∧ plots (self (final (iteration raising_env 5) (world_of (manager0 false) 1000))) = ∅
  ∧ _initial (self (final (iteration raising_env 5) (world_of (manager0 false) 1000)))
    = true.
Proof.
  pose proof (exception_resets_and_continues raising_env [] 5
                (world_of (manager0 false) 1000) "observer failed") as H.
  cbv zeta in H.
  destruct H as (H1 & _ & _ & H2 & _ & _ & _ & H3 & _).
  - vm_compute. reflexivity.
  - exact (conj H1 (conj H2 H3)).
Defined.

(** ** The journal of a cycle *)

Lemma process_file_silent (env : Env) (file_path : Path) (w : World) :
  wp (process_file env file_path) w (λ _ _ j, j = []).
Proof. unfold process_file. wp_auto; done. Qed.

Lemma run_workers_silent (env : Env) (paths : list Path) (w : World) :
  wp (run_workers env paths) w (λ _ _ j, j = []).
Proof.
  revert w. induction paths as [|p ps IH]; intros w; [done|].
  cbn [run_workers]. wp_step. wp_use process_file_silent; [|done].
  intros ->. wp_step. wp_use IH; [|done]. intros ->. by wp_steps.
Qed.

Lemma process_batch_silent (env : Env) (batch : list Path) (w : World) :
  wp (process_batch env batch) w (λ _ _ j, j = []).
Proof.
  unfold process_batch. wp_steps. wp_use run_workers_silent; [|done].
  intros ->. by wp_steps.
Qed.

Lemma callback_journal (env : Env) (ev : PlotRefreshEvents)
    (r : PlotRefreshResult.t) (w : World) :
  wp (callback env ev r) w (λ _ _ j, j = [Observed ev r]).
Proof. unfold callback. by wp_steps. Qed.

Lemma reconcile_silent (plot_paths : list Path) (w : World) :
  wp (reconcile plot_paths) w (λ r _ j, j = [] ∧ ∃ removed, r = Return removed).
Proof. unfold reconcile. wp_steps. eauto. Qed.

Lemma batch_loop_journal (env : Env) (batches : list (Z * list Path))
    (total : PlotRefreshResult.t) (w : World) :
  wp (batch_loop env batches total) w batch_journal.
Proof.
  revert total w. induction batches as [|[remaining batch] rest IH]; intros total w.
  - cbn [batch_loop]. wp_steps. exists []. by left.
  - cbn [batch_loop]. wp_step. wp_use process_batch_silent.
    2:{ intros ->. exists []. by left. }
    intros ->. wp_steps. destruct (negb _) eqn:Hen.
    + wp_steps. exists []. right. apply negb_true_iff in Hen. eauto.
    + wp_step. wp_use callback_journal.
      2:{ intros ->. eexists [_]. by left. }
      intros ->. destruct (remaining =? 0).
      * wp_steps. eexists [_]. by left.
      * wp_use IH.
        -- intros [rs [->|(-> & Hr & Hoff)]].
           ++ eexists (_ :: rs). by left.
           ++ eexists (_ :: rs). right. eauto.
        -- intros [rs [->|(-> & [? ?] & _)]]; [|done].
           eexists (_ :: rs). by left.
Qed.

(** ** The cleanup of the cache *)

Section Sweep.
Variables (time_now : Q) (live : gmap Path PlotInfo.t).

Lemma sweep_fold (l : list (Path * CacheEntry.t)) (rm : list Path) (c : Cache.t) :
  let r := foldl (sweep_entry time_now live) (rm, c) l in
  Cache.expiry_seconds r.2 = Cache.expiry_seconds c
  ∧ Cache.dirty r.2 = Cache.dirty c
  ∧ (∀ p, Cache.data r.2 !! p =
          if bool_decide (p ∈ l.*1 ∧ is_Some (live !! p))
          then CacheEntry.bump_last_use time_now <$> Cache.data c !! p
          else Cache.data c !! p)
  ∧ r.1 = rm ++ (List.filter (expired_and_unused time_now live
                                (Cache.expiry_seconds c)) l).*1.
Proof.
  revert rm c. induction l as [|[q e] l IH]; intros rm c; cbn zeta.
  - simpl. split; [done|]. split; [done|]. split; [|by rewrite app_nil_r].
    intros p. reflexivity.
  - cbn [foldl]. change (((q, e) :: l).*1) with (q :: l.*1).
    replace (sweep_entry time_now live (rm, c) (q, e))
      with (if expired_and_unused time_now live (Cache.expiry_seconds c) (q, e)
            then (rm ++ [q], c)
            else if bool_decide (is_Some (live !! q))
                 then (rm, Cache.bump time_now q c) else (rm, c))
      by reflexivity.
    destruct (expired_and_unused time_now live (Cache.expiry_seconds c) (q, e))
      eqn:Hrm.
    + destruct (IH (rm ++ [q]) c) as (He & Hd & Hl & Hr). cbn zeta in *.
      rewrite He, Hd, Hr. split; [done|]. split; [done|]. split.
      * intros p. rewrite Hl.
        apply andb_true_iff in Hrm as [_ Hdead].
        apply negb_true_iff, bool_decide_eq_false in Hdead. simpl in Hdead.
        repeat case_bool_decide; try done.
        -- exfalso. set_solver.
        -- exfalso. set_solver.
      * cbn [List.filter]. rewrite Hrm. simpl. by rewrite <- app_assoc.
    + cbn [List.filter]. rewrite Hrm.
      case_bool_decide as Hlive.
      * destruct (IH rm (Cache.bump time_now q c)) as (He & Hd & Hl & Hr).
        cbn zeta in *. rewrite He, Hd, Hr.
        split; [done|]. split; [done|]. split; [|done].
        intros p. rewrite Hl. simpl.
        destruct (decide (p = q)) as [->|Hne].
        -- rewrite lookup_alter_eq.
           rewrite (bool_decide_eq_true_2 (q ∈ q :: l.*1 ∧ _)) by set_solver.
           case_bool_decide; [|done].
           by destruct (Cache.data c !! q).
        -- rewrite lookup_alter_ne by done.
           repeat case_bool_decide; try done; exfalso; set_solver.
      * destruct (IH rm c) as (He & Hd & Hl & Hr).
        cbn zeta in *. rewrite He, Hd, Hr.
        split; [done|]. split; [done|]. split; [|done].
        intros p. rewrite Hl. simpl in Hlive.
        repeat case_bool_decide; try done; exfalso; set_solver.
Qed.

Lemma cache_cleanup_swept (c : Cache.t) :
  swept time_now live c (cache_cleanup time_now live c).2.
Proof.
  unfold cache_cleanup, Cache.items. cbn [snd].
  destruct (sweep_fold (map_to_list (Cache.data c)) [] c) as (He & Hd & Hl & Hr).
  cbn zeta in *. split; [simpl; exact He|].
  intros path. cbn [Cache.remove Cache.data]. rewrite Hr. cbn [app].
  destruct (Cache.data c !! path) as [e|] eqn:Hc.
  - assert (Hin : (path, e) ∈ map_to_list (Cache.data c))
      by by apply elem_of_map_to_list.
    case_bool_decide as Hlive.
    + rewrite lookup_foldr_delete_not_elem_of.
      * rewrite Hl, Hc. rewrite bool_decide_eq_true_2; [done|].
        split; [|done]. apply list_elem_of_fmap. by exists (path, e).
      * intros Hrm. apply list_elem_of_fmap in Hrm as ([q e'] & -> & Hf).
        apply list_elem_of_In, filter_In in Hf as [_ Hf].
        apply andb_true_iff in Hf as [_ Hf].
        apply negb_true_iff, bool_decide_eq_false in Hf. done.
    + destruct (CacheEntry.expired time_now (Cache.expiry_seconds c) e) eqn:Hex.
      * apply lookup_foldr_delete. apply list_elem_of_fmap. exists (path, e).
        split; [done|]. apply list_elem_of_In, filter_In. split.
        -- by apply list_elem_of_In.
        -- unfold expired_and_unused. simpl. rewrite Hex.
           by rewrite bool_decide_eq_false_2.
      * rewrite lookup_foldr_delete_not_elem_of.
        -- rewrite Hl, Hc. rewrite bool_decide_eq_false_2; [done|]. by intros [_ ?].
        -- intros Hrm. apply list_elem_of_fmap in Hrm as ([q e'] & -> & Hf).
           apply list_elem_of_In, filter_In in Hf as [Hf1 Hf].
           apply list_elem_of_In, elem_of_map_to_list in Hf1. simpl in *.
           assert (e' = e) as -> by congruence.
           apply andb_true_iff in Hf as [Hf _]. simpl in Hf. congruence.
  - rewrite lookup_foldr_delete_not_elem_of.
    + rewrite Hl, Hc. by case_bool_decide.
    + intros Hrm. apply list_elem_of_fmap in Hrm as ([q e'] & -> & Hf).
      apply list_elem_of_In, filter_In in Hf as [Hf1 _].
      apply list_elem_of_In, elem_of_map_to_list in Hf1. simpl in *. congruence.
Qed.

Lemma cache_cleanup_changed (c : Cache.t) :
  Cache.changed (cache_cleanup time_now live c).2 = true
  ↔ Cache.changed c = true ∨ sweep_drops time_now live c.
Proof.
  unfold cache_cleanup, Cache.items, Cache.changed. cbn [snd].
  destruct (sweep_fold (map_to_list (Cache.data c)) [] c) as (He & Hd & Hl & Hr).
  cbn zeta in *. cbn [Cache.remove Cache.dirty]. rewrite Hd, Hr. cbn [app].
  rewrite orb_true_iff, existsb_exists.
  apply or_iff_compat_l. split.
  - intros (p & Hp & Hsome). apply bool_decide_eq_true in Hsome.
    apply list_elem_of_In, list_elem_of_fmap in Hp as ([q e] & -> & Hf).
    apply list_elem_of_In, filter_In in Hf as [Hin Hf].
    apply list_elem_of_In, elem_of_map_to_list in Hin.
    apply andb_true_iff in Hf as [Hex Hdead].
    apply negb_true_iff, bool_decide_eq_false in Hdead. cbn [fst snd] in *.
    exists q, e. split; [done|]. split; [by apply eq_None_not_Some|done].
  - intros (path & e & Hc & Hdead & Hex).
    assert (Hin : (path, e) ∈ map_to_list (Cache.data c))
      by by apply elem_of_map_to_list.
    exists path. split.
    + apply list_elem_of_In, list_elem_of_fmap. exists (path, e). split; [done|].
      apply list_elem_of_In, filter_In. split; [by apply list_elem_of_In|].
      unfold expired_and_unused. cbn [fst snd]. rewrite Hex.
      rewrite bool_decide_eq_false_2; [done|]. rewrite Hdead. by intros [? ?].
    + apply bool_decide_eq_true. rewrite Hl, Hc.
      rewrite bool_decide_eq_false_2; [eauto|].
      intros [_ [? Hlive]]. congruence.
Qed.
End Sweep.

(** ** The end of a cycle *)

Lemma finish_cycle_spec (env : Env) (total : PlotRefreshResult.t) (wa : World) :
  wp (finish_cycle env total) wa (λ r w' j,
    r = Return tt ∧ events j = [] ∧ ¬ In LogAborted j ∧ finished env wa w').
Proof.
  unfold finish_cycle. wp_steps.
  pose proof (cache_cleanup_swept (clock wa) (plots (self wa)) (cache (self wa)))
    as Hswept.
  pose proof (cache_cleanup_changed (clock wa) (plots (self wa)) (cache (self wa)))
    as Hchanged.
  unfold finished. cbn zeta.
  set (c := (cache_cleanup (clock wa) (plots (self wa)) (cache (self wa)))) in *.
  unfold Cache.changed in *.
  destruct (Cache.dirty c.2) eqn:Hdirty; wp_steps.
  - unfold cache_save. destruct (disk_writable env) eqn:Hdisk; norm;
      rewrite ?Hdirty;
      (split; [done|]); (split; [done|]);
      (split; [simpl; intuition discriminate|]);
      repeat (split; [done|]); try done; (split; [exact Hchanged|done]).
  - rewrite Hdirty. split; [done|]. split; [done|].
    split; [simpl; intuition discriminate|].
    repeat (split; [done|]); try done.
Qed.

(** ** The order of the observer calls *)

Lemma events_app (j1 j2 : list Entry) : events (j1 ++ j2) = events j1 ++ events j2.
Proof. apply omap_app. Qed.

Lemma events_batches (rs : list PlotRefreshResult.t) :
  events (Observed batch_processed <$> rs) = (λ _, batch_processed) <$> rs.
Proof. induction rs as [|r rs IH]; [done|]. simpl. by f_equal. Qed.

Lemma batches_then_done_app (rs : list PlotRefreshResult.t)
    (l : list PlotRefreshEvents) :
  batches_then_done (((λ _, batch_processed) <$> rs) ++ l) = batches_then_done l.
Proof. induction rs as [|r rs IH]; [done|]. exact IH. Qed.

Lemma batches_not_aborted (rs : list PlotRefreshResult.t) :
  ¬ In LogAborted (Observed batch_processed <$> rs).
Proof. induction rs as [|r rs IH]; simpl; [tauto|]. intros [?|?]; [done|tauto]. Qed.

Lemma events_observed (ev : PlotRefreshEvents) (r : PlotRefreshResult.t)
    (j : list Entry) :
  events (Observed ev r :: j) = ev :: events j.
Proof. reflexivity. Qed.

(** a journal with a single [LogAborted] splits there in one way only *)
Lemma split_at_abort (pre tail j1 j2 : list Entry) :
  ¬ In LogAborted pre → ¬ In LogAborted tail →
  pre ++ LogAborted :: tail = j1 ++ LogAborted :: j2 → j2 = tail.
Proof.
  revert j1. induction pre as [|p pre IH]; intros j1 Hpre Htail Heq.
  - destruct j1 as [|x j1]; simpl in Heq; [congruence|].
    injection Heq as <- ->. destruct Htail. apply in_or_app. right. by left.
  - destruct j1 as [|x j1]; simpl in Heq.
    + injection Heq as -> _. destruct Hpre. by left.
    + injection Heq as _ Heq. apply (IH j1); [|done|done].
      intros H. apply Hpre. by right.
Qed.

(** What a cycle leaves in the journal, and where it ends when the journal
    says that the cycle was aborted. *)
Lemma refresh_cycle_journal (env : Env) (w : World) :
  wp (refresh_cycle env) w (λ r w' j,
    cycle_order (events j) = true
    ∧ (In LogAborted j →
       r = Return tt
       ∧ (∃ wa, _refreshing_enabled (self wa) = false ∧ finished env wa w')
       ∧ ∀ j1 j2, j = j1 ++ LogAborted :: j2 → events j2 = [])).
Proof.
  unfold refresh_cycle. wp_steps.
  destruct (get_plot_filenames env (root_path (self w))) as [plot_filenames|e]; norm.
  2:{ split; [done|]. intros []. }
  wp_step. wp_use callback_journal.
  2:{ intros ->. split; [done|]. intros [?|[]]. done. }
  intros ->. wp_steps. wp_use reconcile_silent.
  2:{ intros [-> _]. split; [done|]. intros [?|[]]. done. }
  intros [-> _]. wp_steps.
  destruct (list_to_batches _ _) as [batches|e]; norm.
  2:{ split; [done|]. intros [?|[]]. done. }
  wp_step. wp_use batch_loop_journal.
  2:{ intros [rs [->|(-> & [? ?] & _)]]; [|done]. split.
      - simpl. rewrite events_batches. rewrite <- (app_nil_r (_ <$> rs)).
        apply batches_then_done_app.
      - intros [?|H]; [done|]. by apply batches_not_aborted in H. }
  intros [rs [->|(-> & _ & Hoff)]].
  - wp_steps. destruct (_refreshing_enabled (self w2)).
    + wp_use callback_journal.
      2:{ intros ->. rewrite events_observed, events_app, events_batches. split.
          - apply batches_then_done_app.
          - intros [?|H]; [done|]. apply in_app_or in H as [H|[?|[]]]; [|done].
            by apply batches_not_aborted in H. }
      intros ->. wp_use finish_cycle_spec; intros (Hr & Hev & Hna & _); [|done].
      rewrite events_observed, !events_app, events_batches, Hev. split.
      * apply batches_then_done_app.
      * intros [?|H]; [done|]. apply in_app_or in H as [H|[?|H]]; [|done|done].
        by apply batches_not_aborted in H.
    + wp_steps. wp_use finish_cycle_spec; intros (Hr & Hev & Hna & _); [|done].
      rewrite events_observed, !events_app, events_batches, Hev. split.
      * apply batches_then_done_app.
      * intros [?|H]; [done|]. apply in_app_or in H as [H|H]; [|done].
        by apply batches_not_aborted in H.
  - wp_steps. rewrite Hoff. wp_steps.
    wp_use finish_cycle_spec; intros (Hr & Hev & Hna & Hfin); [|done].
    rewrite events_observed, !events_app, events_batches, Hev. split.
    + rewrite <- app_assoc. apply batches_then_done_app.
    + intros _. split; [by destruct a2|]. split; [by exists w2|].
      intros j1 j2 Heq. rewrite <- app_assoc in Heq.
      rewrite app_comm_cons in Heq. apply split_at_abort in Heq as ->; [done| |done].
      intros [?|H]; [done|]. by apply batches_not_aborted in H.
Qed.

Lemma wait_for_refresh_silent (env : Env) (fuel : nat) (w : World) :
  wp (wait_for_refresh env fuel) w (λ r _ j, j = [] ∧ ∃ b, r = Return b).
Proof.
  revert w. induction fuel as [|fuel IH]; intros w; cbn [wait_for_refresh].
  - wp_steps. destruct (_ && _); wp_steps; eauto.
  - wp_steps. destruct (_ && _); wp_steps; [|eauto]. apply IH.
Qed.



(** a run of [m] and then [f] is a run of [m] followed by a run of [f] *)
Lemma bind_assoc {A B C} (m : M A) (f : A → M B) (g : B → M C) (w : World) :
  bind (bind m f) g w = bind m (λ a, bind (f a) g) w.
Proof.
  unfold bind. destruct (m w) as [[[a|e] w1] j1]; [|done].
  destruct (f a w1) as [[[b|e] w2] j2]; [|done].
  destruct (g b w2) as [[r w3] j3]. by rewrite app_assoc.
Qed.

Lemma bind_ext {A B} (m : M A) (f g : A → M B) (w : World) :
  (∀ a w1, f a w1 = g a w1) → bind m f w = bind m g w.
Proof.
  intros H. unfold bind. destruct (m w) as [[[a|e] w1] j1]; [|done]. by rewrite H.
Qed.

Lemma bind_ret_l {A B} (a : A) (f : A → M B) (w : World) :
  bind (ret a) f w = f a w.
Proof. unfold bind, ret. by destruct (f a w) as [[r w2] j2]. Qed.

(** a cycle is its reports followed by its end *)
Lemma refresh_cycle_split (env : Env) (w : World) :
  refresh_cycle env w = bind (cycle_reports env) (finish_cycle env) w.
Proof.
  unfold refresh_cycle, cycle_reports. symmetry.
  repeat (cbv beta zeta; rewrite bind_assoc; apply bind_ext; intros ? ?).
  cbv beta zeta. apply bind_ret_l.
Qed.

(** the reports of a cycle whose journal says that it was aborted *)
Lemma cycle_reports_journal (env : Env) (w : World) :
  wp (cycle_reports env) w (λ r wa j,
    In LogAborted j →
    (∃ total, r = Return total)
    ∧ _refreshing_enabled (self wa) = false
    ∧ ∀ t, ¬ In (Observed done t) j).
Proof.
  unfold cycle_reports. wp_steps.
  destruct (get_plot_filenames env (root_path (self w))) as [plot_filenames|e]; norm.
  2:{ intros []. }
  wp_step. wp_use callback_journal.
  2:{ intros -> [?|[]]. done. }
  intros ->. wp_steps. wp_use reconcile_silent.
  2:{ intros [-> _] [?|[]]. done. }
  intros [-> _]. wp_steps.
  destruct (list_to_batches _ _) as [batches|e]; norm.
  2:{ intros [?|[]]. done. }
  wp_step. wp_use batch_loop_journal.
  2:{ intros [rs [->|(-> & [? ?] & _)]]; [|done].
      intros [?|H]; [done|]. by apply batches_not_aborted in H. }
  intros [rs [->|(-> & _ & Hoff)]].
  - wp_steps. destruct (_refreshing_enabled (self w2)).
    + wp_use callback_journal; intros ->; [wp_steps|].
      all: intros [?|H]; [done|]; exfalso.
      all: rewrite ?app_nil_r in H.
      all: apply in_app_or in H as [H|[?|[]]]; [|done].
      all: by apply batches_not_aborted in H.
    + wp_steps. intros [?|H]; [done|]. exfalso. rewrite ?app_nil_r in H.
      by apply batches_not_aborted in H.
  - wp_steps. rewrite Hoff. wp_steps. intros _.
    split; [eauto|]. split; [done|].
    intros t [?|H]; [done|]. rewrite ?app_nil_r in H.
    apply in_app_or in H as [H|[?|[]]]; [|done].
    clear -H. induction rs as [|r rs IH]; [done|].
    destruct H as [?|?]; [done|by apply IH].
Qed.

(** C9. When a refresh cycle is aborted while batching because refreshing
    was disabled, the cycle still runs to its end.  With [wa] the state in
    which the batching was left, that is the state after lines 143-203, in
    which the flag is off: the cycle returns, and its last state is [wa]
    after lines 205-222, so [_initial] is cleared, the cache of [wa] is
    swept (the entries of the plots that are live in [wa] get their last
    use bumped, the expired entries of other paths are removed, every other
    entry stays as it is), the cache is saved exactly if it was dirty in
    [wa] or the sweep dropped an entry, [last_refresh_time] is the current
    time, and nothing else differs from [wa]; the flag is still off then, so
    that the loop exits at its next test.  Only the observer is left out:
    [done] is not reported, and nothing is reported after the abort. *)
Theorem aborted_cycle_still_finishes (env : Env) (w : World) :
  In LogAborted (journal (refresh_cycle env) w) →
  let wa := final (cycle_reports env) w in
  let w' := final (refresh_cycle env) w in
  (∃ total_result,
     outcome (cycle_reports env) w = Return total_result
     ∧ w' = final (finish_cycle env total_result) wa)
  ∧ _refreshing_enabled (self wa) = false
  ∧ outcome (refresh_cycle env) w = Return tt
  ∧ finished env wa w'
  ∧ _initial (self w') = false
  ∧ last_refresh_time (self w') = clock w'
  ∧ _refreshing_enabled (self w') = false
  ∧ (∀ envs fuel, _refresh_task envs fuel w' = (Return true, w', []))
  ∧ (∀ t, ¬ In (Observed done t) (journal (refresh_cycle env) w))
  ∧ (∀ j1 j2, journal (refresh_cycle env) w = j1 ++ LogAborted :: j2 →
              events j2 = []).
Proof.
  intros Hab wa w'.
  destruct (refresh_cycle_journal env w) as [_ Ha].
  destruct (Ha Hab) as (_ & _ & Hquiet). clear Ha.
  pose proof (cycle_reports_journal env w) as Hrep.
  pose proof (refresh_cycle_split env w) as Hsplit.
  subst wa w'. revert Hab Hrep Hquiet.
  unfold wp, outcome, final, journal. rewrite Hsplit. unfold bind.
  destruct (cycle_reports env w) as [[[total|e] wa] ja]; cbn [fst snd].
  2:{ intros Hab Hrep _. by destruct (Hrep Hab) as ([? ?] & _). }
  pose proof (finish_cycle_spec env total wa) as Hfin.
  unfold wp, outcome, final, journal in Hfin.
  destruct (finish_cycle env total wa) as [[r w'] jf] eqn:Hrun; cbn [fst snd] in *.
  destruct Hfin as (-> & Hev & Hna & Hfin).
  intros Hab Hrep Hquiet. apply in_app_or in Hab as [Hab|Hab]; [|done].
  destruct (Hrep Hab) as (_ & Hoff & Hdone).
  assert (Hoff' : _refreshing_enabled (self w') = false).
  { destruct Hfin as (_ & _ & _ & _ & _ & _ & _ & _ & _ & _ & _ & -> & _).
    exact Hoff. }
  split; [exists total; by rewrite Hrun|]. split; [exact Hoff|]. split; [done|].
  split; [exact Hfin|]. split; [apply Hfin|]. split; [apply Hfin|].
  split; [exact Hoff'|]. split.
  { intros envs fuel. destruct envs; cbn [_refresh_task];
      unfold bind, gets; rewrite Hoff'; reflexivity. }
  split; [|exact Hquiet].
  intros t Hin. apply in_app_or in Hin as [Hin|Hin]; [by apply (Hdone t)|].
  clear -Hev Hin. induction jf as [|e jf IH]; [done|].
  destruct e; cbn in Hev; try done; destruct Hin as [?|?]; try done; by apply IH.
Qed.

Lemma aborted_cycle_still_finishes_witness :
  _refreshing_enabled
    (self (final (cycle_reports stopping_env) (world_of (manager0 false) 1000)))
  = false
  ∧ outcome (refresh_cycle stopping_env) (world_of (manager0 false) 1000) = Return tt
  ∧ finished stopping_env
      (final (cycle_reports stopping_env) (world_of (manager0 false) 1000))
      (final (refresh_cycle stopping_env) (world_of (manager0 false) 1000)).
Proof.
  pose proof (aborted_cycle_still_finishes stopping_env
                (world_of (manager0 false) 1000)) as H.
  cbv zeta in H. destruct H as (_ & H1 & H2 & H3 & _).
  - vm_compute. right. left. reflexivity.
  - exact (conj H1 (conj H2 H3)).
Defined.

(** ** Live plots are not assessed again *)

(** C1, as stated, fails: [/d1/a.plot] is admitted, the farmer allow-list is
    replaced by one without its key, and the next round, which completes and
    reports [done], leaves the plot live and out of the no-key set. *)
Lemma key_rotation_keeps_plot :
  is_Some (plots (self world_s1) !! a_plot)
  ∧ (memo_farmer_public_key (prover_of a_plot) ∉ farmer_public_keys (self world_rotated))
  ∧ (outcome (iteration (quiet_env [a_plot]) 5) world_rotated = Return Continue)
  ∧ (events (journal (iteration (quiet_env [a_plot]) 5) world_rotated)
     = [started; batch_processed; done])
  ∧ (a_plot ∉ no_key_filenames (self world_s4))
  ∧ plot_count (self world_s4) = 1%nat.
Proof.
  split; [vm_compute; eauto|]. split.
  { vm_compute. intros H. apply list_elem_of_singleton in H. discriminate. }
  split; [vm_compute; reflexivity|]. split; [vm_compute; reflexivity|].
  split; [vm_compute; discriminate|]. vm_compute. reflexivity.
Qed.

Section Keeps.
Variables (env : Env) (path : Path).
Hypothesis observer_keeps :
  ∀ ev r w, admitted path w → admitted path (_refresh_callback env ev r w).2.
Hypothesis worker_pool_keeps :
  ∀ w, admitted path w → admitted path (worker_pool env w).

Lemma process_file_frame (p : Path) (w : World) :
  wp (process_file env p) w (λ _ w' _,
    plots (self w') = plots (self w)
    ∧ ∀ q, q ≠ p →
        (q ∈ no_key_filenames (self w') ↔ q ∈ no_key_filenames (self w))).
Proof.
  unfold process_file. wp_auto.
  all: rewrite ?discard_no_key_eq, ?discard_failed_eq; norm.
  all: split; [done|set_solver].
Qed.

Lemma run_workers_frame (ps : list Path) (w : World) :
  path ∉ ps →
  wp (run_workers env ps) w (λ _ w' _,
    plots (self w') = plots (self w)
    ∧ (path ∈ no_key_filenames (self w') ↔ path ∈ no_key_filenames (self w))).
Proof.
  revert w. induction ps as [|p ps IH]; intros w Hnot; cbn [run_workers].
  - by wp_steps.
  - apply not_elem_of_cons in Hnot as [Hne Hnot].
    wp_step. wp_use process_file_frame; intros [Hp Hk].
    2:{ split; [done|]. by apply Hk. }
    wp_step. wp_use (IH w0 Hnot); intros [Hp' Hk'].
    + wp_steps. split; [congruence|]. rewrite Hk'. by apply Hk.
    + split; [congruence|]. rewrite Hk'. by apply Hk.
Qed.

Lemma process_batch_keeps (batch : list Path) (w : World) :
  admitted path w →
  wp (process_batch env batch) w (λ _ w' _, admitted path w').
Proof.
  intros [Hlive Hkey]. unfold process_batch. wp_steps.
  assert (Hnot : path ∉ List.filter (processing_required (self w) (clock w)) batch).
  { intros Hin. apply list_elem_of_In, filter_In in Hin as [_ Hin].
    by rewrite processing_required_live in Hin. }
  wp_use (run_workers_frame _ w Hnot); intros [Hp Hk].
  2:{ split; [by rewrite Hp|by rewrite Hk]. }
  wp_steps.
  destruct (worker_pool_keeps w0) as [Hlive' Hkey'].
  { split; [by rewrite Hp|by rewrite Hk]. }
  split; [|done]. norm. apply lookup_union_is_Some. by right.
Qed.

Lemma callback_keeps (ev : PlotRefreshEvents) (r : PlotRefreshResult.t) (w : World) :
  admitted path w → wp (callback env ev r) w (λ _ w' _, admitted path w').
Proof. intros H. unfold callback. wp_steps. by apply observer_keeps. Qed.

Lemma batch_loop_keeps (batches : list (Z * list Path))
    (total : PlotRefreshResult.t) (w : World) :
  admitted path w →
  wp (batch_loop env batches total) w (λ _ w' _, admitted path w').
Proof.
  revert total w. induction batches as [|[remaining batch] rest IH];
    intros total w H; cbn [batch_loop].
  - by wp_steps.
  - wp_step. wp_use (process_batch_keeps batch w H); intros H1; [|done].
    wp_steps. destruct (negb _); [by wp_steps|].
    wp_step. wp_use callback_keeps; intros H2; [|done].
    destruct (remaining =? 0); [by wp_steps|]. by apply IH.
Qed.

Lemma prune_no_key_subseteq (plot_paths l : list Path) (ks : gset Path) :
  foldr (λ p ks, if bool_decide (p ∈ plot_paths) then ks else ks ∖ {[p]}) ks l ⊆ ks.
Proof.
  induction l as [|p l IH]; simpl; [done|]. case_bool_decide; set_solver.
Qed.

Lemma reconcile_fold_keeps (plot_paths : list Path)
    (l : list (string * (string * gset string))) (acc : Reconcile) :
  path ∈ plot_paths →
  is_Some (rc_plots acc !! path) →
  is_Some (rc_plots (foldl (reconcile_entry plot_paths) acc l) !! path).
Proof.
  intros Hin. revert acc. induction l as [|item l IH]; intros acc Hlive; [done|].
  cbn [foldl]. apply IH. unfold reconcile_entry.
  case_bool_decide as Hgone; cbn [negb rc_plots]; [done|].
  case_bool_decide; [|done].
  rewrite lookup_delete_ne; [done|]. by intros <-.
Qed.

Lemma reconcile_keeps (plot_paths : list Path) (w : World) :
  path ∈ plot_paths → admitted path w →
  wp (reconcile plot_paths) w (λ _ w' _, admitted path w').
Proof.
  intros Hin [Hlive Hkey]. unfold reconcile. wp_steps.
  split; [|done]. norm. by apply reconcile_fold_keeps.
Qed.

Lemma refresh_cycle_keeps (w : World) (plot_filenames : list (string * list Path)) :
  get_plot_filenames env (root_path (self w)) = Return plot_filenames →
  path ∈ concat plot_filenames.*2 →
  admitted path w →
  wp (refresh_cycle env) w (λ _ w' _, admitted path w').
Proof.
  intros Hwalk Hin H. unfold refresh_cycle. wp_steps. rewrite Hwalk. norm.
  wp_step. wp_use callback_keeps; intros [Hlive Hkey]; [|done].
  wp_steps.
  match goal with
  | |- wp _ ?w1 _ => assert (Hpruned : admitted path w1)
  end.
  { split; [exact Hlive|]. norm. unfold prune_no_key. norm.
    intros Hk. apply prune_no_key_subseteq in Hk. done. }
  wp_use reconcile_keeps; intros H1; [|done].
  wp_steps.
  destruct (list_to_batches _ _) as [batches|e]; norm; [|done].
  wp_step. wp_use batch_loop_keeps; intros H2; [|done].
  wp_steps. destruct (_refreshing_enabled (self w2)).
  - wp_use callback_keeps; intros H3; [|done].
    wp_use finish_cycle_spec; intros (Hr & _ & _ & Hfin); [|done].
    destruct Hfin as (_ & _ & _ & _ & _ & Hp & _ & _ & Hk & _).
    destruct H3. split; [by rewrite Hp|by rewrite Hk].
  - wp_steps.
    wp_use finish_cycle_spec; intros (Hr & _ & _ & Hfin); [|done].
    destruct Hfin as (_ & _ & _ & _ & _ & Hp & _ & _ & Hk & _).
    destruct H2. split; [by rewrite Hp|by rewrite Hk].
Qed.
End Keeps.

(** C1, amended. If a path is in the live plots map (and not in the no-key
    set) and [set_public_keys] then replaces the allow-lists, by whatever
    lists, then the next refresh cycle in which the file is still among the
    candidates, and in which neither the observer nor another thread takes
    the plot away, does not assess the plot again: [processing_required]
    refuses it, it stays in the live plots map, it is not moved into the
    no-key set, and [plot_count()] is not 0. *)
Theorem live_plot_survives_key_rotation (env : Env) (w0 : World)
    (farmer pool : list G1Element) (path : Path)
    (plot_filenames : list (string * list Path)) :
  let w := set_self (set_public_keys farmer pool (self w0)) w0 in
  let w' := final (refresh_cycle env) w in
  admitted path w0 →
  get_plot_filenames env (root_path (self w0)) = Return plot_filenames →
  path ∈ concat plot_filenames.*2 →
  (∀ ev r w1, admitted path w1 → admitted path (_refresh_callback env ev r w1).2) →
  (∀ w1, admitted path w1 → admitted path (worker_pool env w1)) →
  (∀ time_now, processing_required (self w) time_now path = false)
  ∧ is_Some (plots (self w') !! path)
  ∧ (path ∉ no_key_filenames (self w'))
  ∧ plot_count (self w') ≠ 0%nat.
Proof.
  intros w w' Hadm Hwalk Hin Hobs Hpool.
  assert (Hw : admitted path w) by exact Hadm.
  split.
  { intros t. apply processing_required_live. apply Hw. }
  pose proof (refresh_cycle_keeps env path Hobs Hpool w plot_filenames Hwalk Hin Hw)
    as [Hlive Hkey].
  fold w' in Hlive, Hkey. split; [exact Hlive|]. split; [exact Hkey|].
  unfold plot_count. intros Hsize. apply map_size_empty_inv in Hsize.
  rewrite Hsize in Hlive. destruct Hlive as [? Hl]. by rewrite lookup_empty in Hl.
Qed.

Lemma live_plot_survives_key_rotation_witness :
  is_Some (plots (self (final (refresh_cycle (quiet_env [a_plot])) world_rotated))
           !! a_plot)
  ∧ a_plot ∉ no_key_filenames
               (self (final (refresh_cycle (quiet_env [a_plot])) world_rotated)).
Proof.
  pose proof (live_plot_survives_key_rotation (quiet_env [a_plot]) world_s1
                ["F2"] ["P1"] a_plot [("/plots", [a_plot])]) as H.
  cbv zeta in H. destruct H as (_ & H1 & H2 & _).
  - split; [vm_compute; eauto|vm_compute; discriminate].
  - reflexivity.
  - vm_compute. left.
  - intros ev r w1 Hw1. exact Hw1.
  - intros w1 Hw1. exact Hw1.
  - exact (conj H1 H2).
Defined.

(** * Further properties of the code *)

(** ** Tools *)

(** a step whose run does not matter *)
Ltac wp_any :=
  eapply wp_mono;
  [|exact (proj2 (wp_run _ _ (λ _ _ _, True)) (λ _ _ _ _, I))];
  let r := fresh "r" in
  let w := fresh "w" in
  let j := fresh "j" in
  intros r w j _; destruct r; cbn beta iota.

Lemma wp_and {A} (m : M A) (w : World) (Q1 Q2 : result A → World → list Entry → Prop) :
  wp m w Q1 → wp m w Q2 → wp m w (λ r w' j, Q1 r w' j ∧ Q2 r w' j).
Proof. unfold wp. auto. Qed.

Lemma path_eta (p : Path) : mkPath (parent p) (name p) = p.
Proof. by destruct p. Qed.

Lemma flat_map_bind {A B} (f : A → list B) (l : list A) : flat_map f l = l ≫= f.
Proof. induction l as [|x l IH]; [done|]. simpl. by rewrite IH. Qed.

Lemma filter_all_false {A} (f : A → bool) (l : list A) :
  (∀ x, x ∈ l → f x = false) → List.filter f l = [].
Proof.
  induction l as [|x l IH]; intros H; [done|]. cbn [List.filter].
  rewrite (H x) by by left. apply IH. intros y Hy. apply H. by right.
Qed.

(** right after [last_refresh_time = time.time()] a refresh is due only for
    a negative interval *)
Lemma needs_refresh_after_refresh (w : World) :
  last_refresh_time (self w) = clock w →
  needs_refresh w
  = (PlotsRefreshParameter.interval_seconds (refresh_parameter (self w)) <? 0).
Proof.
  intros Hlast. unfold needs_refresh. rewrite Hlast.
  set (i := PlotsRefreshParameter.interval_seconds (refresh_parameter (self w))).
  destruct (i <? 0) eqn:Hi.
  - apply Qltb_lt. apply Z.ltb_lt in Hi.
    assert (inject_Z i < 0)%Q by (rewrite Zlt_Qlt in Hi; exact Hi). lra.
  - apply not_true_is_false. intros H. apply Qltb_lt in H. apply Z.ltb_ge in Hi.
    assert (0 <= inject_Z i)%Q by (rewrite Zle_Qle in Hi; exact Hi). lra.
Qed.

(** ** The facade *)

(** X1. [reset()] empties what the manager knows of the plots and puts off
    the next refresh: afterwards [plot_count()] is 0, [get_duplicates()] is
    empty, [initial_refresh()] is true, and [needs_refresh()] is false
    unless the interval is negative; the cache, the allow-lists and the
    enabled flag are left as they are, and a second [reset()] at the same
    time changes nothing. *)
Theorem reset_postpones_refresh (w : World) :
  let w' := reset w in
  needs_refresh w'
  = (PlotsRefreshParameter.interval_seconds (refresh_parameter (self w)) <? 0)
  ∧ plot_count (self w') = 0%nat
  ∧ get_duplicates (self w') = []
  ∧ initial_refresh (self w') = true
  ∧ cache (self w') = cache (self w)
  ∧ farmer_public_keys (self w') = farmer_public_keys (self w)
  ∧ pool_public_keys (self w') = pool_public_keys (self w)
  ∧ _refreshing_enabled (self w') = _refreshing_enabled (self w)
  ∧ reset w' = w'.
Proof.
  cbn zeta. split; [|done].
  by rewrite needs_refresh_after_refresh.
Qed.

(** X2. [public_keys_available()] is [len(farmer) and len(pool)], a number:
    it is not 0 exactly when both allow-lists are not empty, and it is then
    the length of the pool list; it is 0 for a new manager, and after
    [set_public_keys(farmer, pool)] it is not 0 exactly when neither of the
    two lists given is empty. *)
Theorem public_keys_available_spec (s : PlotManager) (farmer pool : list G1Element)
    (root : string) (m : option string) (o : bool) (param : PlotsRefreshParameter.t)
    (expiry : Z) :
  (public_keys_available s ≠ 0%nat
   ↔ farmer_public_keys s ≠ [] ∧ pool_public_keys s ≠ [])
  ∧ (farmer_public_keys s ≠ [] → public_keys_available s = length (pool_public_keys s))
  ∧ public_keys_available (new root m o param expiry) = 0%nat
  ∧ (public_keys_available (set_public_keys farmer pool s) ≠ 0%nat
     ↔ farmer ≠ [] ∧ pool ≠ []).
Proof.
  assert (H : ∀ s', public_keys_available s' ≠ 0%nat
                    ↔ farmer_public_keys s' ≠ [] ∧ pool_public_keys s' ≠ []).
  { intros s'. unfold public_keys_available.
    destruct (farmer_public_keys s'), (pool_public_keys s'); simpl; naive_solver. }
  split; [apply H|]. split.
  - unfold public_keys_available. by destruct (farmer_public_keys s).
  - split; [reflexivity|]. apply (H (set_public_keys farmer pool s)).
Qed.

(** X3. [get_duplicates()] lists exactly the paths [parent / basename] for
    which [parent] is in the duplicates set recorded for [basename], each of
    them once.  The path of a primary is therefore listed exactly when its
    parent is in the duplicates set of its own basename, which is what
    [process_file] makes of a second look at the primary. *)
Theorem get_duplicates_spec (s : PlotManager) :
  (∀ p, p ∈ get_duplicates s ↔
        ∃ primary duplicates,
          plot_filename_paths s !! name p = Some (primary, duplicates)
          ∧ parent p ∈ duplicates)
  ∧ NoDup (get_duplicates s)
  ∧ (∀ n primary duplicates,
       plot_filename_paths s !! n = Some (primary, duplicates) →
       (mkPath primary n ∈ get_duplicates s ↔ primary ∈ duplicates)).
Proof.
  assert (Hmem : ∀ p, p ∈ get_duplicates s ↔
            ∃ primary duplicates,
              plot_filename_paths s !! name p = Some (primary, duplicates)
              ∧ parent p ∈ duplicates).
  { unfold get_duplicates. rewrite flat_map_bind.
    intros p. rewrite list_elem_of_bind. split.
    + intros ([n [primary dups]] & Hp & Hkv). cbn [fst snd] in Hp.
      apply list_elem_of_fmap in Hp as (d & -> & Hd).
      apply elem_of_elements in Hd. apply elem_of_map_to_list in Hkv.
      exists primary, dups. done.
    + intros (primary & dups & Hentry & Hd).
      exists (name p, (primary, dups)). split.
      * cbn [fst snd]. apply list_elem_of_fmap. exists (parent p).
        split; [by rewrite path_eta|]. by apply elem_of_elements.
      * by apply elem_of_map_to_list. }
  split; [exact Hmem|]. split.
  - unfold get_duplicates. rewrite flat_map_bind. apply NoDup_bind.
    + intros [n1 [p1 d1]] [n2 [p2 d2]] y H1 H2 Hy1 Hy2. cbn [fst snd] in *.
      apply list_elem_of_fmap in Hy1 as (x1 & -> & _).
      apply list_elem_of_fmap in Hy2 as (x2 & [= -> ->] & _).
      apply elem_of_map_to_list in H1, H2. congruence.
    + intros [n [p d]] _. cbn [fst snd]. apply NoDup_fmap_2_strong.
      * intros x y _ _ [= ->]. done.
      * apply NoDup_elements.
    + apply NoDup_map_to_list.
  - intros n primary duplicates Hentry. rewrite Hmem. cbn [name parent]. split.
    + intros (primary' & duplicates' & Hentry' & Hin). congruence.
    + intros Hin. by exists primary, duplicates.
Qed.

(** The primary [/d1/a.plot] is looked at again: it is then listed among
    the duplicates. *)
Example primary_listed_as_duplicate :
  get_duplicates
    (self (final (process_file (quiet_env []) a_plot) (world_of (manager_d1 false) 0)))
  = [a_plot].
Proof. vm_compute. reflexivity. Qed.

(** X4. [trigger_refresh()] sets [last_refresh_time] to 0: when the clock is
    past the interval, [needs_refresh()] is true at once and the polling
    loop of [_refresh_task] is left without sleeping, whatever the time of
    the last refresh was. *)
Theorem trigger_refresh_ends_wait (env : Env) (fuel : nat) (w : World) :
  (inject_Z (PlotsRefreshParameter.interval_seconds (refresh_parameter (self w)))
   < clock w)%Q →
  needs_refresh (trigger_refresh w) = true
  ∧ wait_for_refresh env fuel (trigger_refresh w)
    = (Return true, trigger_refresh w, []).
Proof.
  intros Hlate.
  assert (Hneeds : needs_refresh (trigger_refresh w) = true).
  { unfold needs_refresh, trigger_refresh. norm. apply Qltb_lt. lra. }
  split; [exact Hneeds|].
  destruct fuel; cbn [wait_for_refresh]; unfold bind, get_world;
    rewrite Hneeds; reflexivity.
Qed.

Lemma trigger_refresh_ends_wait_witness :
  needs_refresh (trigger_refresh world_s1) = true
  ∧ wait_for_refresh (quiet_env []) 3 (trigger_refresh world_s1)
    = (Return true, trigger_refresh world_s1, []).
Proof.
  apply (trigger_refresh_ends_wait (quiet_env []) 3 world_s1).
  vm_compute. reflexivity.
Defined.

(** ** The admission pre-filter: retries and the match string *)

(** X5. A path with a failed-open record of time [T] that would be processed
    had it no such record is processed exactly from [T] plus
    [retry_invalid_seconds] on: the record holds the path back for that
    long and no longer. *)
Theorem failed_path_retry_threshold (s : PlotManager) (time_now : Q)
    (file_path : Path) (T : Z) :
  failed_to_open_filenames s !! file_path = Some T →
  processing_required
    (set_failed_to_open_filenames (delete file_path (failed_to_open_filenames s)) s)
    time_now file_path = true →
  processing_required s time_now file_path = true
  ↔ (inject_Z T + inject_Z (PlotsRefreshParameter.retry_invalid_seconds
                              (refresh_parameter s)) <= time_now)%Q.
Proof.
  intros Hfailed Hother.
  apply processing_required_spec in Hother as (Hen & Hm & _ & Hp & Hd).
  norm in *. rewrite processing_required_spec. split.
  - intros (_ & _ & Hf & _). specialize (Hf T Hfailed).
    apply Qnot_lt_le in Hf. lra.
  - intros Hlate. split; [done|]. split; [done|]. split; [|done].
    intros t Ht. assert (t = T) as -> by congruence. lra.
Qed.

Lemma failed_path_retry_threshold_witness :
  processing_required manager_failed 1300 a_plot = true
  ↔ (inject_Z 100 + inject_Z 1200 <= 1300)%Q.
Proof.
  apply (failed_path_retry_threshold manager_failed 1300 a_plot 100).
  - reflexivity.
  - vm_compute. reflexivity.
Defined.

Lemma prefix_spec (a s : string) :
  String.prefix a s = true ↔ ∃ post, s = a +:+ post.
Proof.
  revert s. induction a as [|c a IH]; intros s.
  - split; [|by destruct s]. intros _. by exists s.
  - destruct s as [|c' s]; simpl.
    + split; [done|]. by intros [post [=]].
    + destruct (Ascii.ascii_dec c c') as [->|Hne].
      * rewrite IH. split; intros [post Hp]; exists post.
        -- by rewrite Hp.
        -- by injection Hp.
      * split; [done|]. intros [post [= ? _]]. done.
Qed.

(** [needle in s] holds exactly when [needle] is a substring of [s] *)
Lemma str_contains_spec (needle s : string) :
  str_contains needle s = true ↔ ∃ pre post, s = pre +:+ needle +:+ post.
Proof.
  induction s as [|c s IH]; cbn [str_contains].
  - destruct (String.prefix needle "") eqn:Hp.
    + split; [|done]. intros _. apply prefix_spec in Hp as [post Hp].
      by exists "", post.
    + split; [done|]. intros (pre & post & Hs). destruct pre as [|? ?]; [|done].
      apply not_true_iff_false in Hp. destruct Hp. apply prefix_spec. by exists post.
  - destruct (String.prefix needle (String c s)) eqn:Hp.
    + split; [|done]. intros _. apply prefix_spec in Hp as [post Hp].
      by exists "", post.
    + rewrite IH. split.
      * intros (pre & post & ->). by exists (String c pre), post.
      * intros (pre & post & Hs). destruct pre as [|c' pre].
        -- apply not_true_iff_false in Hp. destruct Hp. apply prefix_spec.
           by exists post.
        -- injection Hs as -> ->. by exists pre, post.
Qed.

(** X6. With a match string set, [processing_required] lets a path through
    only if the match string occurs in [str(file_path)], the string of the
    POSIX path: the directory part and the separator are included, the
    parent [.] of a path without directory part is not. *)
Theorem match_str_selects_paths (s : PlotManager) (time_now : Q) (file_path : Path)
    (m : string) :
  match_str s = Some m →
  processing_required s time_now file_path = true →
  ∃ pre post, path_str file_path = pre +:+ m +:+ post.
Proof.
  intros Hm Hreq. apply processing_required_spec in Hreq as (_ & Hmatch & _).
  apply str_contains_spec. by apply Hmatch.
Qed.

Lemma match_str_selects_paths_witness :
  ∃ pre post, path_str a_plot = pre +:+ "d1" +:+ post.
Proof.
  apply (match_str_selects_paths manager_matching 1000 a_plot "d1").
  - reflexivity.
  - vm_compute. reflexivity.
Defined.

(** A path without directory part has no separator in its string: a match
    string [/] refuses it. *)
Example bare_name_has_no_separator :
  path_str (mkPath "." "a.plot") = "a.plot"
  ∧ processing_required manager_matching_slash 1000 (mkPath "." "a.plot") = false
  ∧ processing_required manager_matching_slash 1000 a_plot = true.
Proof. vm_compute. done. Qed.

(** ** The worker: what it records and what it leaves alone *)

Lemma process_file_fails (env : Env) (file_path : Path) (w : World) :
  load_file env file_path = Return None →
  process_file env file_path w
  = (Return None,
     set_self (set_failed_to_open_filenames
                 (<[file_path := int_of (clock w)]> (failed_to_open_filenames (self w)))
                 (self w)) w, []).
Proof. intros Hload. unfold process_file, bind, lift. rewrite Hload. reflexivity. Qed.

(** X7. When [load_file] finds nothing that parses, [process_file] returns
    [None] and does nothing but record the path in the failed-open table
    with the current time cut to an integer; the pre-filter then refuses the
    path until [retry_invalid_seconds] have passed since that time. *)
Theorem failed_open_is_recorded (env : Env) (file_path : Path) (w : World) :
  load_file env file_path = Return None →
  let w' := final (process_file env file_path) w in
  outcome (process_file env file_path) w = Return None
  ∧ self w'
    = set_failed_to_open_filenames
        (<[file_path := int_of (clock w)]> (failed_to_open_filenames (self w)))
        (self w)
  ∧ failed_to_open_filenames (self w') !! file_path = Some (int_of (clock w))
  ∧ (∀ time_now,
       (time_now < inject_Z (int_of (clock w))
                   + inject_Z (PlotsRefreshParameter.retry_invalid_seconds
                                 (refresh_parameter (self w))))%Q →
       processing_required (self w') time_now file_path = false).
Proof.
  intros Hload w'. subst w'. unfold outcome, final.
  rewrite (process_file_fails env file_path w Hload). cbn [fst snd self set_self].
  split; [done|]. split; [done|].
  split; [cbn [failed_to_open_filenames set_failed_to_open_filenames];
          apply lookup_insert_eq|].
  intros t Ht. apply not_true_is_false. intros H.
  apply processing_required_spec in H as (_ & _ & H & _).
  apply (H (int_of (clock w))).
  - cbn [failed_to_open_filenames set_failed_to_open_filenames]. apply lookup_insert_eq.
  - cbn [refresh_parameter set_failed_to_open_filenames]. lra.
Qed.

Lemma failed_open_is_recorded_witness :
  outcome (process_file failing_env a_plot) (world_of (manager0 false) 1000) = Return None
  ∧ failed_to_open_filenames
      (self (final (process_file failing_env a_plot) (world_of (manager0 false) 1000)))
    !! a_plot = Some 1000.
Proof.
  pose proof (failed_open_is_recorded failing_env a_plot
                (world_of (manager0 false) 1000)) as H.
  cbv zeta in H. destruct H as (H1 & _ & H2 & _).
  - reflexivity.
  - exact (conj H1 H2).
Defined.

Lemma process_file_loads (env : Env) (file_path : Path) (w : World)
    (stat_info : stat_result) (prover : DiskProver) :
  load_file env file_path = Return (Some (stat_info, prover)) →
  size_check_fails env stat_info prover = Return false →
  CacheEntry.farmer_public_key (entry_used file_path w prover)
    ∈ farmer_public_keys (self w) →
  (∀ k, CacheEntry.pool_public_key (entry_used file_path w prover) = Some k →
        k ∈ pool_public_keys (self w)) →
  plot_filename_paths (self w) !! name file_path = None →
  wp (process_file env file_path) w (λ r w' _,
    r = Return (Some (plot_info_of (entry_used file_path w prover) stat_info))
    ∧ plot_filename_paths (self w')
      = <[name file_path :=
            (parent (get_filename
                       (CacheEntry.prover (entry_used file_path w prover))), ∅)]>
          (plot_filename_paths (self w))
    ∧ no_key_filenames (self w') = no_key_filenames (self w) ∖ {[file_path]}
    ∧ failed_to_open_filenames (self w')
      = delete file_path (failed_to_open_filenames (self w))
    ∧ Cache.get file_path (cache (self w'))
      = Some (CacheEntry.bump_last_use (clock w) (entry_used file_path w prover))
    ∧ plots (self w') = plots (self w)).
Proof.
  intros Hload Hsize Hfarmer Hpool Hnew. revert Hfarmer Hpool.
  unfold wp, entry_used. to_wp. enter_process_file Hload Hsize.
  destruct (Cache.get file_path (cache (self w))) as [e|] eqn:Hget;
    cbn [default from_option id]; wp_auto; intros Hfarmer Hpool.
  all: rewrite ?discard_no_key_eq, ?discard_failed_eq in *; norm in *.
  all: repeat match goal with
         | H : negb _ = true |- _ => apply negb_true_iff in H
         | H : negb _ = false |- _ => apply negb_false_iff in H
         | H : bool_decide _ = true |- _ => apply bool_decide_eq_true in H
         | H : bool_decide _ = false |- _ => apply bool_decide_eq_false in H
         end.
  all: try congruence.
  all: try contradiction.
  all: try match goal with
       | H : match ?o with Some _ => _ | None => _ end = true |- _ =>
           exfalso; destruct o as [k|] eqn:Hk; [|discriminate];
           apply negb_true_iff, bool_decide_eq_false in H;
           apply H, Hpool; reflexivity
       end.
  all: unfold Cache.get, Cache.bump, Cache.update in *; cbn [Cache.data].
  all: rewrite ?lookup_alter_eq, ?lookup_insert_eq, ?Hget; cbn [fmap option_fmap option_map].
  all: repeat match goal with |- _ ∧ _ => split end; try done.
Qed.

(** X8. A file that parses, passes the size check, has an allowed farmer
    key, an allowed pool key or none, and a basename that is not registered
    yet, is loaded: [process_file] returns the descriptor built from the
    cache entry and the file's size and modification time, registers the
    basename with the parent directory of the prover's file name as primary
    and no duplicates, takes the path out of the no-key set and of the
    failed-open table, and bumps the last use of the cache entry.  The live
    plots map is not touched by [process_file]. *)
Theorem allowed_plot_is_loaded (env : Env) (file_path : Path) (w : World)
    (stat_info : stat_result) (prover : DiskProver) :
  load_file env file_path = Return (Some (stat_info, prover)) →
  size_check_fails env stat_info prover = Return false →
  let e := entry_used file_path w prover in
  CacheEntry.farmer_public_key e ∈ farmer_public_keys (self w) →
  (∀ k, CacheEntry.pool_public_key e = Some k → k ∈ pool_public_keys (self w)) →
  plot_filename_paths (self w) !! name file_path = None →
  let w' := final (process_file env file_path) w in
  outcome (process_file env file_path) w = Return (Some (plot_info_of e stat_info))
  ∧ plot_filename_paths (self w')
    = <[name file_path := (parent (get_filename (CacheEntry.prover e)), ∅)]>
        (plot_filename_paths (self w))
  ∧ no_key_filenames (self w') = no_key_filenames (self w) ∖ {[file_path]}
  ∧ failed_to_open_filenames (self w')
    = delete file_path (failed_to_open_filenames (self w))
  ∧ Cache.get file_path (cache (self w'))
    = Some (CacheEntry.bump_last_use (clock w) e)
  ∧ plots (self w') = plots (self w).
Proof.
  intros Hload Hsize e Hfarmer Hpool Hnew.
  exact (process_file_loads env file_path w stat_info prover
           Hload Hsize Hfarmer Hpool Hnew).
Qed.

Lemma allowed_plot_is_loaded_witness :
  outcome (process_file (quiet_env []) a_plot) (world_of (manager0 false) 1000)
  = Return (Some (plot_info_of
                    (entry_used a_plot (world_of (manager0 false) 1000)
                                (prover_of a_plot)) stat_a))
  ∧ plots (self (final (process_file (quiet_env []) a_plot)
                       (world_of (manager0 false) 1000)))
    = plots (manager0 false).
Proof.
  pose proof (allowed_plot_is_loaded (quiet_env []) a_plot
                (world_of (manager0 false) 1000) stat_a (prover_of a_plot)) as H.
  cbv zeta in H. destruct H as (H1 & _ & _ & _ & _ & H2).
  - reflexivity.
  - vm_compute. reflexivity.
  - vm_compute. apply list_elem_of_singleton. reflexivity.
  - intros k Hk. vm_compute in Hk. injection Hk as <-.
    apply list_elem_of_singleton. reflexivity.
  - reflexivity.
  - exact (conj H1 H2).
Defined.

Lemma process_file_elsewhere (env : Env) (file_path : Path) (w : World) :
  wp (process_file env file_path) w (λ _ w' j,
    j = []
    ∧ plots (self w') = plots (self w)
    ∧ farmer_public_keys (self w') = farmer_public_keys (self w)
    ∧ pool_public_keys (self w') = pool_public_keys (self w)
    ∧ root_path (self w') = root_path (self w)
    ∧ match_str (self w') = match_str (self w)
    ∧ open_no_key_filenames (self w') = open_no_key_filenames (self w)
    ∧ last_refresh_time (self w') = last_refresh_time (self w)
    ∧ refresh_parameter (self w') = refresh_parameter (self w)
    ∧ _refreshing_enabled (self w') = _refreshing_enabled (self w)
    ∧ _initial (self w') = _initial (self w)
    ∧ clock w' = clock w
    ∧ cache_file w' = cache_file w
    ∧ (∀ q, q ≠ file_path →
         (q ∈ no_key_filenames (self w') ↔ q ∈ no_key_filenames (self w))
         ∧ failed_to_open_filenames (self w') !! q
           = failed_to_open_filenames (self w) !! q
         ∧ Cache.data (cache (self w')) !! q = Cache.data (cache (self w)) !! q)
    ∧ (∀ n, n ≠ name file_path →
         plot_filename_paths (self w') !! n = plot_filename_paths (self w) !! n)).
Proof.
  unfold process_file. wp_auto.
  all: rewrite ?discard_no_key_eq, ?discard_failed_eq; norm.
  all: unfold Cache.bump, Cache.update; cbn [Cache.data].
  all: repeat match goal with |- _ ∧ _ => split end; try done.
  all: intros q Hq.
  all: repeat match goal with |- _ ∧ _ => split end; try set_solver.
  all: rewrite ?lookup_delete_ne, ?lookup_alter_ne, ?lookup_insert_ne by done; try done.
Qed.

(** X9. Whatever the file and whatever the outcome, [process_file] calls no
    observer and writes no log line of the loop, and it leaves alone the
    live plots map, the allow-lists, the configuration, the flags, the time
    of the last refresh, the clock and the cache file; of the no-key set,
    the failed-open table and the cache it touches at most what belongs to
    its own path, and of the deduplication index at most the entry of its
    own basename. *)
Theorem process_file_touches_only_its_path (env : Env) (file_path : Path)
    (w : World) :
  let w' := final (process_file env file_path) w in
  journal (process_file env file_path) w = []
  ∧ plots (self w') = plots (self w)
  ∧ farmer_public_keys (self w') = farmer_public_keys (self w)
  ∧ pool_public_keys (self w') = pool_public_keys (self w)
  ∧ root_path (self w') = root_path (self w)
  ∧ match_str (self w') = match_str (self w)
  ∧ open_no_key_filenames (self w') = open_no_key_filenames (self w)
  ∧ last_refresh_time (self w') = last_refresh_time (self w)
  ∧ refresh_parameter (self w') = refresh_parameter (self w)
  ∧ _refreshing_enabled (self w') = _refreshing_enabled (self w)
  ∧ _initial (self w') = _initial (self w)
  ∧ clock w' = clock w
  ∧ cache_file w' = cache_file w
  ∧ (∀ q, q ≠ file_path →
       (q ∈ no_key_filenames (self w') ↔ q ∈ no_key_filenames (self w))
       ∧ failed_to_open_filenames (self w') !! q = failed_to_open_filenames (self w) !! q
       ∧ Cache.data (cache (self w')) !! q = Cache.data (cache (self w)) !! q)
  ∧ (∀ n, n ≠ name file_path →
       plot_filename_paths (self w') !! n = plot_filename_paths (self w) !! n).
Proof. exact (process_file_elsewhere env file_path w). Qed.

(** X10. [process_file] never replaces the primary parent of a registered
    basename and never takes a parent out of a duplicates set: an entry of
    the deduplication index keeps its primary, its duplicates set can only
    grow, and it does not change at all unless the basename is the one of
    the file at hand. *)
Theorem primary_parent_is_kept (env : Env) (file_path : Path) (w : World)
    (n primary : string) (duplicates : gset string) :
  plot_filename_paths (self w) !! n = Some (primary, duplicates) →
  let w' := final (process_file env file_path) w in
  ∃ duplicates',
    plot_filename_paths (self w') !! n = Some (primary, duplicates')
    ∧ duplicates ⊆ duplicates'
    ∧ (n ≠ name file_path → duplicates' = duplicates).
Proof.
  intros Hentry. to_wp. unfold process_file. wp_auto.
  all: rewrite ?discard_no_key_eq, ?discard_failed_eq in *; norm in *.
  all: try (exists duplicates; done).
  all: destruct (decide (n = name file_path)) as [->|Hne];
       [|exists duplicates; rewrite lookup_insert_ne by done; done].
  all: simplify_eq.
  all: rewrite lookup_insert_eq; eexists; split; [reflexivity|]; split; [set_solver|done].
Qed.

Lemma primary_parent_is_kept_witness :
  ∃ duplicates',
    plot_filename_paths
      (self (final (process_file (quiet_env []) a_copy) (world_of (manager_d1 false) 0)))
    !! "a.plot" = Some ("/d1", duplicates')
    ∧ ∅ ⊆ duplicates'
    ∧ ("a.plot" ≠ name a_copy → duplicates' = ∅).
Proof.
  apply (primary_parent_is_kept (quiet_env []) a_copy (world_of (manager_d1 false) 0)
           "a.plot" "/d1" ∅).
  reflexivity.
Defined.

(** X11. [process_file] never replaces an entry of the cache: an entry that
    is there stays, with the same prover and the same keys; only its last
    use may be set to the current time, and only if it is the entry of the
    file at hand. *)
Theorem cached_entry_is_not_replaced (env : Env) (file_path : Path) (w : World)
    (path : Path) (e : CacheEntry.t) :
  Cache.get path (cache (self w)) = Some e →
  let w' := final (process_file env file_path) w in
  ∃ e', Cache.get path (cache (self w')) = Some e'
        ∧ CacheEntry.prover e' = CacheEntry.prover e
        ∧ CacheEntry.farmer_public_key e' = CacheEntry.farmer_public_key e
        ∧ CacheEntry.pool_public_key e' = CacheEntry.pool_public_key e
        ∧ CacheEntry.pool_contract_puzzle_hash e' = CacheEntry.pool_contract_puzzle_hash e
        ∧ CacheEntry.plot_public_key e' = CacheEntry.plot_public_key e
        ∧ (path ≠ file_path → e' = e)
        ∧ (CacheEntry.last_use e' = CacheEntry.last_use e
           ∨ CacheEntry.last_use e' = clock w).
Proof.
  intros Hentry. to_wp. unfold process_file. wp_auto.
  all: rewrite ?discard_no_key_eq, ?discard_failed_eq in *; norm in *.
  all: unfold Cache.get, Cache.bump, Cache.update in *; cbn [Cache.data] in *.
  all: try (exists e; repeat split; try done; by left).
  all: destruct (decide (path = file_path)) as [->|Hne].
  all: simplify_eq.
  all: rewrite ?lookup_alter_eq, ?lookup_alter_ne, ?lookup_insert_ne by done.
  all: try (exists e; repeat split; try done; by left).
  all: rewrite Hentry; eexists; split; [reflexivity|]; repeat split; try done; by right.
Qed.

Lemma cached_entry_is_not_replaced_witness :
  ∃ e', Cache.get a_plot
          (cache (self (final (process_file (quiet_env []) a_plot) world_rotated)))
        = Some e'
        ∧ CacheEntry.prover e' = prover_of a_plot
        ∧ CacheEntry.farmer_public_key e' = "F1".
Proof.
  pose proof (cached_entry_is_not_replaced (quiet_env []) a_plot world_rotated a_plot
                (CacheEntry.from_disk_prover 1000 (prover_of a_plot))) as H.
  cbv zeta in H. destruct H as (e' & H1 & H2 & H3 & _).
  - vm_compute. reflexivity.
  - exists e'. exact (conj H1 (conj H2 H3)).
Defined.

(** ** The batch processor *)

Lemma plots_loaded_fold (l : list PlotInfo.t) (m : gmap Path PlotInfo.t) :
  let m' := foldl (λ m i, <[get_filename (PlotInfo.prover i) := i]> m) m l in
  (∀ i, i ∈ l → is_Some (m' !! get_filename (PlotInfo.prover i)))
  ∧ (∀ k, is_Some (m !! k) → is_Some (m' !! k))
  ∧ (∀ k, is_Some (m' !! k) →
          is_Some (m !! k) ∨ ∃ i, i ∈ l ∧ get_filename (PlotInfo.prover i) = k).
Proof.
  revert m. induction l as [|i l IH]; intros m; cbn zeta; cbn [foldl].
  - split; [by intros ? ?%elem_of_nil|]. split; [done|]. intros k Hk. by left.
  - destruct (IH (<[get_filename (PlotInfo.prover i) := i]> m)) as (H1 & H2 & H3).
    cbn zeta in *. split; [|split].
    + intros i' [->|Hin]%elem_of_cons; [|by apply H1].
      apply H2. rewrite lookup_insert_eq. eauto.
    + intros k Hk. apply H2. rewrite lookup_insert. case_decide; eauto.
    + intros k Hk. apply H3 in Hk as [Hk|(i' & Hi' & <-)].
      * rewrite lookup_insert in Hk. case_decide as Hd; [|by left].
        right. exists i. split; [by left|done].
      * right. exists i'. split; [by right|done].
Qed.

Lemma run_workers_count (env : Env) (paths : list Path) (w : World) :
  wp (run_workers env paths) w (λ r _ _,
    ∀ l, r = Return l → (length l ≤ length paths)%nat).
Proof.
  revert w. induction paths as [|p ps IH]; intros w; cbn [run_workers].
  - wp_steps. by intros l [= <-].
  - wp_step. wp_any; [|done]. wp_step. wp_use IH; intros Hl; [|done].
    wp_steps. intros l [= <-]. specialize (Hl _ eq_refl).
    destruct a; simpl; lia.
Qed.

(** X12. A batch that is processed to its end reports the number of paths
    it was given as [processed], no removals and 0 as [remaining], and at
    most one descriptor per path; every descriptor it reports is in the
    live plots map afterwards, under the file name of its prover, and is
    refused by the pre-filter from then on. *)
Theorem process_batch_merges_loaded (env : Env) (batch : list Path) (w : World)
    (res : PlotRefreshResult.t) :
  outcome (process_batch env batch) w = Return res →
  let w' := final (process_batch env batch) w in
  PlotRefreshResult.processed res = Z.of_nat (length batch)
  ∧ PlotRefreshResult.removed res = []
  ∧ PlotRefreshResult.remaining res = 0
  ∧ (length (PlotRefreshResult.loaded res) ≤ length batch)%nat
  ∧ (∀ i, i ∈ PlotRefreshResult.loaded res →
          is_Some (plots (self w') !! get_filename (PlotInfo.prover i))
          ∧ ∀ time_now,
              processing_required (self w') time_now
                (get_filename (PlotInfo.prover i)) = false).
Proof.
  intros Hres w'. revert res Hres. subst w'. to_wp.
  unfold process_batch. wp_steps. wp_use run_workers_count; intros Hl; [|done].
  wp_steps. intros res [= <-]. cbn [PlotRefreshResult.processed
    PlotRefreshResult.removed PlotRefreshResult.remaining PlotRefreshResult.loaded].
  split; [done|]. split; [done|]. split; [done|]. split.
  - specialize (Hl _ eq_refl).
    pose proof (List.filter_length (processing_required (self w) (clock w)) batch).
    lia.
  - intros i Hi.
    assert (Hlive : is_Some ((plots_loaded a ∪ plots (self (worker_pool env w0)))
                             !! get_filename (PlotInfo.prover i))).
    { apply lookup_union_is_Some. left.
      destruct (plots_loaded_fold a ∅) as (H1 & _ & _). by apply H1. }
    split; [exact Hlive|]. intros t. by apply processing_required_live.
Qed.

Lemma process_batch_merges_loaded_witness :
  PlotRefreshResult.processed total_s1 = 1
  ∧ (∀ i, i ∈ PlotRefreshResult.loaded total_s1 →
          is_Some (plots (self (final (process_batch (quiet_env []) [a_plot])
                                      (world_of (manager0 false) 1000)))
                   !! get_filename (PlotInfo.prover i))).
Proof.
  pose proof (process_batch_merges_loaded (quiet_env []) [a_plot]
                (world_of (manager0 false) 1000) total_s1) as H.
  cbv zeta in H. destruct H as (H1 & _ & _ & _ & H2).
  - vm_compute. reflexivity.
  - split; [exact H1|]. intros i Hi. exact (proj1 (H2 i Hi)).
Defined.

Lemma process_batch_idle (env : Env) (batch : list Path) (w : World) :
  (∀ p, p ∈ batch → processing_required (self w) (clock w) p = false) →
  process_batch env batch w
  = (Return {| PlotRefreshResult.loaded := [];
               PlotRefreshResult.removed := [];
               PlotRefreshResult.processed := Z.of_nat (length batch);
               PlotRefreshResult.remaining := 0;
               PlotRefreshResult.duration :=
                 (clock (worker_pool env w) - clock w)%Q |},
     worker_pool env w, []).
Proof.
  intros Hidle. unfold process_batch, bind, now, get_world.
  rewrite (filter_all_false _ _ Hidle). cbn [run_workers ret extern modify app].
  unfold plots_loaded. cbn [foldl self set_self]. rewrite (left_id_L ∅ (∪)).
  by destruct (worker_pool env w) as [[] ? ?].
Qed.

(** X13. A batch in which the pre-filter refuses every path opens no file:
    nothing is loaded, the manager is left as the other threads leave it
    while the batch is with the worker pool, and the batch still reports
    all its paths as processed. *)
Theorem idle_batch_loads_nothing (env : Env) (batch : list Path) (w : World) :
  (∀ p, p ∈ batch → processing_required (self w) (clock w) p = false) →
  outcome (process_batch env batch) w
  = Return {| PlotRefreshResult.loaded := [];
              PlotRefreshResult.removed := [];
              PlotRefreshResult.processed := Z.of_nat (length batch);
              PlotRefreshResult.remaining := 0;
              PlotRefreshResult.duration := (clock (worker_pool env w) - clock w)%Q |}
  ∧ final (process_batch env batch) w = worker_pool env w
  ∧ journal (process_batch env batch) w = [].
Proof.
  intros Hidle. unfold outcome, final, journal.
  by rewrite (process_batch_idle env batch w Hidle).
Qed.

Lemma idle_batch_loads_nothing_witness :
  final (process_batch (quiet_env []) [a_plot]) world_s1
  = worker_pool (quiet_env []) world_s1.
Proof.
  pose proof (idle_batch_loads_nothing (quiet_env []) [a_plot] world_s1) as H.
  destruct H as (_ & H & _).
  - intros p Hp. apply list_elem_of_singleton in Hp as ->. vm_compute. reflexivity.
  - exact H.
Defined.

(** X14. While refreshing is disabled, [process_batch] opens no file and
    loads nothing, whatever the batch. *)
Theorem disabled_batch_loads_nothing (env : Env) (batch : list Path) (w : World) :
  _refreshing_enabled (self w) = false →
  final (process_batch env batch) w = worker_pool env w
  ∧ (∀ res, outcome (process_batch env batch) w = Return res →
            PlotRefreshResult.loaded res = []).
Proof.
  intros Hoff.
  assert (Hrun := process_batch_idle env batch w).
  unfold outcome, final. rewrite Hrun.
  - split; [done|]. by intros res [= <-].
  - intros p _. unfold processing_required. by rewrite Hoff.
Qed.

Lemma disabled_batch_loads_nothing_witness :
  final (process_batch (quiet_env []) [a_plot; a_copy])
        (world_of (new "/root" None false param 604800) 1000)
  = worker_pool (quiet_env [])
      (world_of (new "/root" None false param 604800) 1000).
Proof.
  pose proof (disabled_batch_loads_nothing (quiet_env []) [a_plot; a_copy]
                (world_of (new "/root" None false param 604800) 1000)) as H.
  destruct H as (H & _).
  - reflexivity.
  - exact H.
Defined.

Lemma process_file_keeps_loadable (env : Env) (q p : Path) (prover : DiskProver)
    (e : CacheEntry.t) (w : World) :
  q ≠ p → name q ≠ name p → loadable p prover e w →
  loadable p prover e (final (process_file env q) w).
Proof.
  intros Hq Hn (He & Hf & Hp & Hi).
  pose proof (process_file_elsewhere env q w) as H. unfold wp in H. cbn beta in H.
  destruct H
    as (_ & _ & Hfk & Hpk & _ & _ & _ & _ & _ & _ & _ & Hclock & _ & Hother & Hidx).
  destruct (Hother p (not_eq_sym Hq)) as (_ & _ & Hcache).
  unfold loadable, entry_used, Cache.get in *.
  rewrite Hfk, Hpk, Hclock, Hcache, Hidx by done. done.
Qed.

Lemma run_workers_loads (env : Env) (p : Path) (stat_info : stat_result)
    (prover : DiskProver) (e : CacheEntry.t) (paths : list Path) (w : World) :
  load_file env p = Return (Some (stat_info, prover)) →
  size_check_fails env stat_info prover = Return false →
  p ∈ paths →
  (∀ q, q ∈ paths → q ≠ p → name q ≠ name p) →
  loadable p prover e w →
  wp (run_workers env paths) w (λ r _ _,
    ∀ l, r = Return l → plot_info_of e stat_info ∈ l).
Proof.
  intros Hload Hsize. revert w.
  induction paths as [|q paths IH]; intros w Hin Hnames Hw; [by apply elem_of_nil in Hin|].
  cbn [run_workers]. wp_step. destruct (decide (q = p)) as [->|Hq].
  - destruct Hw as (He & Hf & Hp & Hi). subst e.
    pose proof (process_file_loads env p w stat_info prover Hload Hsize Hf Hp Hi)
      as H.
    unfold wp in H. cbn beta in H. destruct H as (Hout & _).
    unfold wp at 1. rewrite Hout. wp_step. wp_any; [|done]. wp_steps.
    intros l [= <-]. by left.
  - apply elem_of_cons in Hin as [->|Hin]; [done|].
    assert (Hw' := process_file_keeps_loadable env q p prover e w Hq
                     (Hnames q ltac:(by left) Hq) Hw).
    unfold wp at 1. destruct (outcome (process_file env q) w) as [o|err]; [|done].
    wp_step. eapply wp_mono; [|apply IH; [done| |exact Hw']].
    + intros [l|err] w2 j2 Hl; cbn beta iota; [|done]. wp_steps.
      intros l' [= <-]. specialize (Hl _ eq_refl). destruct o; [by right|done].
    + intros q' Hq'. apply Hnames. by right.
Qed.

(** X15. [process_batch] loads what is there to load: a path of the batch
    that the pre-filter lets through, whose file parses, passes the size
    check and has allowed keys, and whose basename is not registered and is
    not shared with another path of the batch, is among the descriptors the
    batch reports and is live afterwards under the file name of its prover,
    provided the batch comes to its end. *)
Theorem eligible_plot_becomes_live (env : Env) (batch : list Path) (w : World)
    (p : Path) (stat_info : stat_result) (prover : DiskProver)
    (res : PlotRefreshResult.t) :
  p ∈ batch →
  (∀ q, q ∈ batch → q ≠ p → name q ≠ name p) →
  processing_required (self w) (clock w) p = true →
  load_file env p = Return (Some (stat_info, prover)) →
  size_check_fails env stat_info prover = Return false →
  let e := entry_used p w prover in
  CacheEntry.farmer_public_key e ∈ farmer_public_keys (self w) →
  (∀ k, CacheEntry.pool_public_key e = Some k → k ∈ pool_public_keys (self w)) →
  plot_filename_paths (self w) !! name p = None →
  outcome (process_batch env batch) w = Return res →
  let w' := final (process_batch env batch) w in
  plot_info_of e stat_info ∈ PlotRefreshResult.loaded res
  ∧ is_Some (plots (self w') !! get_filename (CacheEntry.prover e)).
Proof.
  intros Hin Hnames Hreq Hload Hsize e Hf Hp Hi Hres w'.
  revert res Hres. subst w'. to_wp. unfold process_batch. wp_steps.
  eapply wp_mono; [|apply (run_workers_loads env p stat_info prover e)]; try done.
  - intros [l|err] w1 j1 Hl; cbn beta iota; [|done]. specialize (Hl _ eq_refl).
    wp_steps. intros res [= <-]. cbn [PlotRefreshResult.loaded].
    split; [done|]. apply lookup_union_is_Some. left.
    destruct (plots_loaded_fold l ∅) as (H1 & _ & _).
    apply (H1 _ Hl).
  - apply list_elem_of_In, filter_In. split; [by apply list_elem_of_In|done].
  - intros q Hq. apply Hnames.
    apply list_elem_of_In, filter_In in Hq as [Hq _]. by apply list_elem_of_In.
Qed.

Lemma eligible_plot_becomes_live_witness :
  plot_info_of (entry_used a_plot (world_of (manager0 false) 1000) (prover_of a_plot))
               stat_a
    ∈ PlotRefreshResult.loaded total_s1
  ∧ is_Some (plots (self (final (process_batch (quiet_env []) [a_plot])
                                (world_of (manager0 false) 1000)))
             !! get_filename
                  (CacheEntry.prover
                     (entry_used a_plot (world_of (manager0 false) 1000)
                                 (prover_of a_plot)))).
Proof.
  apply (eligible_plot_becomes_live (quiet_env []) [a_plot]
           (world_of (manager0 false) 1000) a_plot stat_a (prover_of a_plot) total_s1).
  - apply list_elem_of_singleton. reflexivity.
  - intros q Hq Hne. apply list_elem_of_singleton in Hq. done.
  - vm_compute. reflexivity.
  - reflexivity.
  - vm_compute. reflexivity.
  - vm_compute. apply list_elem_of_singleton. reflexivity.
  - intros k Hk. vm_compute in Hk. injection Hk as <-.
    apply list_elem_of_singleton. reflexivity.
  - reflexivity.
  - vm_compute. reflexivity.
Defined.

Lemma run_workers_plots (env : Env) (paths : list Path) (w : World) :
  wp (run_workers env paths) w (λ _ w' _, plots (self w') = plots (self w)).
Proof.
  revert w. induction paths as [|q paths IH]; intros w; cbn [run_workers].
  - by wp_steps.
  - wp_step.
    pose proof (process_file_elsewhere env q w) as H. unfold wp in H. cbn beta in H.
    destruct H as (_ & Hplots & _).
    unfold wp at 1.
    destruct (outcome (process_file env q) w) as [o|err]; [|done].
    wp_step. eapply wp_mono; [|apply IH].
    intros [l|err] w2 j2 Hp2; cbn beta iota; [wp_steps|]; congruence.
Qed.

(** X16. When [process_batch] raises, the batch merges nothing into the live
    plots map, whatever its other files had given, and no observer is
    called. *)
Theorem raising_batch_merges_nothing (env : Env) (batch : list Path) (w : World)
    (e : string) :
  outcome (process_batch env batch) w = Raise e →
  let w' := final (process_batch env batch) w in
  plots (self w') = plots (self w)
  ∧ journal (process_batch env batch) w = [].
Proof.
  intros Hraise w'. revert Hraise. subst w'. to_wp. unfold process_batch. wp_steps.
  eapply wp_mono; [|apply (wp_and _ _ _ _ (run_workers_silent _ _ _)
                                      (run_workers_plots _ _ _))].
  intros [l|err] w1 j1 (-> & Hplots); cbn beta iota.
  - wp_steps. by intros [=].
  - intros _. split; [exact Hplots|done].
Qed.

Lemma raising_batch_merges_nothing_witness :
  plots (self (final (process_batch unreadable_env [a_plot; a_copy])
                     (world_of (manager0 false) 1000)))
  = plots (self (world_of (manager0 false) 1000)).
Proof.
  pose proof (raising_batch_merges_nothing unreadable_env [a_plot; a_copy]
                (world_of (manager0 false) 1000) "PermissionError") as H.
  cbv zeta in H. destruct H as (H & _).
  - vm_compute. reflexivity.
  - exact H.
Defined.

(** ** The start of a cycle *)

Lemma prune_failed_fold (plot_paths l : list Path) (m : gmap Path Z) (p : Path) :
  foldr (λ path m, if bool_decide (path ∈ plot_paths) then m else delete path m) m l !! p
  = if bool_decide (p ∈ l ∧ p ∉ plot_paths) then None else m !! p.
Proof.
  induction l as [|q l IH]; cbn [foldr].
  - rewrite bool_decide_eq_false_2; [done|]. by intros [?%elem_of_nil _].
  - destruct (decide (q ∈ plot_paths)) as [Hq|Hq].
    + rewrite (bool_decide_eq_true_2 _ Hq).
      rewrite IH. repeat case_bool_decide; try done; exfalso; set_solver.
    + rewrite (bool_decide_eq_false_2 _ Hq).
      rewrite lookup_delete. destruct (decide (q = p)) as [->|Hne].
      * rewrite bool_decide_eq_true_2 by set_solver. done.
      * rewrite IH. repeat case_bool_decide; try done; exfalso; set_solver.
Qed.

Lemma prune_no_key_fold (plot_paths l : list Path) (ks : gset Path) (p : Path) :
  p ∈ foldr (λ path ks, if bool_decide (path ∈ plot_paths) then ks else ks ∖ {[path]})
            ks l
  ↔ p ∈ ks ∧ ¬ (p ∈ l ∧ p ∉ plot_paths).
Proof.
  induction l as [|q l IH]; cbn [foldr].
  - set_solver.
  - destruct (decide (q ∈ plot_paths)) as [Hq|Hq].
    + rewrite (bool_decide_eq_true_2 _ Hq). rewrite IH. set_solver.
    + rewrite (bool_decide_eq_false_2 _ Hq).
      rewrite elem_of_difference, IH. set_solver.
Qed.

(** X17. The two loops at the start of a cycle (lines 154-160) cut the
    failed-open table and the no-key set down to the candidates of the
    cycle: a record of a candidate is kept as it is, a record of any other
    path is dropped, and nothing else changes. *)
Theorem prune_keeps_candidates (plot_paths : list Path) (s : PlotManager) :
  let s' := prune_no_key plot_paths (prune_failed plot_paths s) in
  (∀ p, failed_to_open_filenames s' !! p
        = if bool_decide (p ∈ plot_paths) then failed_to_open_filenames s !! p
          else None)
  ∧ (∀ p, p ∈ no_key_filenames s' ↔ p ∈ no_key_filenames s ∧ p ∈ plot_paths)
  ∧ plots s' = plots s
  ∧ plot_filename_paths s' = plot_filename_paths s
  ∧ cache s' = cache s.
Proof.
  cbn zeta. unfold prune_no_key, prune_failed. norm. split; [|split; [|done]].
  - intros p. rewrite prune_failed_fold.
    destruct (failed_to_open_filenames s !! p) as [t|] eqn:Hp.
    + assert (p ∈ (map_to_list (failed_to_open_filenames s)).*1).
      { apply list_elem_of_fmap. exists (p, t). split; [done|].
        by apply elem_of_map_to_list. }
      repeat case_bool_decide; try done; exfalso; naive_solver.
    + by repeat case_bool_decide.
  - intros p. rewrite prune_no_key_fold. rewrite elem_of_elements.
    destruct (decide (p ∈ plot_paths)); naive_solver.
Qed.

(** ** The reconciliation *)

Section Reconcile.
Variable plot_paths : list Path.
Implicit Types (acc : Reconcile) (l : list (string * (string * gset string))).

Lemma elem_of_gone_duplicates n d x :
  x ∈ gone_duplicates plot_paths n d ↔ x ∈ d ∧ mkPath x n ∉ plot_paths.
Proof.
  unfold gone_duplicates. rewrite list_elem_of_In, filter_In, <- list_elem_of_In.
  rewrite elem_of_elements, negb_true_iff, bool_decide_eq_false. done.
Qed.

Lemma elem_of_foldl_difference (d : gset string) (xs : list string) x :
  x ∈ foldl (λ d path, d ∖ {[path]}) d xs ↔ x ∈ d ∧ x ∉ xs.
Proof.
  revert d. induction xs as [|y xs IH]; intros d; cbn [foldl].
  - set_solver.
  - rewrite IH. set_solver.
Qed.

Lemma reconcile_entry_gone acc n lp d :
  mkPath lp n ∉ plot_paths →
  reconcile_entry plot_paths acc (n, (lp, d))
  = {| rc_plots := delete (mkPath lp n) (rc_plots acc);
       rc_paths := rc_paths acc;
       filenames_to_remove := filenames_to_remove acc ++ [n];
       rc_removed := rc_removed acc ++ [mkPath lp n] |}.
Proof.
  intros Hgone. unfold reconcile_entry. cbn [fst snd].
  rewrite (bool_decide_eq_false_2 _ Hgone). cbn [negb].
  case_bool_decide as Hlive; [done|].
  apply eq_None_not_Some in Hlive. by rewrite delete_id.
Qed.

Lemma reconcile_entry_kept acc n lp d :
  mkPath lp n ∈ plot_paths →
  reconcile_entry plot_paths acc (n, (lp, d))
  = {| rc_plots := rc_plots acc;
       rc_paths := <[n := (lp, foldl (λ d path, d ∖ {[path]}) d (gone_duplicates plot_paths n d))]>
                     (rc_paths acc);
       filenames_to_remove := filenames_to_remove acc;
       rc_removed := rc_removed acc
                     ++ ((λ path, mkPath path n) <$> gone_duplicates plot_paths n d) |}.
Proof.
  intros Hkept. unfold reconcile_entry. cbn [fst snd].
  by rewrite (bool_decide_eq_true_2 _ Hkept).
Qed.

(** the basenames, the live plots and the removed paths after the loop *)
Lemma reconcile_fold_spec l acc :
  NoDup l.*1 →
  let r := foldl (reconcile_entry plot_paths) acc l in
  (∀ n, n ∈ filenames_to_remove r ↔
        n ∈ filenames_to_remove acc
        ∨ ∃ lp d, (n, (lp, d)) ∈ l ∧ mkPath lp n ∉ plot_paths)
  ∧ (∀ n, (∀ lp d, (n, (lp, d)) ∈ l → mkPath lp n ∉ plot_paths) →
          rc_paths r !! n = rc_paths acc !! n)
  ∧ (∀ n lp d, (n, (lp, d)) ∈ l → mkPath lp n ∈ plot_paths →
       ∃ d', rc_paths r !! n = Some (lp, d')
             ∧ ∀ x, x ∈ d' ↔ x ∈ d ∧ mkPath x n ∈ plot_paths)
  ∧ (∀ p, rc_plots r !! p
          = if bool_decide ((p ∉ plot_paths)
                            ∧ (name p, parent p) ∈ (λ it, (it.1, it.2.1)) <$> l)
            then None else rc_plots acc !! p)
  ∧ (∀ q, q ∈ rc_removed r ↔
          q ∈ rc_removed acc
          ∨ ((q ∉ plot_paths)
             ∧ ∃ lp d, (name q, (lp, d)) ∈ l
                 ∧ (parent q = lp
                    ∨ (mkPath lp (name q) ∈ plot_paths ∧ parent q ∈ d)))).
Proof.
  revert acc. induction l as [|[n0 [lp0 d0]] l IH]; intros acc Hnd; cbn zeta.
  - cbn [foldl]. split; [|split; [|split; [|split]]].
    + intros n. split; [by left|]. intros [?|(? & ? & ?%elem_of_nil & _)]; done.
    + done.
    + by intros ??? ?%elem_of_nil.
    + intros p. rewrite bool_decide_eq_false_2; [done|].
      by intros [_ ?%elem_of_nil].
    + intros q. split; [by left|].
      intros [?|(_ & ? & ? & ?%elem_of_nil & _)]; done.
  - cbn [foldl]. rewrite fmap_cons in Hnd. cbn [fst] in Hnd.
    apply NoDup_cons in Hnd as [Hfresh Hnd].
    assert (Hother : ∀ lp d, (n0, (lp, d)) ∉ l).
    { intros lp d Hin. apply Hfresh. apply list_elem_of_fmap.
      by exists (n0, (lp, d)). }
    set (acc1 := reconcile_entry plot_paths acc (n0, (lp0, d0))).
    destruct (IH acc1 Hnd) as (Hf & Hp1 & Hp2 & Hl & Hr). cbn zeta in *.
    clear IH.
    destruct (decide (mkPath lp0 n0 ∈ plot_paths)) as [Hkept|Hgone].
    + (* the primary is still there *)
      pose proof (reconcile_entry_kept acc n0 lp0 d0 Hkept) as Hacc1.
      fold acc1 in Hacc1.
      split; [|split; [|split; [|split]]].
      * intros n. rewrite Hf, Hacc1. cbn [filenames_to_remove].
        setoid_rewrite elem_of_cons. split.
        -- intros [?|(lp & d & Hin & Hg)]; [by left|]. right. exists lp, d. eauto.
        -- intros [?|(lp & d & [[= -> -> ->]|Hin] & Hg)]; [by left|done|].
           right. exists lp, d. eauto.
      * intros n Hn. rewrite Hp1.
        -- rewrite Hacc1. cbn [rc_paths]. rewrite lookup_insert_ne; [done|].
           intros <-. apply (Hn lp0 d0); [by left|done].
        -- intros lp d Hin. apply (Hn lp d). by right.
      * intros n lp d [[= -> -> ->]|Hin]%elem_of_cons Hk.
        -- rewrite Hp1.
           ++ rewrite Hacc1. cbn [rc_paths]. rewrite lookup_insert_eq.
              eexists. split; [done|]. intros x.
              rewrite elem_of_foldl_difference, elem_of_gone_duplicates.
              destruct (decide (mkPath x n0 ∈ plot_paths)); naive_solver.
           ++ intros lp d Hin. by destruct (Hother lp d).
        -- by apply Hp2.
      * intros p. rewrite Hl, Hacc1. cbn [rc_plots].
        rewrite fmap_cons. cbn [fst snd].
        case_bool_decide as Hc1; case_bool_decide as Hc2; try done; exfalso.
        -- apply Hc2. split; [apply Hc1|]. right. apply Hc1.
        -- destruct Hc2 as [Hp [[= Hn Hlp]|Hin]%elem_of_cons]; [|naive_solver].
           apply Hp. by rewrite <- (path_eta p), Hn, Hlp.
      * intros q. rewrite Hr, Hacc1. cbn [rc_removed].
        rewrite elem_of_app, list_elem_of_fmap.
        setoid_rewrite elem_of_gone_duplicates. setoid_rewrite elem_of_cons.
        split.
        -- intros [[?|(x & -> & Hx & Hxg)]|(Hq & lp & d & Hin & Hc)].
           ++ by left.
           ++ right. split; [done|]. exists lp0, d0. cbn [name parent].
              split; [by left|]. right. done.
           ++ right. split; [done|]. exists lp, d. eauto.
        -- intros [?|(Hq & lp & d & [[= Hn -> ->]|Hin] & Hc)].
           ++ by left; left.
           ++ left. right. destruct Hc as [Hc|[_ Hc]].
              ** exfalso. apply Hq.
                 assert (q = mkPath lp0 n0) as ->; [|done].
                 rewrite <- (path_eta q). by f_equal.
              ** assert (Hq' : q = mkPath (parent q) n0).
                 { rewrite <- (path_eta q) at 1. by f_equal. }
                 exists (parent q). split; [done|]. split; [done|].
                 by rewrite <- Hq'.
           ++ right. split; [done|]. exists lp, d. eauto.
    + (* the primary is gone *)
      pose proof (reconcile_entry_gone acc n0 lp0 d0 Hgone) as Hacc1.
      fold acc1 in Hacc1.
      split; [|split; [|split; [|split]]].
      * intros n. rewrite Hf, Hacc1. cbn [filenames_to_remove].
        rewrite elem_of_app, list_elem_of_singleton.
        setoid_rewrite elem_of_cons. split.
        -- intros [[?| ->]|(lp & d & Hin & Hg)]; [by left| |].
           ++ right. exists lp0, d0. eauto.
           ++ right. exists lp, d. eauto.
        -- intros [?|(lp & d & [[= -> -> ->]|Hin] & Hg)].
           ++ by left; left.
           ++ by left; right.
           ++ right. exists lp, d. eauto.
      * intros n Hn. rewrite Hp1.
        -- by rewrite Hacc1.
        -- intros lp d Hin. apply (Hn lp d). by right.
      * intros n lp d [[= -> -> ->]|Hin]%elem_of_cons Hk; [done|].
        by apply Hp2.
      * intros p. rewrite Hl, Hacc1. cbn [rc_plots].
        rewrite fmap_cons. cbn [fst snd].
        case_bool_decide as Hc1; case_bool_decide as Hc2; try done.
        -- exfalso. apply Hc2. split; [apply Hc1|]. right. apply Hc1.
        -- destruct Hc2 as [Hp [[= Hn Hlp]|Hin]%elem_of_cons];
             [|exfalso; naive_solver].
           rewrite <- (path_eta p), Hn, Hlp. apply lookup_delete_eq.
        -- rewrite lookup_delete_ne; [done|]. intros <-.
           apply Hc2. split; [done|]. by left.
      * intros q. rewrite Hr, Hacc1. cbn [rc_removed].
        rewrite elem_of_app, list_elem_of_singleton.
        setoid_rewrite elem_of_cons. split.
        -- intros [[?| ->]|(Hq & lp & d & Hin & Hc)].
           ++ by left.
           ++ right. split; [done|]. exists lp0, d0. cbn [name parent].
              split; [by left|]. by left.
           ++ right. split; [done|]. exists lp, d. eauto.
        -- intros [?|(Hq & lp & d & [[= Hn -> ->]|Hin] & Hc)].
           ++ by left; left.
           ++ left. right. destruct Hc as [Hc|[Hc _]].
              ** rewrite <- (path_eta q). by f_equal.
              ** exfalso. apply Hgone.
                 assert (n0 = name q) as -> by done. done.
           ++ right. split; [done|]. exists lp, d. eauto.
Qed.
End Reconcile.

Lemma lookup_foldl_delete (m : gmap string (string * gset string))
    (names : list string) (n : string) :
  foldl (λ m filename, delete filename m) m names !! n
  = if bool_decide (n ∈ names) then None else m !! n.
Proof.
  revert m. induction names as [|f names IH]; intros m; cbn [foldl].
  - rewrite bool_decide_eq_false_2; [done|]. apply not_elem_of_nil.
  - rewrite IH. destruct (decide (n = f)) as [->|Hne].
    + rewrite lookup_delete_eq. rewrite (bool_decide_eq_true_2 (f ∈ f :: names));
        [by case_bool_decide|by left].
    + rewrite lookup_delete_ne by done.
      repeat case_bool_decide; try done; exfalso; set_solver.
Qed.

Lemma reconcile_run (plot_paths : list Path) (w : World) :
  wp (reconcile plot_paths) w (λ r w' j,
    (∃ removed,
       r = Return removed
       ∧ ∀ q, q ∈ removed ↔
              (q ∉ plot_paths)
              ∧ ∃ lp d, plot_filename_paths (self w) !! name q = Some (lp, d)
                  ∧ (parent q = lp
                     ∨ (mkPath lp (name q) ∈ plot_paths ∧ parent q ∈ d)))
    ∧ (∀ n lp d, plot_filename_paths (self w) !! n = Some (lp, d) →
         if bool_decide (mkPath lp n ∈ plot_paths)
         then ∃ d', plot_filename_paths (self w') !! n = Some (lp, d')
                    ∧ ∀ x, x ∈ d' ↔ x ∈ d ∧ mkPath x n ∈ plot_paths
         else plot_filename_paths (self w') !! n = None)
    ∧ (∀ n, plot_filename_paths (self w) !! n = None →
            plot_filename_paths (self w') !! n = None)
    ∧ (∀ p, plots (self w') !! p
            = if bool_decide ((p ∉ plot_paths)
                              ∧ fst <$> plot_filename_paths (self w) !! name p
                                = Some (parent p))
              then None else plots (self w) !! p)
    ∧ failed_to_open_filenames (self w') = failed_to_open_filenames (self w)
    ∧ no_key_filenames (self w') = no_key_filenames (self w)
    ∧ cache (self w') = cache (self w)
    ∧ _refreshing_enabled (self w') = _refreshing_enabled (self w)
    ∧ clock w' = clock w
    ∧ j = []).
Proof.
  unfold reconcile. wp_steps.
  set (idx := plot_filename_paths (self w)).
  set (acc := {| rc_plots := plots (self w); rc_paths := idx;
                 filenames_to_remove := []; rc_removed := [] |}).
  destruct (reconcile_fold_spec plot_paths (map_to_list idx) acc
              (NoDup_fst_map_to_list idx)) as (Hf & Hp1 & Hp2 & Hl & Hr).
  cbn zeta in *. set (r := foldl (reconcile_entry plot_paths) acc (map_to_list idx)) in *.
  assert (Hin : ∀ n lp d, (n, (lp, d)) ∈ map_to_list idx ↔ idx !! n = Some (lp, d)).
  { intros. apply elem_of_map_to_list. }
  split; [|split; [|split; [|split]]].
  - eexists. split; [done|]. intros q. rewrite Hr. cbn [rc_removed acc].
    setoid_rewrite Hin. split.
    + intros [?%elem_of_nil|?]; done.
    + intros ?. by right.
  - intros n lp d Hn. rewrite lookup_foldl_delete.
    case_bool_decide as Hk.
    + rewrite bool_decide_eq_false_2.
      * apply Hp2; [by apply Hin|done].
      * rewrite Hf. cbn [filenames_to_remove acc].
        intros [?%elem_of_nil|(lp' & d' & Hin' & Hg)]; [done|].
        apply Hin in Hin'. congruence.
    + rewrite bool_decide_eq_true_2; [done|].
      rewrite Hf. right. exists lp, d. split; [by apply Hin|done].
  - intros n Hn. rewrite lookup_foldl_delete. case_bool_decide; [done|].
    rewrite Hp1; [done|]. intros lp d Hin'%Hin. congruence.
  - intros p. rewrite Hl. cbn [rc_plots acc].
    assert (Heq : (name p, parent p)
                    ∈ (λ it : string * (string * gset string), (it.1, it.2.1))
                        <$> map_to_list idx
                  ↔ fst <$> idx !! name p = Some (parent p)).
    { rewrite list_elem_of_fmap. split.
      - intros ([n [lp d]] & [= Hn Hlp] & Hit). cbn [fst snd] in *.
        apply Hin in Hit. rewrite Hn, Hit. cbn. by rewrite Hlp.
      - destruct (idx !! name p) as [[lp d]|] eqn:Hp; [|done].
        intros [= <-]. exists (name p, (lp, d)). split; [done|]. by apply Hin. }
    repeat case_bool_decide; try done; exfalso; naive_solver.
  - done.
Qed.

(** X18. The reconciliation at the start of a cycle (lines 162-185).  It
    reports as removed exactly the primaries that are not among the
    candidates and, for the basenames whose primary still is, the
    duplicates that are not.  An entry whose primary file is still a
    candidate keeps its primary and those of its duplicates that are
    candidates; an entry whose primary file is gone is dropped with all its
    duplicates; no entry is added.  The live plots map loses exactly the
    primaries that are gone.  The failed-open table, the no-key set, the
    cache, the flag and the clock are not touched, and no observer is
    called. *)
Theorem reconcile_spec (plot_paths : list Path) (w : World) :
  let idx := plot_filename_paths (self w) in
  let w' := final (reconcile plot_paths) w in
  (∃ removed,
     outcome (reconcile plot_paths) w = Return removed
     ∧ ∀ q, q ∈ removed ↔
            (q ∉ plot_paths)
            ∧ ∃ lp d, idx !! name q = Some (lp, d)
                ∧ (parent q = lp
                   ∨ (mkPath lp (name q) ∈ plot_paths ∧ parent q ∈ d)))
  ∧ (∀ n lp d, idx !! n = Some (lp, d) →
       if bool_decide (mkPath lp n ∈ plot_paths)
       then ∃ d', plot_filename_paths (self w') !! n = Some (lp, d')
                  ∧ ∀ x, x ∈ d' ↔ x ∈ d ∧ mkPath x n ∈ plot_paths
       else plot_filename_paths (self w') !! n = None)
  ∧ (∀ n, idx !! n = None → plot_filename_paths (self w') !! n = None)
  ∧ (∀ p, plots (self w') !! p
          = if bool_decide ((p ∉ plot_paths)
                            ∧ fst <$> idx !! name p = Some (parent p))
            then None else plots (self w) !! p)
  ∧ failed_to_open_filenames (self w') = failed_to_open_filenames (self w)
  ∧ no_key_filenames (self w') = no_key_filenames (self w)
  ∧ cache (self w') = cache (self w)
  ∧ _refreshing_enabled (self w') = _refreshing_enabled (self w)
  ∧ clock w' = clock w
  ∧ journal (reconcile plot_paths) w = [].
Proof. exact (reconcile_run plot_paths w). Qed.

(** ** The reports of a cycle *)

Lemma process_batch_result (env : Env) (batch : list Path) (w : World) :
  wp (process_batch env batch) w (λ r _ _,
    ∀ res, r = Return res →
      PlotRefreshResult.processed res = Z.of_nat (length batch)
      ∧ PlotRefreshResult.removed res = []
      ∧ PlotRefreshResult.remaining res = 0).
Proof.
  unfold process_batch. wp_steps. wp_any; [|done]. wp_steps. by intros res [= <-].
Qed.

Lemma batch_loop_reports (env : Env) (batches : list (Z * list Path))
    (total : PlotRefreshResult.t) (w : World) :
  wp (batch_loop env batches total) w (λ _ _ j,
    ∃ n, Forall2 reported (batch_results j) (take n batches)
         ∧ ∀ i b, (S i < length (batch_results j))%nat →
                  batches !! i = Some b → b.1 ≠ 0).
Proof.
  revert total w. induction batches as [|[remaining batch] rest IH]; intros total w;
    cbn [batch_loop].
  - wp_steps. exists 0%nat. split; [constructor|]. cbn. lia.
  - wp_step.
    eapply wp_mono; [|apply (wp_and _ _ _ _ (process_batch_silent _ _ _)
                                        (process_batch_result _ _ _))].
    intros [res|e] w1 j1 [-> Hres]; cbn beta iota.
    2:{ exists 0%nat. split; [constructor|]. cbn. lia. }
    destruct (Hres _ eq_refl) as (Hproc & Hrem & _).
    wp_steps. destruct (negb _).
    + wp_steps. exists 0%nat. split; [constructor|]. cbn. lia.
    + wp_step. wp_use callback_journal; intros ->.
      2:{ exists 1%nat. split; [|cbn; lia].
          cbn. constructor; [|constructor]. done. }
      destruct (remaining =? 0) eqn:Hz.
      * wp_steps. exists 1%nat. split; [|cbn; lia].
        cbn. constructor; [|constructor]. done.
      * apply Z.eqb_neq in Hz.
        eapply wp_mono; [|apply IH]. intros r w3 j3 (n & Hfor & Hnz).
        exists (S n). split.
        -- cbn. constructor; [done|exact Hfor].
        -- intros [|i] b Hlen Hb.
           ++ by injection Hb as <-.
           ++ apply (Hnz i); [|done]. simpl in Hlen. lia.
Qed.

(** X19. The [batch_processed] reports of the loop over the batches follow
    the batches in order, one report per batch from the first on: the report
    of a batch carries the number of its paths as [processed], the count
    that came with the batch as [remaining] and no removals; no report
    follows the report of a batch with nothing remaining. *)
Theorem reports_follow_the_batches (env : Env) (batches : list (Z * list Path))
    (total : PlotRefreshResult.t) (w : World) :
  let rs := batch_results (journal (batch_loop env batches total) w) in
  (length rs ≤ length batches)%nat
  ∧ (∀ i r, rs !! i = Some r →
       ∃ remaining batch,
         batches !! i = Some (remaining, batch)
         ∧ PlotRefreshResult.remaining r = remaining
         ∧ PlotRefreshResult.processed r = Z.of_nat (length batch)
         ∧ PlotRefreshResult.removed r = []
         ∧ ((S i < length rs)%nat → remaining ≠ 0)).
Proof.
  cbn zeta. destruct (batch_loop_reports env batches total w) as (n & Hfor & Hnz).
  split.
  - apply Forall2_length in Hfor. rewrite Hfor, length_take. lia.
  - intros i r Hr.
    destruct (Forall2_lookup_l _ _ _ _ _ Hfor Hr) as ([remaining batch] & Hb & Hrep).
    apply lookup_take_Some in Hb as [Hb _].
    destruct Hrep as (H1 & H2 & H3). exists remaining, batch.
    repeat (split; [done|]). intros Hlen. by apply (Hnz i _ Hlen Hb).
Qed.

Lemma batch_results_app (j1 j2 : list Entry) :
  batch_results (j1 ++ j2) = batch_results j1 ++ batch_results j2.
Proof. apply omap_app. Qed.

Lemma batch_loop_total (env : Env) (batches : list (Z * list Path))
    (total : PlotRefreshResult.t) (w : World) :
  wp (batch_loop env batches total) w (λ r _ j,
    ∀ t, r = Return t → t = accumulate total (batch_results j)).
Proof.
  revert total w. induction batches as [|[remaining batch] rest IH]; intros total w;
    cbn [batch_loop].
  - wp_steps. by intros t [= <-].
  - wp_step. wp_use process_batch_silent; intros ->; [|done].
    wp_steps. destruct (negb _).
    + wp_steps. by intros t [= <-].
    + wp_step. wp_use callback_journal; intros ->; [|done].
      destruct (remaining =? 0).
      * wp_steps. by intros t [= <-].
      * wp_use IH; intros Ht; [|done].
        intros t Hr. rewrite (Ht t Hr). reflexivity.
Qed.

Lemma accumulate_spec (rs : list PlotRefreshResult.t) (total : PlotRefreshResult.t) :
  PlotRefreshResult.loaded (accumulate total rs)
  = PlotRefreshResult.loaded total ++ concat (PlotRefreshResult.loaded <$> rs)
  ∧ PlotRefreshResult.processed (accumulate total rs)
    = PlotRefreshResult.processed total
      + foldr Z.add 0 (PlotRefreshResult.processed <$> rs)
  ∧ PlotRefreshResult.remaining (accumulate total rs)
    = PlotRefreshResult.remaining total
  ∧ PlotRefreshResult.removed (accumulate total rs)
    = PlotRefreshResult.removed total.
Proof.
  revert total. induction rs as [|r rs IH]; intros total.
  - cbn. rewrite app_nil_r. repeat split; try done; lia.
  - unfold accumulate. cbn [foldl]. fold (accumulate).
    match goal with
    | |- context [foldl _ ?t rs] => destruct (IH t) as (H1 & H2 & H3 & H4)
    end.
    unfold accumulate in *. rewrite H1, H2, H3, H4. cbn.
    rewrite <- app_assoc. repeat split; try done; lia.
Qed.

Lemma batch_results_silent (j : list Entry) : events j = [] → batch_results j = [].
Proof.
  induction j as [|e j IH]; [done|]. destruct e; cbn; try done.
Qed.

Lemma batch_journal_no_done (r : result PlotRefreshResult.t) (w : World)
    (j : list Entry) (t : PlotRefreshResult.t) :
  batch_journal r w j → ¬ In (Observed done t) j.
Proof.
  intros [rs Hj] Hin.
  assert (Hbp : ¬ In (Observed done t) (Observed batch_processed <$> rs)).
  { clear. induction rs as [|r' rs IH]; cbn; [tauto|]. intros [?|?]; [done|tauto]. }
  destruct Hj as [->|(-> & _)]; [done|].
  apply in_app_or in Hin as [?|[?|[]]]; done.
Qed.

Lemma callback_run (env : Env) (ev : PlotRefreshEvents) (r : PlotRefreshResult.t)
    (w : World) :
  callback env ev r w
  = ((_refresh_callback env ev r w).1, (_refresh_callback env ev r w).2,
     [Observed ev r]).
Proof.
  unfold callback, bind, emit, extern.
  by destruct (_refresh_callback env ev r w) as [r' w'].
Qed.

Lemma refresh_cycle_total (env : Env) (w : World) :
  wp (refresh_cycle env) w (λ _ _ j,
    ∀ t, In (Observed done t) j →
      ∃ plot_filenames removed,
        get_plot_filenames env (root_path (self w)) = Return plot_filenames
        ∧ reconcile (concat plot_filenames.*2)
            (before_reconcile env w (concat plot_filenames.*2))
          = (Return removed,
             final (reconcile (concat plot_filenames.*2))
                   (before_reconcile env w (concat plot_filenames.*2)), [])
        ∧ t = accumulate
           {| PlotRefreshResult.loaded := []; PlotRefreshResult.removed := removed;
              PlotRefreshResult.processed := 0; PlotRefreshResult.remaining := 0;
              PlotRefreshResult.duration := 0%Q |} (batch_results j)).
Proof.
  unfold refresh_cycle. wp_steps.
  destruct (get_plot_filenames env (root_path (self w))) as [plot_filenames|e]
    eqn:Hwalk; norm.
  2:{ intros t []. }
  set (plot_paths := concat plot_filenames.*2).
  wp_step. refine (proj2 (wp_run _ _ _) _). intros r1 w1 j1 Hcb.
  rewrite callback_run in Hcb. injection Hcb as <- <- <-.
  destruct ((_refresh_callback env started _ w).1); cbn beta iota.
  2:{ intros t [?|[]]. done. }
  wp_steps. refine (proj2 (wp_run _ _ _) _). intros r2 w2 j2 Hrec.
  assert (Hrec' : reconcile plot_paths (before_reconcile env w plot_paths)
                  = (r2, w2, j2)) by exact Hrec.
  clear Hrec.
  pose proof (reconcile_silent plot_paths (before_reconcile env w plot_paths)) as Hs.
  unfold wp, outcome, final, journal in Hs. rewrite Hrec' in Hs. cbn [fst snd] in Hs.
  destruct Hs as [-> [removed ->]]. cbn beta iota.
  assert (Hrec : reconcile plot_paths (before_reconcile env w plot_paths)
                 = (Return removed,
                    final (reconcile plot_paths)
                          (before_reconcile env w plot_paths), [])).
  { unfold final. by rewrite Hrec'. }
  clear Hrec'.
  wp_steps. destruct (list_to_batches _ _) as [batches|e]; norm.
  2:{ intros t [?|[]]. done. }
  wp_step.
  eapply wp_mono; [|apply (wp_and _ _ _ _ (batch_loop_journal _ _ _ _)
                                      (batch_loop_total _ _ _ _))].
  intros [total|e] w3 jb [Hshape Htotal]; cbn beta iota.
  2:{ intros t [?|Hin]; [done|]. by apply (batch_journal_no_done _ _ _ t) in Hshape. }
  specialize (Htotal _ eq_refl).
  assert (Hstarted : ∀ r0 j', batch_results (Observed started r0 :: jb ++ j')
                              = batch_results jb ++ batch_results j').
  { intros. apply (batch_results_app jb). }
  wp_steps. destruct (_refreshing_enabled (self w3)).
  - wp_use callback_journal; intros ->.
    2:{ intros t [?|Hin]; [done|]. apply in_app_or in Hin as [Hin|[[= <-]|[]]].
        - by apply (batch_journal_no_done _ _ _ t) in Hshape.
        - exists plot_filenames, removed. split; [done|]. split; [exact Hrec|].
          rewrite Hstarted.
          change (batch_results [Observed done total]) with (@nil PlotRefreshResult.t).
          rewrite app_nil_r. exact Htotal. }
    wp_use finish_cycle_spec; intros (Hr & Hev & _ & _); [|done].
    intros t [?|Hin]; [done|]. apply in_app_or in Hin as [Hin|[[= <-]|Hin]].
    + by apply (batch_journal_no_done _ _ _ t) in Hshape.
    + exists plot_filenames, removed. split; [done|]. split; [exact Hrec|].
      rewrite Hstarted.
      change (batch_results ([Observed done total] ++ j)) with (batch_results j).
      rewrite (batch_results_silent _ Hev), app_nil_r. exact Htotal.
    + exfalso. clear -Hev Hin. induction j as [|e j IH]; [done|].
      destruct e; cbn in Hev; try done; destruct Hin as [?|?]; try done; by apply IH.
  - wp_steps. wp_use finish_cycle_spec; intros (Hr & Hev & _ & _); [|done].
    intros t [?|Hin]; [done|]. apply in_app_or in Hin as [Hin|Hin].
    + by apply (batch_journal_no_done _ _ _ t) in Hshape.
    + exfalso. clear -Hev Hin. induction j as [|e j IH]; [done|].
      destruct e; cbn in Hev; try done; destruct Hin as [?|?]; try done; by apply IH.
Qed.

(** X20. The result given to the observer with [done] sums up the cycle:
    its [removed] is the list that the reconciliation of lines 162-185
    gave, in the state that the report [started] and the two loops before
    it had left; its [loaded] is the concatenation of the [loaded] lists of
    the [batch_processed] reports in order, its [processed] the sum of
    their [processed] counts, its [remaining] is 0; in all, it is the record
    that lines 194-196 build from the reports, starting from these removals
    alone. *)
Theorem done_reports_the_sum (env : Env) (w : World) (t : PlotRefreshResult.t) :
  In (Observed done t) (journal (refresh_cycle env) w) →
  let rs := batch_results (journal (refresh_cycle env) w) in
  ∃ plot_filenames,
    get_plot_filenames env (root_path (self w)) = Return plot_filenames
    ∧ outcome (reconcile (concat plot_filenames.*2))
              (before_reconcile env w (concat plot_filenames.*2))
      = Return (PlotRefreshResult.removed t)
    ∧ PlotRefreshResult.loaded t = concat (PlotRefreshResult.loaded <$> rs)
    ∧ PlotRefreshResult.processed t
      = foldr Z.add 0 (PlotRefreshResult.processed <$> rs)
    ∧ PlotRefreshResult.remaining t = 0
    ∧ t = accumulate
        {| PlotRefreshResult.loaded := [];
           PlotRefreshResult.removed := PlotRefreshResult.removed t;
           PlotRefreshResult.processed := 0; PlotRefreshResult.remaining := 0;
           PlotRefreshResult.duration := 0%Q |} rs.
Proof.
  intros Hin. cbn zeta.
  destruct (refresh_cycle_total env w t Hin) as (plot_filenames & removed & Hwalk
                                                 & Hrec & Ht).
  destruct (accumulate_spec (batch_results (journal (refresh_cycle env) w))
              {| PlotRefreshResult.loaded := []; PlotRefreshResult.removed := removed;
                 PlotRefreshResult.processed := 0; PlotRefreshResult.remaining := 0;
                 PlotRefreshResult.duration := 0%Q |}) as (H1 & H2 & H3 & H4).
  rewrite <- Ht in H1, H2, H3, H4. cbn in H1, H2, H3, H4.
  exists plot_filenames. split; [exact Hwalk|]. split.
  { unfold outcome. rewrite Hrec. cbn [fst]. by rewrite H4. }
  split; [exact H1|]. split; [exact H2|]. split; [exact H3|].
  rewrite H4. exact Ht.
Qed.

Lemma done_reports_the_sum_witness :
  ∃ plot_filenames,
    get_plot_filenames (quiet_env [a_plot]) (root_path (manager0 false))
    = Return plot_filenames
    ∧ outcome (reconcile (concat plot_filenames.*2))
              (before_reconcile (quiet_env [a_plot]) (world_of (manager0 false) 1000)
                                (concat plot_filenames.*2))
      = Return (PlotRefreshResult.removed total_s1)
    ∧ PlotRefreshResult.loaded total_s1
      = concat (PlotRefreshResult.loaded
                  <$> batch_results (journal (refresh_cycle (quiet_env [a_plot]))
                                             (world_of (manager0 false) 1000))).
Proof.
  pose proof (done_reports_the_sum (quiet_env [a_plot])
                (world_of (manager0 false) 1000) total_s1) as H.
  cbv zeta in H. destruct H as (plot_filenames & H0 & H1 & H2 & _).
  - vm_compute. right. right. left. reflexivity.
  - exists plot_filenames. exact (conj H0 (conj H1 H2)).
Defined.

(** ** The end of a cycle *)

Lemma refresh_cycle_finished (env : Env) (w : World) :
  wp (refresh_cycle env) w (λ r w' _,
    r = Return tt → ∃ wa, finished env wa w').
Proof.
  unfold refresh_cycle. wp_steps.
  destruct (get_plot_filenames env (root_path (self w))) as [plot_filenames|e]; norm;
    [|done].
  wp_step. wp_any; [|done]. wp_steps. wp_any; [|done]. wp_steps.
  destruct (list_to_batches _ _) as [batches|e]; norm; [|done].
  wp_step. wp_any; [|done]. wp_steps.
  destruct (_refreshing_enabled (self w2)).
  - wp_any; [|done]. wp_use finish_cycle_spec; intros (_ & _ & _ & Hfin); [|done].
    intros _. eauto.
  - wp_steps. wp_use finish_cycle_spec; intros (_ & _ & _ & Hfin); [|done].
    intros _. eauto.
Qed.

(** X21. A cycle that runs to its end, aborted or not, leaves the manager
    closed for the interval: [initial_refresh()] is false, the time of the
    last refresh is the current time, and [needs_refresh()] is false unless
    the interval is negative.  The cache then holds no stale entry: the
    entry of a live plot has the current time as last use, and any other
    entry that is left is not expired; and if the cache file can be
    written, the cache is not dirty. *)
Theorem completed_cycle_is_closed (env : Env) (w : World) :
  outcome (refresh_cycle env) w = Return tt →
  let w' := final (refresh_cycle env) w in
  initial_refresh (self w') = false
  ∧ last_refresh_time (self w') = clock w'
  ∧ needs_refresh w'
    = (PlotsRefreshParameter.interval_seconds (refresh_parameter (self w')) <? 0)
  ∧ (∀ path e, Cache.get path (cache (self w')) = Some e →
       if bool_decide (is_Some (plots (self w') !! path))
       then CacheEntry.last_use e = clock w'
       else CacheEntry.expired (clock w') (Cache.expiry_seconds (cache (self w'))) e
            = false)
  ∧ (disk_writable env = true → Cache.changed (cache (self w')) = false).
Proof.
  intros Hdone w'.
  destruct (refresh_cycle_finished env w Hdone) as [wa Hfin]. fold w' in Hfin.
  destruct Hfin as (Hinit & Hlast & Hclock & [Hexp Hswept] & Hsave & Hplots & _).
  split; [exact Hinit|]. split; [exact Hlast|].
  split; [by apply needs_refresh_after_refresh|]. split.
  - intros path e. unfold Cache.get. rewrite Hswept, Hplots, Hclock, Hexp.
    destruct (Cache.data (cache (self wa)) !! path) as [e0|]; [|done].
    case_bool_decide.
    + by intros [= <-].
    + destruct (CacheEntry.expired _ _ e0) eqn:Hex; [done|]. by intros [= <-].
  - intros Hdisk. rewrite Hdisk in Hsave. destruct (Cache.changed _); apply Hsave.
Qed.

Lemma completed_cycle_is_closed_witness :
  initial_refresh (self (final (refresh_cycle (quiet_env [a_plot]))
                               (world_of (manager0 false) 1000))) = false
  ∧ needs_refresh (final (refresh_cycle (quiet_env [a_plot]))
                         (world_of (manager0 false) 1000)) = false.
Proof.
  pose proof (completed_cycle_is_closed (quiet_env [a_plot])
                (world_of (manager0 false) 1000)) as H.
  cbv zeta in H. destruct H as (H1 & _ & H2 & _).
  - vm_compute. reflexivity.
  - split; [exact H1|]. rewrite H2. vm_compute. reflexivity.
Defined.

(** ** The polling loop and the end of the thread *)

Lemma wait_for_refresh_run (env : Env) (fuel : nat) (w : World) :
  wp (wait_for_refresh env fuel) w (λ r w' j,
    ∃ k, (k ≤ fuel)%nat
      ∧ w' = Nat.iter k (sleep env) w
      ∧ j = []
      ∧ (∀ i, (i < k)%nat →
              needs_refresh (Nat.iter i (sleep env) w) = false
              ∧ _refreshing_enabled (self (Nat.iter i (sleep env) w)) = true)
      ∧ ((r = Return true
          ∧ (needs_refresh w' = true ∨ _refreshing_enabled (self w') = false))
         ∨ (r = Return false
            ∧ k = fuel
            ∧ needs_refresh w' = false
            ∧ _refreshing_enabled (self w') = true))).
Proof.
  revert w. induction fuel as [|fuel IH]; intros w; cbn [wait_for_refresh].
  - wp_steps.
    destruct (negb (needs_refresh w) && _refreshing_enabled (self w)) eqn:Hc;
      wp_steps; exists 0%nat; cbn [Nat.iter nat_rect].
    + apply andb_true_iff in Hc as [Hn%negb_true_iff He].
      split; [done|]. split; [done|]. split; [done|]. split; [lia|]. by right.
    + split; [done|]. split; [done|]. split; [done|]. split; [lia|]. left.
      split; [done|]. apply andb_false_iff in Hc as [Hn%negb_false_iff|He]; eauto.
  - wp_steps.
    destruct (negb (needs_refresh w) && _refreshing_enabled (self w)) eqn:Hc.
    + apply andb_true_iff in Hc as [Hn%negb_true_iff He]. wp_steps.
      eapply wp_mono; [|apply IH].
      intros r w' j (k & Hk & Hf & Hj & Hbefore & Hend). cbn beta.
      exists (S k). rewrite Nat.iter_succ_r.
      split; [lia|]. split; [done|]. split; [done|]. split.
      * intros [|i] Hi; [done|]. rewrite Nat.iter_succ_r. apply Hbefore. lia.
      * destruct Hend as [?|(? & -> & ?)]; [by left|by right].
    + wp_steps. exists 0%nat. cbn [Nat.iter nat_rect].
      split; [lia|]. split; [done|]. split; [done|]. split; [lia|]. left.
      split; [done|]. apply andb_false_iff in Hc as [Hn%negb_false_iff|He]; eauto.
Qed.

(** X22. The polling loop of line 137 calls no observer and does nothing
    but sleep: when it is left, the world is what some number of sleeps
    made of it, a refresh was not due and refreshing was enabled before
    each of these sleeps, and now a refresh is due or refreshing is
    disabled. *)
Theorem polling_sleeps_until_due (env : Env) (fuel : nat) (w : World) :
  outcome (wait_for_refresh env fuel) w = Return true →
  let w' := final (wait_for_refresh env fuel) w in
  journal (wait_for_refresh env fuel) w = []
  ∧ (needs_refresh w' = true ∨ _refreshing_enabled (self w') = false)
  ∧ ∃ k, (k ≤ fuel)%nat
      ∧ w' = Nat.iter k (sleep env) w
      ∧ ∀ i, (i < k)%nat →
             needs_refresh (Nat.iter i (sleep env) w) = false
             ∧ _refreshing_enabled (self (Nat.iter i (sleep env) w)) = true.
Proof.
  intros Hleft w'.
  destruct (wait_for_refresh_run env fuel w) as (k & Hk & Hf & Hj & Hbefore & Hend).
  fold w' in Hf, Hend. split; [exact Hj|]. split.
  - destruct Hend as [[_ ?]|[? _]]; [done|congruence].
  - exists k. done.
Qed.

Lemma polling_sleeps_until_due_witness :
  journal (wait_for_refresh (quiet_env []) 5) (world_of manager_failed 1) = []
  ∧ (needs_refresh (final (wait_for_refresh (quiet_env []) 5)
                          (world_of manager_failed 1)) = true
     ∨ _refreshing_enabled
         (self (final (wait_for_refresh (quiet_env []) 5)
                      (world_of manager_failed 1))) = false).
Proof.
  pose proof (polling_sleeps_until_due (quiet_env []) 5 (world_of manager_failed 1))
    as H.
  cbv zeta in H. destruct H as (H1 & H2 & _).
  - vm_compute. reflexivity.
  - exact (conj H1 H2).
Defined.

Lemma iteration_exit (env : Env) (fuel : nat) (w : World) :
  wp (iteration env fuel) w (λ r w' j,
    r = Return Exit → _refreshing_enabled (self w') = false ∧ j = []).
Proof.
  unfold iteration. wp_step. unfold try_body. wp_step.
  wp_use wait_for_refresh_silent; intros [-> [b Hb]]; [|done].
  destruct (negb a); [by wp_steps|].
  wp_steps. destruct (negb (_refreshing_enabled (self w0))) eqn:Hen.
  - wp_steps. intros _. by apply negb_true_iff in Hen.
  - wp_step. wp_any; by wp_steps.
Qed.

Lemma _refresh_task_exit (envs : list Env) (fuel : nat) (w : World) :
  wp (_refresh_task envs fuel) w (λ r w' _,
    r = Return true → _refreshing_enabled (self w') = false).
Proof.
  revert w. induction envs as [|env envs IH]; intros w; cbn [_refresh_task].
  - wp_steps. destruct (negb _) eqn:Hen; wp_steps; [|done].
    intros _. by apply negb_true_iff in Hen.
  - wp_steps. destruct (negb _) eqn:Hen; wp_steps.
    { intros _. by apply negb_true_iff in Hen. }
    wp_use iteration_exit; intros Hexit; [|done].
    destruct a.
    + apply IH.
    + wp_steps. intros _. by apply Hexit.
    + by wp_steps.
Qed.

(** X23. [_refresh_task] returns only when refreshing is disabled: whenever
    the thread function returns, [_refreshing_enabled] is false. *)
Theorem thread_ends_only_when_disabled (envs : list Env) (fuel : nat) (w : World) :
  outcome (_refresh_task envs fuel) w = Return true →
  _refreshing_enabled (self (final (_refresh_task envs fuel) w)) = false.
Proof. exact (_refresh_task_exit envs fuel w). Qed.

Lemma thread_ends_only_when_disabled_witness :
  _refreshing_enabled
    (self (final (_refresh_task [stopping_env; stopping_env] 5)
                 (world_of (manager0 false) 1000))) = false.
Proof.
  apply (thread_ends_only_when_disabled [stopping_env; stopping_env] 5
           (world_of (manager0 false) 1000)).
  vm_compute. reflexivity.
Defined.

(** ** The walk, and a walk that finds nothing *)

(** X24. A cycle first calls the observer with [started], giving the number
    of candidate paths that the walk found, over all directories, as
    [remaining] and nothing else. *)
Theorem cycle_starts_with_the_candidates (env : Env) (w : World)
    (plot_filenames : list (string * list Path)) :
  get_plot_filenames env (root_path (self w)) = Return plot_filenames →
  ∃ j', journal (refresh_cycle env) w
        = Observed started
            {| PlotRefreshResult.loaded := []; PlotRefreshResult.removed := [];
               PlotRefreshResult.processed := 0;
               PlotRefreshResult.remaining :=
                 Z.of_nat (length (concat plot_filenames.*2));
               PlotRefreshResult.duration := 0%Q |} :: j'.
Proof.
  intros Hwalk.
  change (wp (refresh_cycle env) w (λ _ _ j, ∃ j', j
        = Observed started
            {| PlotRefreshResult.loaded := []; PlotRefreshResult.removed := [];
               PlotRefreshResult.processed := 0;
               PlotRefreshResult.remaining :=
                 Z.of_nat (length (concat plot_filenames.*2));
               PlotRefreshResult.duration := 0%Q |} :: j')).
  unfold refresh_cycle. wp_steps. rewrite Hwalk. norm.
  wp_step. wp_use callback_journal; intros ->; [|by exists []].
  eapply wp_mono; [|exact (proj2 (wp_run _ _ (λ _ _ _, True)) (λ _ _ _ _, I))].
  intros r w1 j1 _. by exists j1.
Qed.

Lemma cycle_starts_with_the_candidates_witness :
  ∃ j', journal (refresh_cycle (quiet_env [a_plot; a_copy]))
                (world_of (manager0 false) 1000)
        = Observed started
            {| PlotRefreshResult.loaded := []; PlotRefreshResult.removed := [];
               PlotRefreshResult.processed := 0;
               PlotRefreshResult.remaining :=
                 Z.of_nat (length (concat [("/plots", [a_plot; a_copy])].*2));
               PlotRefreshResult.duration := 0%Q |} :: j'.
Proof.
  apply (cycle_starts_with_the_candidates (quiet_env [a_plot; a_copy])
           (world_of (manager0 false) 1000) [("/plots", [a_plot; a_copy])]).
  reflexivity.
Defined.

(** X25. When the walk finds no file at all, the start of a cycle forgets
    everything: the failed-open table and the no-key set become empty, the
    deduplication index becomes empty, so that [get_duplicates()] is empty,
    and the live plots map loses every plot that is registered as the
    primary of its basename.  Exactly these primaries are reported as
    removed: the duplicates that go with them are not. *)
Theorem empty_walk_drops_everything (w : World) :
  let w' := final (reconcile []) w in
  failed_to_open_filenames (prune_failed [] (self w)) = ∅
  ∧ no_key_filenames (prune_no_key [] (self w)) = ∅
  ∧ plot_filename_paths (self w') = ∅
  ∧ get_duplicates (self w') = []
  ∧ (∀ p, plots (self w') !! p
          = if bool_decide (fst <$> plot_filename_paths (self w) !! name p
                            = Some (parent p))
            then None else plots (self w) !! p)
  ∧ ∃ removed,
      outcome (reconcile []) w = Return removed
      ∧ ∀ q, q ∈ removed
             ↔ fst <$> plot_filename_paths (self w) !! name q = Some (parent q).
Proof.
  intros w'. pose proof (reconcile_run [] w) as H. unfold wp in H. cbn beta in H.
  fold w' in H. destruct H as ((removed & Hout & Hrem) & Hkept & Hnone & Hplots & _).
  assert (Hidx : plot_filename_paths (self w') = ∅).
  { apply map_eq. intros n. rewrite lookup_empty.
    destruct (plot_filename_paths (self w) !! n) as [[lp d]|] eqn:Hn.
    - specialize (Hkept n lp d Hn). rewrite bool_decide_eq_false_2 in Hkept; [done|].
      apply not_elem_of_nil.
    - by apply Hnone. }
  split; [|split; [|split; [|split; [|split]]]].
  - apply map_eq. intros p. rewrite lookup_empty.
    unfold prune_failed. norm. rewrite prune_failed_fold.
    destruct (failed_to_open_filenames (self w) !! p) as [t|] eqn:Hp;
      [|by case_bool_decide].
    rewrite bool_decide_eq_true_2; [done|]. split; [|apply not_elem_of_nil].
    apply list_elem_of_fmap. exists (p, t). split; [done|].
    by apply elem_of_map_to_list.
  - apply set_eq. intros p. unfold prune_no_key. norm.
    rewrite prune_no_key_fold, elem_of_elements.
    split; [|by intros ?%elem_of_empty]. intros [Hp Hn]. destruct Hn.
    split; [done|apply not_elem_of_nil].
  - exact Hidx.
  - unfold get_duplicates. rewrite Hidx. by rewrite map_to_list_empty.
  - intros p. rewrite Hplots.
    repeat case_bool_decide; try done; exfalso.
    + naive_solver.
    + match goal with H : ¬ _ |- _ => apply H end. split; [apply not_elem_of_nil|done].
  - exists removed. split; [done|]. intros q. rewrite Hrem. split.
    + intros (_ & lp & d & Hq & [<-|[[]%elem_of_nil _]]). by rewrite Hq.
    + intros Hq. split; [apply not_elem_of_nil|].
      destruct (plot_filename_paths (self w) !! name q) as [[lp d]|]; [|done].
      injection Hq as ->. exists (parent q), d. split; [done|by left].
Qed.

(** ** The retry window *)

(** [int(x)] of a time that is not negative: the start of its second *)
Lemma int_of_bounds (c : Q) :
  (0 <= c)%Q → (inject_Z (int_of c) <= c)%Q ∧ (c < inject_Z (int_of c) + 1)%Q.
Proof.
  destruct c as [n d]. unfold int_of, Qle, Qlt, Qplus, inject_Z. cbn.
  intros Hn. rewrite Z.quot_div_nonneg by lia.
  pose proof (Z.mul_div_le n (Z.pos d) ltac:(lia)).
  pose proof (Z.mul_succ_div_gt n (Z.pos d) ltac:(lia)).
  split; nia.
Qed.

(** X26. The failed-open record holds the time cut to whole seconds, so
    that the retry window starts up to one second before the failure: after
    a failed open at a time [c] that is not negative, the path is refused
    as long as less than [retry_invalid_seconds - 1] seconds have passed
    since [c], and once [retry_invalid_seconds] have passed since [c], a
    path that the manager as it was before the failure would let through
    is let through again. *)
Theorem failed_open_retry_window (env : Env) (file_path : Path) (w : World)
    (time_now : Q) :
  load_file env file_path = Return None →
  (0 <= clock w)%Q →
  let w' := final (process_file env file_path) w in
  let retry := inject_Z (PlotsRefreshParameter.retry_invalid_seconds
                           (refresh_parameter (self w))) in
  ((time_now - clock w < retry - 1)%Q →
   processing_required (self w') time_now file_path = false)
  ∧ ((retry <= time_now - clock w)%Q →
     processing_required (self w) time_now file_path = true →
     processing_required (self w') time_now file_path = true).
Proof.
  intros Hload Hclock w' retry. subst w' retry. unfold final.
  rewrite (process_file_fails env file_path w Hload). cbn [fst snd self set_self].
  destruct (int_of_bounds (clock w) Hclock) as [Hlo Hhi]. split.
  - intros Hsoon. apply not_true_is_false. intros H.
    apply processing_required_spec in H as (_ & _ & H & _).
    apply (H (int_of (clock w))); norm; [apply lookup_insert_eq|lra].
  - intros Hlate H. apply processing_required_spec in H as (Hen & Hm & _ & Hp & Hd).
    apply processing_required_spec. norm.
    split; [done|]. split; [done|]. split; [|done].
    intros t Ht. rewrite lookup_insert_eq in Ht. injection Ht as <-. lra.
Qed.

Lemma failed_open_retry_window_witness :
  processing_required
    (self (final (process_file failing_env a_plot)
                 (world_of (manager0 false) (2001 # 2))))
    2201 a_plot = true.
Proof.
  pose proof (failed_open_retry_window failing_env a_plot
                (world_of (manager0 false) (2001 # 2)) 2201) as H.
  cbv zeta in H. destruct H as (_ & H).
  - reflexivity.
  - vm_compute. discriminate.
  - apply H.
    + vm_compute. discriminate.
    + vm_compute. reflexivity.
Defined.
